(** * Lead pipeline: normalisation, store deduplication and enrichment

    A shallow embedding of the lead-generation pipeline
    ([data_processor.py], [google_sheets_manager.py], [email_finder.py],
    [ai_compliment_generator.py], [heyreach_manager.py] and the item
    processing of [linkedin_scraper.py]) together with the properties of
    it that the specification states, and further properties of the code.

    Conventions of the embedding.
    - A Python [str] is a [string]; the development covers ASCII text, so a
      character is an [ascii], [len] is [String.length] and case mapping
      touches the letters [A-Z] only.
    - A Python [dict] with string keys is a [gmap string pyval]; the
      values of a posting or a lead are [None], texts and integers.
      Floats, lists and nested objects are outside the embedding.
    - A Python [set] is a [gset].
    - An exception that leaves a function is the result [None] of an
      [option]; a [try]/[except] is a [match] on that option.
    - Calls to the outside world (HTTP, text generation, the random
      generator, [time.sleep]) go through a small state monad whose state
      counts the calls and records a trace of events. *)

From Stdlib Require Import ZArith Ascii String List Bool Lia DecimalString DecimalN.
From stdpp Require Import base option list gmap strings.

Local Open Scope string_scope.

(** ** Python string primitives *)

Module PyStr.

Definition code (c : ascii) : nat := nat_of_ascii c.

Definition between (lo hi n : nat) : bool := (lo <=? n)%nat && (n <=? hi)%nat.

(** [str.isspace] on one ASCII character: TAB, LF, VT, FF, CR, the four
    separators FS, GS, RS, US, and the blank.  The same class is [\s] of
    [re] on [str] patterns, and what [strip] and [split] remove. *)
Definition is_space (c : ascii) : bool :=
  between 9 13 (code c) || between 28 32 (code c).

Definition is_digit (c : ascii) : bool := between 48 57 (code c).

Definition is_upper (c : ascii) : bool := between 65 90 (code c).

Definition is_lower (c : ascii) : bool := between 97 122 (code c).

(** [\w] of [re]: letters, digits and the underscore. *)
Definition is_word (c : ascii) : bool :=
  is_upper c || is_lower c || is_digit c || (code c =? 95)%nat.

Definition lower_char (c : ascii) : ascii :=
  if is_upper c then ascii_of_nat (code c + 32) else c.

(** [s.lower()] *)
Fixpoint lower (s : string) : string :=
  match s with
  | EmptyString => EmptyString
  | String c r => String (lower_char c) (lower r)
  end.

(** [s.startswith(p)], returning what follows the prefix. *)
Fixpoint strip_prefix (p s : string) : option string :=
  match p, s with
  | EmptyString, _ => Some s
  | String a p', String b s' =>
      if Ascii.eqb a b then strip_prefix p' s' else None
  | String _ _, EmptyString => None
  end.

Definition startswith (p s : string) : bool :=
  match strip_prefix p s with Some _ => true | None => false end.

(** [s.replace(old, new)] for a non-empty [old]: occurrences are taken
    from the left and do not overlap.  [skip] counts the characters of an
    occurrence that are still to be passed over. *)
Fixpoint replace_from (old new : string) (skip : nat) (s : string) : string :=
  match s with
  | EmptyString => EmptyString
  | String c r =>
      match skip with
      | S k => replace_from old new k r
      | O =>
          if startswith old s
          then new ++ replace_from old new (String.length old - 1) r
          else String c (replace_from old new 0 r)
      end
  end.

Definition replace (old new s : string) : string := replace_from old new 0 s.

(** [sub in s]: the substring test. *)
Fixpoint contains (sub s : string) : bool :=
  startswith sub s ||
  match s with
  | EmptyString => false
  | String _ r => contains sub r
  end.

(** [s.count(c)] for a one-character argument. *)
Fixpoint count_char (c : ascii) (s : string) : nat :=
  match s with
  | EmptyString => 0
  | String d r => (if Ascii.eqb c d then 1 else 0) + count_char c r
  end.

(** [s.split(sep)[0]] for a one-character separator: the text before the
    first separator, the whole text when there is none. *)
Fixpoint before_first (sep : ascii) (s : string) : string :=
  match s with
  | EmptyString => EmptyString
  | String c r => if Ascii.eqb c sep then EmptyString else String c (before_first sep r)
  end.

Fixpoint all_chars (p : ascii -> bool) (s : string) : bool :=
  match s with
  | EmptyString => true
  | String c r => p c && all_chars p r
  end.

Fixpoint lstrip (s : string) : string :=
  match s with
  | EmptyString => EmptyString
  | String c r => if is_space c then lstrip r else s
  end.

(** Removal of the longest tail made of characters of class [p]; it is
    [s.rstrip()] for [is_space], and [re.sub(r'[...]+$', '', s)] for the
    class between the brackets: the leftmost match starts at the first
    position from which only characters of the class follow. *)
Fixpoint drop_tail (p : ascii -> bool) (s : string) : string :=
  match s with
  | EmptyString => EmptyString
  | String c r => if all_chars p s then EmptyString else String c (drop_tail p r)
  end.

Definition rstrip (s : string) : string := drop_tail is_space s.

(** [s.strip()] *)
Definition strip (s : string) : string := rstrip (lstrip s).

(** [s.split()]: the maximal runs of characters that are not white
    space.  [cur] is the run being read, in reverse. *)
Fixpoint split_ws_from (cur : list ascii) (s : string) : list string :=
  let flush := match cur with
               | [] => []
               | _ => [string_of_list_ascii (rev cur)]
               end in
  match s with
  | EmptyString => flush
  | String c r =>
      if is_space c then flush ++ split_ws_from [] r
      else split_ws_from (c :: cur) r
  end.

Definition split_ws (s : string) : list string := split_ws_from [] s.

(** [sep.join(parts)] *)
Fixpoint join (sep : string) (parts : list string) : string :=
  match parts with
  | [] => EmptyString
  | [p] => p
  | p :: rest => p ++ sep ++ join sep rest
  end.

(** [re.findall(r'\d+', s)]: the maximal runs of digits, left to right. *)
Fixpoint findall_digits_from (cur : list ascii) (s : string) : list string :=
  let flush := match cur with
               | [] => []
               | _ => [string_of_list_ascii (rev cur)]
               end in
  match s with
  | EmptyString => flush
  | String c r =>
      if is_digit c then findall_digits_from (c :: cur) r
      else flush ++ findall_digits_from [] r
  end.

Definition findall_digits (s : string) : list string := findall_digits_from [] s.

(** [int(s)] for a string of decimal digits. *)
Fixpoint int_of_digits_from (acc : Z) (s : string) : Z :=
  match s with
  | EmptyString => acc
  | String c r => int_of_digits_from (10 * acc + Z.of_nat (code c - 48)) r
  end.

Definition int_of_digits (s : string) : Z := int_of_digits_from 0 s.

(** [re.sub(r'\s+', ' ', s)]: every maximal run of white space becomes one
    blank.  [in_run] tells that the previous character was white space. *)
Fixpoint collapse_ws_from (in_run : bool) (s : string) : string :=
  match s with
  | EmptyString => EmptyString
  | String c r =>
      if is_space c
      then (if in_run then collapse_ws_from true r
            else String " " (collapse_ws_from true r))
      else String c (collapse_ws_from false r)
  end.

Definition collapse_ws (s : string) : string := collapse_ws_from false s.

(** A literal matched under [re.IGNORECASE], returning what follows. *)
Fixpoint strip_prefix_ci (p s : string) : option string :=
  match p, s with
  | EmptyString, _ => Some s
  | String a p', String b s' =>
      if Ascii.eqb (lower_char a) (lower_char b) then strip_prefix_ci p' s' else None
  | String _ _, EmptyString => None
  end.

Definition is_word_opt (c : option ascii) : bool :=
  match c with Some a => is_word a | None => false end.

Definition head (s : string) : option ascii :=
  match s with EmptyString => None | String c _ => Some c end.

Fixpoint last_char (dflt : option ascii) (s : string) : option ascii :=
  match s with
  | EmptyString => dflt
  | String c r => last_char (Some c) r
  end.

(** [\b]: exactly one of the two neighbours is a word character; the two
    ends of the text count as non-word. *)
Definition word_boundary (before after : option ascii) : bool :=
  xorb (is_word_opt before) (is_word_opt after).

(** Does [\b word \b] (with [re.IGNORECASE]) match at the head of [s],
    [prev] being the character before it in the whole text? *)
Definition word_at (word : string) (prev : option ascii) (s : string) : bool :=
  match strip_prefix_ci word s with
  | Some rest =>
      word_boundary prev (head s) &&
      word_boundary (last_char prev (substring 0 (String.length word) s)) (head rest)
  | None => false
  end.

(** [re.sub(rf'\b{word}\b', '', s, flags=re.IGNORECASE)] for a non-empty
    literal [word]. *)
Fixpoint sub_word_from (word : string) (prev : option ascii) (skip : nat)
    (s : string) : string :=
  match s with
  | EmptyString => EmptyString
  | String c r =>
      match skip with
      | S k => sub_word_from word (Some c) k r
      | O =>
          if word_at word prev s
          then sub_word_from word (Some c) (String.length word - 1) r
          else String c (sub_word_from word (Some c) 0 r)
      end
  end.

Definition sub_word (word s : string) : string := sub_word_from word None 0 s.

End PyStr.

(** ** Python values and dictionaries *)

(** The scalars a posting or a lead holds: [None], a [str], an [int]. *)
Inductive pyval : Type :=
| PNone
| PStr (s : string)
| PInt (z : Z).

#[global] Instance pyval_eq_dec : EqDecision pyval.
Proof. solve_decision. Defined.

#[global] Program Instance pyval_countable : Countable pyval :=
  inj_countable'
    (fun v => match v with
              | PNone => inl tt
              | PStr s => inr (inl s)
              | PInt z => inr (inr z)
              end)
    (fun e => match e with
              | inl _ => PNone
              | inr (inl s) => PStr s
              | inr (inr z) => PInt z
              end) _.
Next Obligation. by intros []. Qed.

(** A [dict] with string keys. *)
Abbreviation dict := (gmap string pyval).

(** [d.get(k, dflt)] and [d.get(k)] *)
Definition get_or (d : dict) (k : string) (dflt : pyval) : pyval :=
  default dflt (d !! k).

Definition get (d : dict) (k : string) : pyval := get_or d k PNone.

(** The truth value of a scalar in a condition. *)
Definition truthy (v : pyval) : bool :=
  match v with
  | PNone => false
  | PStr s => negb (String.eqb s "")
  | PInt z => negb (z =? 0)%Z
  end.

(** A method or function that needs a [str] and raises on anything else. *)
Definition as_str (v : pyval) : option string :=
  match v with PStr s => Some s | _ => None end.

Record config : Type := {
  min_employee_count : Z
}.

(** ** data_processor.py *)

Module DataProcessor.

Definition company_suffixes : list string :=
  [ "Inc"; "LLC"; "Ltd"; "LTD"; "Corp"; "Corporation"; "Company"; "Co";
    "Limited"; "Incorporated"; "Group"; "Partners"; "Associates";
    "International"; "Intl"; "Technologies"; "Tech"; "Software"; "Systems";
    "Solutions"; "Services"; "Enterprises"; "Ventures"; "Holdings" ].

(** [sys.get_int_max_str_digits()] as CPython sets it: since 3.11 (and the
    security releases of 3.7 to 3.10) [int] raises [ValueError] on a text
    of more digits, leading zeros counted. *)
Definition int_max_str_digits : nat := 4300.

(** The number the threshold filter compares: the integer itself, or the
    first run of digits of a string; [None] when the posting is skipped
    (no count, no digit in the text, or a run of digits that [int] turns
    down with a [ValueError], which the filter catches). *)
Definition threshold_count (employee_count : pyval) : option Z :=
  match employee_count with
  | PNone => None
  | PStr s =>
      match PyStr.findall_digits s with
      | n :: _ =>
          if (int_max_str_digits <? String.length n)%nat then None
          else Some (PyStr.int_of_digits n)
      | [] => None
      end
  | PInt z => Some z
  end.

Definition passes_threshold (cfg : config) (job : dict) : bool :=
  match threshold_count (get job "employee_count") with
  | Some n => (min_employee_count cfg <=? n)%Z
  | None => false
  end.

Definition _filter_by_employee_count (cfg : config) (job_data : list dict) : list dict :=
  List.filter (passes_threshold cfg) job_data.

Fixpoint _remove_duplicates_from (seen_urls : gset pyval) (job_data : list dict)
    : list dict :=
  match job_data with
  | [] => []
  | job :: rest =>
      let company_url := get job "company_linkedin_url" in
      if negb (truthy company_url) then _remove_duplicates_from seen_urls rest
      else if decide (company_url ∈ seen_urls)
           then _remove_duplicates_from seen_urls rest
           else job :: _remove_duplicates_from ({[company_url]} ∪ seen_urls) rest
  end.

Definition _remove_duplicates (job_data : list dict) : list dict :=
  _remove_duplicates_from ∅ job_data.

(** The three clean-up steps on a [str]: each suffix removed as a whole
    word, white space collapsed, trailing commas and blanks dropped. *)
Definition clean_text (company_name : string) : string :=
  let removed := fold_left (fun name suffix => PyStr.sub_word suffix name)
                           company_suffixes company_name in
  let collapsed := PyStr.collapse_ws (PyStr.strip removed) in
  PyStr.drop_tail (fun c => Ascii.eqb c "," || PyStr.is_space c) collapsed.

(** [_clean_company_name]: a falsy argument is returned as it is, and
    [re.sub] raises on a value that is not a [str]. *)
Definition _clean_company_name (company_name : pyval) : option pyval :=
  if negb (truthy company_name) then Some company_name
  else s ← as_str company_name; Some (PStr (clean_text s)).

Definition clean_job (job : dict) : option dict :=
  let company_name := get_or job "company_name" (PStr "") in
  if truthy company_name then
    cleaned_name ← _clean_company_name company_name;
    Some (<["company_name_original" := company_name]>
            (<["company_name_cleaned" := cleaned_name]> job))
  else Some job.

Definition _clean_company_names (job_data : list dict) : option (list dict) :=
  mapM clean_job job_data.

Definition required_fields : list string :=
  [ "company_name"; "job_poster_name"; "company_website" ].

Definition missing_fields (job : dict) : list string :=
  List.filter (fun field => negb (truthy (get job field))) required_fields.

Definition has_required_fields (job : dict) : bool :=
  match missing_fields job with [] => true | _ => false end.

Definition _validate_required_fields (job_data : list dict) : list dict :=
  List.filter has_required_fields job_data.

Definition filter_and_clean (cfg : config) (job_data : list dict) : option (list dict) :=
  let filtered_data := _filter_by_employee_count cfg job_data in
  let deduplicated_data := _remove_duplicates filtered_data in
  cleaned_data ← _clean_company_names deduplicated_data;
  Some (_validate_required_fields cleaned_data).

Record name_parts : Type := {
  first_name : string;
  last_name : string
}.

Definition extract_name_parts (full_name : pyval) : option name_parts :=
  if negb (truthy full_name) then Some {| first_name := ""; last_name := "" |}
  else
    s ← as_str full_name;
    let parts := List.map PyStr.strip
                   (List.filter (fun part => negb (String.eqb (PyStr.strip part) ""))
                                (PyStr.split_ws s)) in
    match parts with
    | [] => Some {| first_name := ""; last_name := "" |}
    | [p] => Some {| first_name := p; last_name := "" |}
    | p :: rest => Some {| first_name := p; last_name := PyStr.join " " rest |}
    end.

(** [re.sub(r'^https?://', '', url)] *)
Definition strip_scheme (url : string) : string :=
  match PyStr.strip_prefix "https://" url with
  | Some rest => rest
  | None =>
      match PyStr.strip_prefix "http://" url with
      | Some rest => rest
      | None => url
      end
  end.

(** [re.sub(r'^www\.', '', domain)] *)
Definition strip_www (domain : string) : string :=
  match PyStr.strip_prefix "www." domain with
  | Some rest => rest
  | None => domain
  end.

Definition domain_of (url : string) : string :=
  strip_www (PyStr.before_first "/" (strip_scheme url)).

Definition extract_domain_from_url (url : pyval) : option string :=
  if negb (truthy url) then Some ""
  else s ← as_str url; Some (domain_of s).

Definition format_lead_data (job_data : dict) : option dict :=
  let e := PStr "" in
  names ← extract_name_parts (get_or job_data "job_poster_name" e);
  domain ← extract_domain_from_url (get_or job_data "company_website" e);
  Some (list_to_map
    [ ("first_name", PStr (first_name names));
      ("last_name", PStr (last_name names));
      ("full_name", get_or job_data "job_poster_name" e);
      ("title", get_or job_data "job_poster_title" e);
      ("company_name",
         get_or job_data "company_name_cleaned" (get_or job_data "company_name" e));
      ("company_name_original",
         get_or job_data "company_name_original" (get_or job_data "company_name" e));
      ("company_website", get_or job_data "company_website" e);
      ("company_domain", PStr domain);
      ("company_linkedin_url", get_or job_data "company_linkedin_url" e);
      ("job_title", get_or job_data "job_title" e);
      ("job_location", get_or job_data "job_location" e);
      ("employee_count", get_or job_data "employee_count" e);
      ("company_industry", get_or job_data "company_industry" e);
      ("job_url", get_or job_data "job_url" e);
      ("posted_date", get_or job_data "posted_date" e);
      ("scraped_at", get_or job_data "scraped_at" e);
      ("email", e);
      ("email_confidence", e);
      ("compliment", e);
      ("status", PStr "new") ]).

End DataProcessor.

(** ** google_sheets_manager.py *)

Module GoogleSheetsManager.

(** [lead.get(k, '').lower()]; [None] when the value is not a [str] and
    the method call raises. *)
Definition lower_field (lead : dict) (k : string) : option string :=
  s ← as_str (get_or lead k (PStr "")); Some (PyStr.lower s).

Definition nonempty (s : string) : bool := negb (String.eqb s "").

(** [f"{email}_{company}"] *)
Definition combination_of (email company : string) : string :=
  email ++ "_" ++ company.

(** The first loop: the set of the keys of the stored leads that have
    both an email and a company name. *)
Fixpoint existing_combinations_from (acc : gset string) (existing_leads : list dict)
    : option (gset string) :=
  match existing_leads with
  | [] => Some acc
  | lead :: rest =>
      email ← lower_field lead "email";
      company ← lower_field lead "company_name";
      if nonempty email && nonempty company
      then existing_combinations_from ({[combination_of email company]} ∪ acc) rest
      else existing_combinations_from acc rest
  end.

(** [[l.get('company_name', '').lower() for l in existing_leads]] *)
Definition existing_company_names (existing_leads : list dict) : option (list string) :=
  mapM (fun l => lower_field l "company_name") existing_leads.

(** The second loop; [existing_combinations] grows with every lead kept
    through its first branch. *)
Fixpoint unique_leads_from (existing_leads : list dict)
    (existing_combinations : gset string) (new_leads : list dict)
    : option (list dict) :=
  match new_leads with
  | [] => Some []
  | lead :: rest =>
      email ← lower_field lead "email";
      company ← lower_field lead "company_name";
      if nonempty email && nonempty company then
        let combination := combination_of email company in
        if decide (combination ∈ existing_combinations)
        then unique_leads_from existing_leads existing_combinations rest
        else cons lead <$>
               unique_leads_from existing_leads
                 ({[combination]} ∪ existing_combinations) rest
      else if nonempty company then
        names ← existing_company_names existing_leads;
        if decide (company ∈ names)
        then unique_leads_from existing_leads existing_combinations rest
        else cons lead <$> unique_leads_from existing_leads existing_combinations rest
      else unique_leads_from existing_leads existing_combinations rest
  end.

(** The body of the [try]: [None] when something in it raises. *)
Definition check_duplicate_leads_try (existing_leads new_leads : list dict)
    : option (list dict) :=
  match existing_leads with
  | [] => Some new_leads
  | _ =>
      existing_combinations ← existing_combinations_from ∅ existing_leads;
      unique_leads_from existing_leads existing_combinations new_leads
  end.

(** [check_duplicate_leads]; [existing_leads] is what
    [self.get_existing_leads()] returned, the empty list when the store
    could not be read. *)
Definition check_duplicate_leads (existing_leads new_leads : list dict) : list dict :=
  match check_duplicate_leads_try existing_leads new_leads with
  | Some unique_leads => unique_leads
  | None => new_leads
  end.

End GoogleSheetsManager.

(** ** Identity keys of the persisted store *)

(** A lead whose email and company name, when present, are texts, so that
    [lower] does not raise on them. *)
Definition typed (lead : dict) : bool :=
  match GoogleSheetsManager.lower_field lead "email",
        GoogleSheetsManager.lower_field lead "company_name" with
  | Some _, Some _ => true
  | _, _ => false
  end.

(** The composite key of a lead that has both an email and a company
    name. *)
Definition key_of (lead : dict) : option string :=
  email ← GoogleSheetsManager.lower_field lead "email";
  company ← GoogleSheetsManager.lower_field lead "company_name";
  if GoogleSheetsManager.nonempty email && GoogleSheetsManager.nonempty company
  then Some (GoogleSheetsManager.combination_of email company)
  else None.

Definition has_key (k : string) (lead : dict) : bool :=
  bool_decide (key_of lead = Some k).

Definition has_company (name : string) (lead : dict) : bool :=
  bool_decide (GoogleSheetsManager.lower_field lead "company_name" = Some name).

(** ** The outside world *)

(** How long a [time.sleep] lasts: the configured
    [wait_time_between_requests], or a number of seconds written in the
    code. *)
Inductive delay : Type :=
| ConfiguredWait
| Seconds (n : Z).

Inductive event : Type :=
| EvPost (first_name last_name domain : string)
| EvChat (company_name : pyval) (website_content : string)
| EvSleep (d : delay).

(** What [session.post(...)] gives back: a response with its status code
    and, when the body is a JSON object, that object; or an exception of
    [requests]; or any other exception. *)
Inductive http_outcome : Type :=
| Response (status_code : Z) (data : option dict)
| RequestException
| UnexpectedError.

(** What [openai.ChatCompletion.create(...)] followed by
    [response.choices[0].message.content] gives back. *)
Inductive chat_outcome : Type :=
| ChatContent (content : string)
| RateLimitError
| APIError
| ChatUnexpectedError.

(** The collaborators: the reply to the n-th POST, the reply to the n-th
    chat request, the n-th number drawn by [random]. *)
Record outside : Type := {
  prospeo : nat -> http_outcome;
  openai : nat -> chat_outcome;
  random_index : nat -> nat
}.

Record world : Type := {
  http_calls : nat;
  chat_calls : nat;
  draws : nat;
  trace : list event
}.

Definition io (A : Type) : Type := world -> A * world.

Definition io_ret {A : Type} (a : A) : io A := fun w => (a, w).

Definition io_bind {A B : Type} (m : io A) (k : A -> io B) : io B :=
  fun w => let r := m w in k r.1 r.2.

Declare Scope io_scope.
Delimit Scope io_scope with io.
Notation "'let*' x := m 'in' k" := (io_bind m (fun x => k))
  (at level 10, x name, m at level 100, k at level 200) : io_scope.
Notation "m ;;; k" := (io_bind m (fun _ => k))
  (at level 100, k at level 200, right associativity) : io_scope.
Local Open Scope io_scope.

Definition log (e : event) (w : world) : world :=
  {| http_calls := http_calls w; chat_calls := chat_calls w;
     draws := draws w; trace := trace w ++ [e] |}.

(** [time.sleep(d)] *)
Definition sleep (d : delay) : io unit := fun w => (tt, log (EvSleep d) w).

(** [self.session.post(url, json=payload, timeout=30)] *)
Definition post (env : outside) (first_name last_name domain : string) : io http_outcome :=
  fun w =>
    (prospeo env (http_calls w),
     {| http_calls := S (http_calls w); chat_calls := chat_calls w; draws := draws w;
        trace := trace w ++ [EvPost first_name last_name domain] |}).

(** [openai.ChatCompletion.create(...)]; the event keeps the two values the
    prompt is built from. *)
Definition chat (env : outside) (company_name : pyval) (website_content : string)
    : io chat_outcome :=
  fun w =>
    (openai env (chat_calls w),
     {| http_calls := http_calls w; chat_calls := S (chat_calls w); draws := draws w;
        trace := trace w ++ [EvChat company_name website_content] |}).

(** [random.choice(seq)] for a non-empty [seq]. *)
Definition random_choice (env : outside) (seq : list string) : io string :=
  fun w =>
    (nth (random_index env (draws w) mod List.length seq) seq "",
     {| http_calls := http_calls w; chat_calls := chat_calls w; draws := S (draws w);
        trace := trace w |}).

Definition world0 : world :=
  {| http_calls := 0; chat_calls := 0; draws := 0; trace := [] |}.

(** ** email_finder.py *)

Module EmailFinder.

Definition domain_of (url : string) : string :=
  let domain := PyStr.replace "http://" "" (PyStr.replace "https://" "" url) in
  let domain := PyStr.before_first "/" domain in
  PyStr.replace "www." "" domain.

(** [_extract_domain]; [None] when [url] is not a [str] and [replace]
    raises. *)
Definition _extract_domain (url : pyval) : option string :=
  if negb (truthy url) then Some ""
  else s ← as_str url; Some (domain_of s).

Definition email_data_of (data : dict) : dict :=
  list_to_map
    [ ("email", get data "email");
      ("confidence", get_or data "confidence" (PStr "unknown"));
      ("status", get_or data "status" (PStr "unknown"));
      ("source", PStr "prospeo") ].

(** [_call_prospeo_api]: every exception is caught, so the result is a
    dictionary or Python's [None]. *)
Definition _call_prospeo_api (env : outside) (first_name last_name : string)
    (company_website : pyval) : io (option dict) :=
  match _extract_domain company_website with
  | None => io_ret None
  | Some domain =>
      let* response := post env first_name last_name domain in
      match response with
      | Response status_code data =>
          if (status_code =? 200)%Z then
            match data with
            | Some data =>
                if truthy (get data "email")
                   && bool_decide (get data "status" = PStr "VALID")
                then io_ret (Some (email_data_of data))
                else io_ret None
            | None => io_ret None
            end
          else if (status_code =? 429)%Z then
            sleep (Seconds 60) ;;; io_ret None
          else io_ret None
      | RequestException => io_ret None
      | UnexpectedError => io_ret None
      end
  end.

Definition find_email (env : outside) (lead_data : dict) : io (option dict) :=
  let full_name := get_or lead_data "job_poster_name" (PStr "") in
  if negb (truthy full_name) then io_ret None
  else
    match as_str full_name with
    | None => io_ret None
    | Some full_name =>
        match PyStr.split_ws full_name with
        | first_name :: ((_ :: _) as rest) =>
            let last_name := PyStr.join " " rest in
            let company_website := get_or lead_data "company_website" (PStr "") in
            if negb (truthy company_website) then io_ret None
            else
              let* email_data :=
                _call_prospeo_api env first_name last_name company_website in
              match email_data with
              | Some d => if truthy (get d "email") then io_ret (Some d) else io_ret None
              | None => io_ret None
              end
        | _ => io_ret None
        end
    end.

Definition with_email (lead email_data : dict) : dict :=
  <["email_status" := get_or email_data "status" (PStr "unknown")]>
    (<["email_confidence" := get_or email_data "confidence" (PStr "unknown")]>
       (<["email" := get email_data "email"]> lead)).

Definition without_email (lead : dict) : dict :=
  <["email_status" := PStr "not_found"]>
    (<["email_confidence" := PStr ""]>
       (<["email" := PStr ""]> lead)).

(** One turn of the loop of [find_emails_batch]. *)
Definition find_emails_step (env : outside) (lead : dict) : io dict :=
  let* email_data := find_email env lead in
  let lead := match email_data with
              | Some d => with_email lead d
              | None => without_email lead
              end in
  sleep ConfiguredWait ;;; io_ret lead.

Fixpoint find_emails_batch (env : outside) (leads_data : list dict) : io (list dict) :=
  match leads_data with
  | [] => io_ret []
  | lead :: rest =>
      let* lead := find_emails_step env lead in
      let* results := find_emails_batch env rest in
      io_ret (lead :: results)
  end.

End EmailFinder.

(** ** ai_compliment_generator.py *)

Module AIComplimentGenerator.

Definition fallback_compliments : list string :=
  [ "I've been following your company's growth and I'm impressed by your innovative approach.";
    "Your company's mission really resonates with me, and I love what you're building.";
    "I've heard great things about your team and the work you're doing.";
    "Your company's recent achievements have caught my attention, and I'm excited about your vision.";
    "I appreciate the innovative solutions your company is developing.";
    "Your company's commitment to excellence is truly inspiring.";
    "I've been impressed by your company's market presence and growth trajectory.";
    "Your company's approach to solving industry challenges is remarkable.";
    "I admire your company's dedication to customer success.";
    "Your company's culture and values really stand out in the industry." ].

Definition invalid_phrases : list string :=
  [ "I'm sorry"; "I cannot"; "I don't have"; "I'm unable"; "I cannot provide";
    "I don't have access"; "I'm not able"; "I cannot generate";
    "I don't have information"; "I cannot create" ].

Definition _validate_compliment (compliment : string) : bool :=
  if String.eqb compliment "" then false
  else if (String.length compliment <? 20)%nat || (300 <? String.length compliment)%nat
  then false
  else if existsb (fun phrase => PyStr.contains (PyStr.lower phrase) (PyStr.lower compliment))
                  invalid_phrases
  then false
  else if (2 <? PyStr.count_char "!" compliment)%nat
          || (1 <? PyStr.count_char "?" compliment)%nat
  then false
  else true.

(** [_generate_ai_compliment]: every exception is caught, so the result
    is a text or Python's [None].  Building the prompt slices
    [website_content], which raises when it is not a [str]. *)
Definition _generate_ai_compliment (env : outside) (company_name website_content : pyval)
    : io (option string) :=
  match as_str website_content with
  | None => io_ret None
  | Some content =>
      let* response := chat env company_name (substring 0 4000 content) in
      match response with
      | ChatContent content =>
          let compliment := PyStr.strip content in
          if _validate_compliment compliment then io_ret (Some compliment)
          else io_ret None
      | RateLimitError => io_ret None
      | APIError => io_ret None
      | ChatUnexpectedError => io_ret None
      end
  end.

Definition personalize (company_name compliment : string) : string :=
  PyStr.replace "Your company" company_name
    (PyStr.replace "your company" company_name compliment).

(** [_get_fallback_compliment]; [None] when [len(company_name)] raises,
    which it does on a non-zero [int]. *)
Definition _get_fallback_compliment (env : outside) (company_name : pyval)
    : io (option string) :=
  let* compliment := random_choice env fallback_compliments in
  if truthy company_name then
    match company_name with
    | PStr name =>
        if (String.length name <? 50)%nat
        then io_ret (Some (personalize name compliment))
        else io_ret (Some compliment)
    | _ => io_ret None
    end
  else io_ret (Some compliment).

(** [generate_compliment]; [None] when an exception leaves it: the
    handler calls [_get_fallback_compliment] once more. *)
Definition generate_compliment (env : outside) (company_name website_content : pyval)
    : io (option string) :=
  let* ai_compliment := _generate_ai_compliment env company_name website_content in
  let* attempt :=
    match ai_compliment with
    | Some text =>
        if negb (String.eqb text "") then io_ret (Some text)
        else _get_fallback_compliment env company_name
    | None => _get_fallback_compliment env company_name
    end in
  match attempt with
  | Some compliment => io_ret (Some compliment)
  | None => _get_fallback_compliment env company_name
  end.

(** [generate_compliments_batch]; [None] when [generate_compliment]
    raises for some lead. *)
Fixpoint generate_compliments_batch (env : outside) (leads_data : list dict)
    : io (option (list dict)) :=
  match leads_data with
  | [] => io_ret (Some [])
  | lead :: rest =>
      let company_name := get_or lead "company_name" (PStr "") in
      let website_content := get_or lead "website_content" (PStr "") in
      let* compliment := generate_compliment env company_name website_content in
      match compliment with
      | None => io_ret None
      | Some compliment =>
          let lead := <["compliment" := PStr compliment]> lead in
          let* results := generate_compliments_batch env rest in
          io_ret (cons lead <$> results)
      end
  end.

End AIComplimentGenerator.

Definition lead_of (email company : string) : dict :=
  list_to_map [ ("email", PStr email); ("company_name", PStr company) ].

Definition acme_posting : dict :=
  list_to_map
    [ ("employee_count", PStr "250-500 employees");
      ("company_name", PStr "Acme Solutions Inc");
      ("job_poster_name", PStr "John Smith");
      ("company_website", PStr "https://www.acme.com/careers");
      ("company_linkedin_url", PStr "https://www.linkedin.com/company/acme") ].

Definition cfg_default : config := {| min_employee_count := 200 |}.

(** The scenario's posting after [_clean_company_names]. *)
Definition acme_cleaned : dict :=
  <["company_name_original" := PStr "Acme Solutions Inc"]>
    (<["company_name_cleaned" := PStr "Acme"]> acme_posting).

(** A posting whose company name is made of suffix words only. *)
Definition tech_posting : dict :=
  list_to_map
    [ ("employee_count", PInt 1200);
      ("company_name", PStr "Tech Solutions Inc");
      ("job_poster_name", PStr "Jane Doe");
      ("company_website", PStr "https://www.techsolutions.example/");
      ("company_linkedin_url", PStr "https://www.linkedin.com/company/tech-solutions") ].

(** That posting after [_clean_company_names]. *)
Definition tech_cleaned : dict :=
  <["company_name_original" := PStr "Tech Solutions Inc"]>
    (<["company_name_cleaned" := PStr ""]> tech_posting).

(** The persisted store of the specification's example, and a store that
    holds an unrelated lead. *)
Definition acme_store : list dict := [ lead_of "a@x.com" "Acme" ].

Definition other_store : list dict := [ lead_of "z@z.com" "Other" ].

(** ** Pacing and failure kinds of the enrichment stages *)

(** Reading a trace from the left: [waited] tells that the configured wait
    has elapsed since the last call to a collaborator.  The result is the
    flag at the end of the trace, or [None] when some call follows another
    one with no configured wait in between. *)
Fixpoint pace (waited : bool) (evs : list event) : option bool :=
  match evs with
  | [] => Some waited
  | EvSleep ConfiguredWait :: rest => pace true rest
  | EvSleep (Seconds _) :: rest => pace waited rest
  | (EvPost _ _ _ | EvChat _ _) :: rest => if waited then pace false rest else None
  end.

Definition paced (evs : list event) : bool :=
  match pace true evs with Some _ => true | None => false end.

Definition is_chat (e : event) : bool :=
  match e with EvChat _ _ => true | _ => false end.

(** How an email lookup can fail. *)
Inductive failure_kind : Type :=
| NotFound
| RateLimited
| Fault.

(** What a reply of the email collaborator amounts to: [None] for a valid
    hit, else the kind of failure. *)
Definition reply_kind (r : http_outcome) : option failure_kind :=
  match r with
  | Response status_code data =>
      if (status_code =? 200)%Z then
        match data with
        | Some d =>
            if truthy (get d "email") && bool_decide (get d "status" = PStr "VALID")
            then None else Some NotFound
        | None => Some Fault
        end
      else if (status_code =? 429)%Z then Some RateLimited
      else Some Fault
  | RequestException => Some Fault
  | UnexpectedError => Some Fault
  end.

(** The status the specification gives to each kind of failure. *)
Definition status_of_kind (k : failure_kind) : string :=
  match k with
  | NotFound => "not_found"
  | RateLimited => "rate_limited"
  | Fault => "error"
  end.

(** Collaborators that answer every POST with the given status code and
    every chat request with a refusal, and draw 0, 1, 2, ... *)
Definition env_status (status_code : Z) : outside :=
  {| prospeo := fun _ => Response status_code None;
     openai := fun _ => ChatContent "I cannot help with that request, sorry.";
     random_index := fun n => n |}.

(** Collaborators whose email service finds an address for every request,
    and the body of its reply. *)
Definition hit_data : dict :=
  list_to_map
    [ ("email", PStr "john.smith@acme.com");
      ("status", PStr "VALID");
      ("confidence", PInt 97) ].

Definition env_hit : outside :=
  {| prospeo := fun _ => Response 200 (Some hit_data);
     openai := fun _ => APIError;
     random_index := fun n => n |}.

Definition john_lead : dict :=
  list_to_map
    [ ("job_poster_name", PStr "John Smith");
      ("company_website", PStr "https://www.acme.com/careers");
      ("company_name", PStr "Acme") ].

Definition jane_lead : dict :=
  list_to_map
    [ ("job_poster_name", PStr "Jane Doe");
      ("company_website", PStr "https://www.globex.com");
      ("company_name", PStr "Globex") ].

(** ** Rejected generation results *)

(** A text that validation turns down, in the specification's words: too
    short, too long, holding one of the refusal phrases (whatever the
    case of its letters), or with too many exclamation or question marks. *)
Definition fails_validation (text : string) : Prop :=
  (String.length text < 20)%nat \/
  (300 < String.length text)%nat \/
  (exists phrase, In phrase AIComplimentGenerator.invalid_phrases /\
                  PyStr.contains (PyStr.lower phrase) (PyStr.lower text) = true) \/
  (2 < PyStr.count_char "!" text)%nat \/
  (1 < PyStr.count_char "?" text)%nat.

(** A reply of the text generator that yields no usable compliment: an
    error of any sort, or a text that, once stripped, fails validation. *)
Definition generation_fails (r : chat_outcome) : Prop :=
  match r with
  | ChatContent content => fails_validation (PyStr.strip content)
  | RateLimitError => True
  | APIError => True
  | ChatUnexpectedError => True
  end.

(** The fallback built from a template for a company name. *)
Definition fallback_for (company_name template : string) : string :=
  if decide (company_name ≠ "" /\ (String.length company_name < 50)%nat)
  then AIComplimentGenerator.personalize company_name template
  else template.

(** The tails of a text that are neither the text itself nor empty. *)
Fixpoint proper_tails (s : string) : list string :=
  match s with
  | EmptyString => []
  | String _ r =>
      match r with
      | EmptyString => []
      | _ => r :: proper_tails r
      end
  end.

(** One of the two phrases the fallback replaces occurs in the text. *)
Definition generic (s : string) : bool :=
  PyStr.contains "your company" s || PyStr.contains "Your company" s.

(** [text] is [template] with its generic phrase given up for [name]. *)
Definition personalized (name template text : string) : Prop :=
  if generic template
  then exists pre phrase post : string,
         template = pre ++ phrase ++ post /\
         (phrase = "your company" \/ phrase = "Your company") /\
         generic pre = false /\ generic post = false /\
         text = pre ++ name ++ post
  else text = template.

(** What the fallback makes of the template it drew. *)
Definition fallback_text (company_name : pyval) (template text : string) : Prop :=
  match company_name with
  | PStr name =>
      if decide (name ≠ "" /\ (String.length name < 50)%nat)
      then PyStr.contains "Your company" name = false -> personalized name template text
      else text = template
  | _ => text = template
  end.

(** Collaborators whose text generator answers with a greeting that is too
    short, and which draw the template of the given index. *)
Definition env_short (index : nat) : outside :=
  {| prospeo := fun _ => UnexpectedError;
     openai := fun _ => ChatContent "  Nice work!  ";
     random_index := fun _ => index |}.

(** A site whose host name has [www.] after its first label. *)
Definition jobs_url : string := "https://jobs.www.acme.com/careers".

(** ** Notions for the statements about batch processing *)

Definition url_of (job : dict) : pyval := get job "company_linkedin_url".

Definition has_url (u : pyval) (job : dict) : bool := bool_decide (url_of job = u).

Definition not_digit (c : ascii) : bool := negb (PyStr.is_digit c).

Definition is_zero (c : ascii) : bool := Ascii.eqb c "0".

(** [str(n)] for a natural number: its decimal numeral. *)
Definition numeral (n : N) : string := NilZero.string_of_uint (N.to_uint n).

(** ** Notions for the statements about cleaned texts *)

Definition not_space (c : ascii) : bool := negb (PyStr.is_space c).

(** White space occurs in [s] only as single blanks; [after_space] tells
    that the character before [s] was white space. *)
Fixpoint single_spaced (after_space : bool) (s : string) : bool :=
  match s with
  | EmptyString => true
  | String c r =>
      if PyStr.is_space c
      then Ascii.eqb c " " && negb after_space && single_spaced true r
      else single_spaced false r
  end.

(** The company name of a posting is something [re.sub] accepts, or is
    skipped by the cleaning step: a text, [None], nothing, or zero. *)
Definition cleanable (job : dict) : bool :=
  match get_or job "company_name" (PStr "") with
  | PInt z => (z =? 0)%Z
  | _ => true
  end.

(** ** Notions for the statements about the email stage *)

(** A lead the email collaborator can be asked about: its poster name is a
    text of two tokens or more and its company website a non-empty text. *)
Definition lookup_possible (lead : dict) : bool :=
  match get_or lead "job_poster_name" (PStr "") with
  | PStr full_name => (2 <=? List.length (PyStr.split_ws full_name))%nat
  | _ => false
  end &&
  match get_or lead "company_website" (PStr "") with
  | PStr website => negb (String.eqb website "")
  | _ => false
  end.

Definition enrichment_key (k : string) : bool :=
  String.eqb k "email" || String.eqb k "email_confidence" || String.eqb k "email_status".

(** What the email stage may do to a lead: leave every field but the three
    enrichment fields alone, and set the email and its status together. *)
Definition email_enriched (lead out : dict) : Prop :=
  (forall k, enrichment_key k = false -> out !! k = lead !! k) /\
  ((out !! "email_status" = Some (PStr "VALID") /\ truthy (get out "email") = true) \/
   (out !! "email_status" = Some (PStr "not_found") /\ out !! "email" = Some (PStr "") /\
    out !! "email_confidence" = Some (PStr ""))).

(** ** Notions for the statements about the compliment stage *)

(** A company name on which [len] does not raise: anything but a number
    other than zero. *)
Definition nameable (company_name : pyval) : bool :=
  match company_name with
  | PInt z => (z =? 0)%Z
  | _ => true
  end.

(** The lead a compliment batch returns for [lead]: the same lead with a
    non-empty compliment. *)
Definition complimented (lead out : dict) : Prop :=
  exists text, text ≠ "" /\ out = <["compliment" := PStr text]> lead.

(** Collaborators whose text generator answers with a usable compliment. *)
Definition env_praise : outside :=
  {| prospeo := fun _ => RequestException;
     openai := fun _ => ChatContent "  Your onboarding guide is clear and quick to follow.  ";
     random_index := fun n => n |}.

(** ** google_sheets_manager.py: writing and reading the sheet *)

Module SheetStore.

(** The header row written by [create_sheet_with_headers]. *)
Definition headers : list string :=
  [ "First Name"; "Last Name"; "Full Name"; "Title"; "Email"; "Company Name";
    "Company Name Original"; "Company Website"; "Company Domain";
    "Company LinkedIn URL"; "Job Title"; "Job Location"; "Employee Count";
    "Company Industry"; "Job URL"; "Posted Date"; "Scraped At";
    "Email Confidence"; "Compliment"; "Status" ].

(** [str(v)] *)
Definition str (v : pyval) : string :=
  match v with
  | PNone => "None"
  | PStr s => s
  | PInt z => NilZero.string_of_int (Z.to_int z)
  end.

(** [str(cell).strip() if cell is not None else ''] *)
Definition cell_text (cell : pyval) : string :=
  match cell with
  | PNone => ""
  | _ => PyStr.strip (str cell)
  end.

(** One row of [_prepare_sheet_data]. *)
Definition sheet_row (lead : dict) : list string :=
  let e := PStr "" in
  List.map cell_text
    [ get_or lead "first_name" e;
      get_or lead "last_name" e;
      get_or lead "full_name" e;
      get_or lead "title" e;
      get_or lead "email" e;
      get_or lead "company_name" e;
      get_or lead "company_name_original" e;
      get_or lead "company_website" e;
      get_or lead "company_domain" e;
      get_or lead "company_linkedin_url" e;
      get_or lead "job_title" e;
      get_or lead "job_location" e;
      get_or lead "employee_count" e;
      get_or lead "company_industry" e;
      get_or lead "job_url" e;
      get_or lead "posted_date" e;
      get_or lead "scraped_at" e;
      get_or lead "email_confidence" e;
      get_or lead "compliment" e;
      get_or lead "status" (PStr "new") ].

Definition _prepare_sheet_data (leads_data : list dict) : list (list string) :=
  List.map sheet_row leads_data.

(** [header.lower().replace(' ', '_')] *)
Definition header_key (header : string) : string :=
  PyStr.replace " " "_" (PyStr.lower header).

(** The inner loop of [get_existing_leads]: [header] is the [i]-th header;
    a row that is too short gives the empty text. *)
Fixpoint row_to_lead (lead : dict) (i : nat) (headers row : list string) : dict :=
  match headers with
  | [] => lead
  | header :: rest =>
      let cell := match row !! i with Some c => c | None => "" end in
      row_to_lead (<[header_key header := PStr cell]> lead) (S i) rest row
  end.

(** What reading the sheet gives: a result, with the rows under ['values']
    when there are any, each cell a text; or an exception. *)
Inductive sheet_reply : Type :=
| SheetResult (values : option (list (list string)))
| SheetError.

(** [get_existing_leads]; [service] tells that [self.service] is set. *)
Definition get_existing_leads (service : bool) (reply : sheet_reply) : list dict :=
  if negb service then []
  else
    match reply with
    | SheetError => []
    | SheetResult None => []
    | SheetResult (Some values) =>
        match values with
        | [] => []
        | headers :: rows =>
            if (List.length values <? 2)%nat then []
            else List.map (row_to_lead ∅ 0 headers) rows
        end
    end.

End SheetStore.

(** ** Notions for the statements about the sheet *)

(** The keys and defaults of a row, column by column. *)
Definition lead_columns : list (string * pyval) :=
  [ ("first_name", PStr ""); ("last_name", PStr ""); ("full_name", PStr "");
    ("title", PStr ""); ("email", PStr ""); ("company_name", PStr "");
    ("company_name_original", PStr ""); ("company_website", PStr "");
    ("company_domain", PStr ""); ("company_linkedin_url", PStr "");
    ("job_title", PStr ""); ("job_location", PStr ""); ("employee_count", PStr "");
    ("company_industry", PStr ""); ("job_url", PStr ""); ("posted_date", PStr "");
    ("scraped_at", PStr ""); ("email_confidence", PStr ""); ("compliment", PStr "");
    ("status", PStr "new") ].

(** A row as the sheet gives it back: the row written, less some empty
    cells at its end. *)
Definition stored_as (written read : list string) : Prop :=
  exists n, written = (read ++ repeat "" n)%list.

(** A lead whose email and company name are texts, or missing, with no
    white space around them. *)
Definition plain (lead : dict) : bool :=
  match get_or lead "email" (PStr ""), get_or lead "company_name" (PStr "") with
  | PStr email, PStr company =>
      String.eqb (PyStr.strip email) email && String.eqb (PyStr.strip company) company
  | _, _ => false
  end.

(** ** heyreach_manager.py *)

Module HeyReachManager.

(** The JSON object sent to the campaign: its scalar entries, and the
    object under its key ['custom_fields'].  That object is built with nine
    keys, so it is never dropped as an empty value. *)
Record payload : Type := {
  fields : dict;
  custom_fields : dict
}.

(** [{k: v for k, v in d.items() if v}] *)
Definition keep_truthy (d : dict) : dict :=
  filter (fun kv : string * pyval => truthy kv.2 = true) d.

Definition _prepare_lead_data (campaign_id : pyval) (lead_data : dict) : payload :=
  let e := PStr "" in
  {| fields :=
       keep_truthy (list_to_map
         [ ("campaign_id", campaign_id);
           ("first_name", get_or lead_data "first_name" e);
           ("last_name", get_or lead_data "last_name" e);
           ("email", get_or lead_data "email" e);
           ("company", get_or lead_data "company_name" e);
           ("title", get_or lead_data "title" e);
           ("website", get_or lead_data "company_website" e);
           ("linkedin_url", get_or lead_data "company_linkedin_url" e);
           ("location", get_or lead_data "job_location" e);
           ("industry", get_or lead_data "company_industry" e);
           ("employee_count", get_or lead_data "employee_count" e) ]);
     custom_fields :=
       keep_truthy (list_to_map
         [ ("compliment", get_or lead_data "compliment" e);
           ("job_title", get_or lead_data "job_title" e);
           ("job_url", get_or lead_data "job_url" e);
           ("posted_date", get_or lead_data "posted_date" e);
           ("scraped_at", get_or lead_data "scraped_at" e);
           ("email_confidence", get_or lead_data "email_confidence" e);
           ("company_domain", get_or lead_data "company_domain" e);
           ("company_name_original", get_or lead_data "company_name_original" e);
           ("full_name", get_or lead_data "full_name" e) ]) |}.

Inductive hr_event : Type :=
| HrPost (data : payload)
| HrSleep (d : delay).

Record hr_world : Type := {
  hr_calls : nat;
  hr_trace : list hr_event
}.

Definition hr_io (A : Type) : Type := hr_world -> A * hr_world.

Definition hr_log (e : hr_event) (w : hr_world) : hr_world :=
  {| hr_calls := hr_calls w; hr_trace := (hr_trace w ++ [e])%list |}.

(** [_add_lead_to_campaign]; [campaign] gives the reply to the n-th POST. *)
Definition _add_lead_to_campaign (campaign : nat -> http_outcome) (lead_data : payload)
    : hr_io bool :=
  fun w =>
    let response := campaign (hr_calls w) in
    let w1 := {| hr_calls := S (hr_calls w);
                 hr_trace := (hr_trace w ++ [HrPost lead_data])%list |} in
    match response with
    | Response status_code _ =>
        if (status_code =? 200)%Z || (status_code =? 201)%Z then (true, w1)
        else if (status_code =? 409)%Z then (true, w1)
        else if (status_code =? 429)%Z then (false, hr_log (HrSleep (Seconds 60)) w1)
        else (false, w1)
    | RequestException => (false, w1)
    | UnexpectedError => (false, w1)
    end.

Definition add_lead (campaign : nat -> http_outcome) (campaign_id : pyval)
    (lead_data : dict) : hr_io bool :=
  fun w =>
    let heyreach_data := _prepare_lead_data campaign_id lead_data in
    let r := _add_lead_to_campaign campaign heyreach_data w in
    if r.1 then (true, r.2) else (false, r.2).

Record batch_results : Type := {
  success : nat;
  failed : nat;
  duplicates : nat
}.

(** The loop of [add_leads_batch], from the counts so far. *)
Fixpoint add_leads_from (campaign : nat -> http_outcome) (campaign_id : pyval)
    (results : batch_results) (leads_data : list dict) : hr_io batch_results :=
  fun w =>
    match leads_data with
    | [] => (results, w)
    | lead :: rest =>
        let r := add_lead campaign campaign_id lead w in
        let results :=
          if r.1
          then {| success := success results + 1; failed := failed results;
                  duplicates := duplicates results |}
          else {| success := success results; failed := failed results + 1;
                  duplicates := duplicates results |} in
        add_leads_from campaign campaign_id results rest
          (hr_log (HrSleep ConfiguredWait) r.2)
    end.

Definition add_leads_batch (campaign : nat -> http_outcome) (campaign_id : pyval)
    (leads_data : list dict) : hr_io batch_results :=
  add_leads_from campaign campaign_id
    {| success := 0; failed := 0; duplicates := 0 |} leads_data.

End HeyReachManager.

(** ** Notions for the statements about the campaign sink *)

(** A reply that [_add_lead_to_campaign] takes for a success: created, or
    already there. *)
Definition accepted (r : http_outcome) : bool :=
  match r with
  | Response status_code _ =>
      (status_code =? 200)%Z || (status_code =? 201)%Z || (status_code =? 409)%Z
  | _ => false
  end.

Fixpoint hr_pace (waited : bool) (evs : list HeyReachManager.hr_event) : option bool :=
  match evs with
  | [] => Some waited
  | HeyReachManager.HrSleep ConfiguredWait :: rest => hr_pace true rest
  | HeyReachManager.HrSleep (Seconds _) :: rest => hr_pace waited rest
  | HeyReachManager.HrPost _ :: rest => if waited then hr_pace false rest else None
  end.

(** The entries of the payload and the fields of the lead they come from. *)
Definition payload_columns : list (string * string) :=
  [ ("first_name", "first_name"); ("last_name", "last_name"); ("email", "email");
    ("company", "company_name"); ("title", "title"); ("website", "company_website");
    ("linkedin_url", "company_linkedin_url"); ("location", "job_location");
    ("industry", "company_industry"); ("employee_count", "employee_count") ].

(** The custom fields of the payload; each is read from the field of the
    lead that has the same name. *)
Definition custom_columns : list string :=
  [ "compliment"; "job_title"; "job_url"; "posted_date"; "scraped_at";
    "email_confidence"; "company_domain"; "company_name_original"; "full_name" ].

Definition campaign_409 (n : nat) : http_outcome :=
  match n with
  | 0 => Response 409 None
  | 1 => Response 429 None
  | _ => Response 201 None
  end.

(** ** The email pattern *)

Module EmailPattern.

(** The pieces the pattern is made of: one given character, or a class of
    characters repeated [at_least] times or more. *)
Inductive item : Type :=
| One (c : ascii)
| Many (cls : ascii -> bool) (at_least : nat).

(** [$]: the end of the text, or the place before a line feed that ends
    the text. *)
Definition at_end (s : string) : bool :=
  String.eqb s "" || String.eqb s (String "010"%char "").

(** A repeated class followed by [k]: after [taken] characters of the
    class, either enough were taken and [k] matches what is left, or one
    more character of the class is taken. *)
Fixpoint many (cls : ascii -> bool) (at_least : nat) (k : string -> bool)
    (taken : nat) (s : string) : bool :=
  ((at_least <=? taken)%nat && k s) ||
  match s with
  | String d r => cls d && many cls at_least k (S taken) r
  | EmptyString => false
  end.

(** Does the sequence of items, then [$], match the whole of [s] from its
    start?  Every way of sharing the text among the items is tried, as
    backtracking does. *)
Fixpoint matches (items : list item) : string -> bool :=
  match items with
  | [] => at_end
  | One c :: rest =>
      fun s =>
        match s with
        | String d r => Ascii.eqb c d && matches rest r
        | EmptyString => false
        end
  | Many cls at_least :: rest => many cls at_least (matches rest) 0
  end.

Definition is_alnum (c : ascii) : bool :=
  PyStr.is_lower c || PyStr.is_upper c || PyStr.is_digit c.

Definition is_letter (c : ascii) : bool := PyStr.is_lower c || PyStr.is_upper c.

(** [[a-zA-Z0-9._%+-]] *)
Definition local_char (c : ascii) : bool :=
  is_alnum c || Ascii.eqb c "." || Ascii.eqb c "_" || Ascii.eqb c "%"
  || Ascii.eqb c "+" || Ascii.eqb c "-".

(** [[a-zA-Z0-9.-]] *)
Definition domain_char (c : ascii) : bool :=
  is_alnum c || Ascii.eqb c "." || Ascii.eqb c "-".

(** [^[a-zA-Z0-9._%+-]+@[a-zA-Z0-9.-]+\.[a-zA-Z]{2,}$] *)
Definition pattern : list item :=
  [ Many local_char 1; One "@"; Many domain_char 1; One "."; Many is_letter 2 ].

(** [validate_email], the same in [DataProcessor], [EmailFinder] and
    [HeyReachManager]; [None] when [re.match] raises on a value that is
    not a text. *)
Definition validate_email (email : pyval) : option bool :=
  if negb (truthy email) then Some false
  else s ← as_str email; Some (matches pattern s).

End EmailPattern.

(** ** linkedin_scraper.py *)

Module LinkedInScraper.

(** One turn of the loop of [_process_job_data]: the dictionary literal,
    then the entries that are not [None]. *)
Definition _process_job (job : dict) : dict :=
  filter (fun kv : string * pyval => kv.2 ≠ PNone)
    (list_to_map
       [ ("job_id", get job "jobId");
         ("job_title", get job "title");
         ("company_name", get job "companyName");
         ("company_linkedin_url", get job "companyLinkedinUrl");
         ("company_website", get job "companyWebsite");
         ("job_poster_name", get job "jobPosterName");
         ("job_poster_title", get job "jobPosterTitle");
         ("job_location", get job "location");
         ("job_url", get job "jobUrl");
         ("posted_date", get job "postedDate");
         ("employee_count", get job "employeeCount");
         ("company_industry", get job "companyIndustry");
         ("company_description", get job "companyDescription");
         ("job_description", get job "description");
         ("requirements", get job "requirements");
         ("benefits", get job "benefits");
         ("salary_range", get job "salaryRange");
         ("job_type", get job "jobType");
         ("experience_level", get job "experienceLevel");
         ("remote_work", get job "remoteWork");
         ("scraped_at", get job "scrapedAt") ] : dict).

Definition _process_job_data (raw_data : list dict) : list dict :=
  List.map _process_job raw_data.

End LinkedInScraper.

(** The keys of a processed posting and the keys of the scraper's item
    they are read from. *)
Definition job_columns : list (string * string) :=
  [ ("job_id", "jobId"); ("job_title", "title"); ("company_name", "companyName");
    ("company_linkedin_url", "companyLinkedinUrl"); ("company_website", "companyWebsite");
    ("job_poster_name", "jobPosterName"); ("job_poster_title", "jobPosterTitle");
    ("job_location", "location"); ("job_url", "jobUrl"); ("posted_date", "postedDate");
    ("employee_count", "employeeCount"); ("company_industry", "companyIndustry");
    ("company_description", "companyDescription"); ("job_description", "description");
    ("requirements", "requirements"); ("benefits", "benefits");
    ("salary_range", "salaryRange"); ("job_type", "jobType");
    ("experience_level", "experienceLevel"); ("remote_work", "remoteWork");
    ("scraped_at", "scrapedAt") ].

(** The threshold test on a scraper's item, before it is processed. *)
Definition raw_passes_threshold (cfg : config) (job : dict) : bool :=
  match DataProcessor.threshold_count (get job "employeeCount") with
  | Some n => (min_employee_count cfg <=? n)%Z
  | None => false
  end.

(** ** Notions for the statements about URLs *)

(** A character of a host name: anything but a slash or a colon. *)
Definition host_char (c : ascii) : bool :=
  negb (Ascii.eqb c "/") && negb (Ascii.eqb c ":").

(** What may follow the host in a URL: nothing, or a path that starts with
    a slash. *)
Definition path_like (tail : string) : bool :=
  match tail with
  | EmptyString => true
  | String c _ => Ascii.eqb c "/"
  end.

(** * Properties *)

Local Open Scope list_scope.

(** ** Normalisation *)

(** A decidable closed proposition settled by evaluating its decision
    procedure. *)
Ltac by_evaluation :=
  lazymatch goal with
  | |- ?P => apply (bool_decide_eq_true_1 P); vm_compute; reflexivity
  end.

Section Normalizer.
Import DataProcessor.

Lemma truthy_PStr (s : string) : s ≠ "" -> truthy (PStr s) = true.
Proof. intros H. simpl. apply negb_true_iff, String.eqb_neq, H. Qed.

Lemma get_or_Some (d : dict) (k : string) (dflt v : pyval) :
  d !! k = Some v -> get_or d k dflt = v.
Proof. unfold get_or. by intros ->. Qed.

Lemma get_Some (d : dict) (k : string) (v : pyval) : d !! k = Some v -> get d k = v.
Proof. apply get_or_Some. Qed.

Lemma remove_duplicates_singleton (job : dict) :
  truthy (get job "company_linkedin_url") = true -> _remove_duplicates [job] = [job].
Proof.
  intros H. unfold _remove_duplicates. simpl. rewrite H. simpl.
  destruct (decide _) as [Hin|_]; [|done]. by apply not_elem_of_empty in Hin.
Qed.

Example name_splitting :
  extract_name_parts (PStr "Jane") = Some {| first_name := "Jane"; last_name := "" |} /\
  extract_name_parts (PStr "Jane Doe") = Some {| first_name := "Jane"; last_name := "Doe" |} /\
  extract_name_parts (PStr "Mary Jane Watson")
    = Some {| first_name := "Mary"; last_name := "Jane Watson" |} /\
  extract_name_parts (PStr "") = Some {| first_name := ""; last_name := "" |}.
Proof. repeat split; reflexivity. Qed.

Example cleaning_examples :
  clean_text "Acme Solutions Inc" = "Acme" /\
  clean_text "Tech Solutions Inc" = "" /\
  clean_text "Acme Corp, Inc." = "Acme , .".
Proof. repeat split; reflexivity. Qed.

(** C1 (as amended).  Any posting that carries the four values of the
    scenario, and a LinkedIn URL so that batch deduplication keeps it,
    goes through [filter_and_clean] under a threshold of at most 250 and
    is formatted into a lead.  The threshold filter reads 250 out of the
    employee count, but the lead keeps the text it was given; the cleaned
    company name is "Acme", since "Solutions" is one of the suffixes; the
    name parts and the domain are as the scenario says. *)
Theorem acme_scenario (cfg : config) (job : dict) (url : string) :
  job !! "employee_count" = Some (PStr "250-500 employees") ->
  job !! "company_name" = Some (PStr "Acme Solutions Inc") ->
  job !! "job_poster_name" = Some (PStr "John Smith") ->
  job !! "company_website" = Some (PStr "https://www.acme.com/careers") ->
  job !! "company_linkedin_url" = Some (PStr url) ->
  url ≠ "" ->
  (min_employee_count cfg <= 250)%Z ->
  exists job' lead : dict,
    filter_and_clean cfg [job] = Some [job'] /\
    format_lead_data job' = Some lead /\
    threshold_count (get job "employee_count") = Some 250%Z /\
    lead !! "employee_count" = Some (PStr "250-500 employees") /\
    lead !! "company_name" = Some (PStr "Acme") /\
    lead !! "company_name_original" = Some (PStr "Acme Solutions Inc") /\
    lead !! "first_name" = Some (PStr "John") /\
    lead !! "last_name" = Some (PStr "Smith") /\
    lead !! "company_domain" = Some (PStr "acme.com").
Proof.
  intros Hcount Hname Hposter Hweb Hurl Hne Hmin.
  set (job' := <["company_name_original" := PStr "Acme Solutions Inc"]>
                 (<["company_name_cleaned" := PStr "Acme"]> job)).
  assert (Hkeep : forall k v dflt,
             k ≠ "company_name_original" -> k ≠ "company_name_cleaned" ->
             job !! k = Some v -> get_or job' k dflt = v).
  { intros k v dflt H1 H2 Hk. apply get_or_Some. unfold job'.
    rewrite !lookup_insert_ne by done. exact Hk. }
  assert (Hclean' : forall dflt, get_or job' "company_name_cleaned" dflt = PStr "Acme").
  { intros dflt. apply get_or_Some. unfold job'.
    rewrite lookup_insert_ne by done. apply lookup_insert_eq. }
  assert (Horig' : forall dflt,
             get_or job' "company_name_original" dflt = PStr "Acme Solutions Inc").
  { intros dflt. apply get_or_Some. unfold job'. apply lookup_insert_eq. }
  assert (Hpass : passes_threshold cfg job = true).
  { unfold passes_threshold. rewrite (get_Some _ _ _ Hcount).
    change (threshold_count _) with (Some 250%Z). apply Z.leb_le, Hmin. }
  assert (Hreq : has_required_fields job' = true).
  { unfold has_required_fields, missing_fields, required_fields, get.
    cbn [List.filter].
    rewrite (Hkeep "company_name" _ _ ltac:(done) ltac:(done) Hname),
      (Hkeep "job_poster_name" _ _ ltac:(done) ltac:(done) Hposter),
      (Hkeep "company_website" _ _ ltac:(done) ltac:(done) Hweb).
    reflexivity. }
  exists job'. eexists. split.
  { unfold filter_and_clean, _filter_by_employee_count.
    cbn [List.filter]. rewrite Hpass.
    rewrite remove_duplicates_singleton
      by (rewrite (get_Some _ _ _ Hurl); by apply truthy_PStr).
    unfold _clean_company_names. cbn [mapM]. unfold clean_job.
    rewrite (get_or_Some _ _ _ _ Hname).
    change (truthy (PStr "Acme Solutions Inc")) with true. cbv iota.
    change (_clean_company_name (PStr "Acme Solutions Inc")) with (Some (PStr "Acme")).
    cbn [mbind option_bind mret option_ret fmap option_fmap option_map].
    fold job'. unfold _validate_required_fields. cbn [List.filter].
    rewrite Hreq. reflexivity. }
  split.
  { unfold format_lead_data.
    rewrite !(Hkeep "job_poster_name" _ _ ltac:(done) ltac:(done) Hposter),
      !(Hkeep "company_website" _ _ ltac:(done) ltac:(done) Hweb).
    change (extract_name_parts (PStr "John Smith"))
      with (Some {| first_name := "John"; last_name := "Smith" |}).
    change (extract_domain_from_url (PStr "https://www.acme.com/careers"))
      with (Some "acme.com").
    cbn [mbind option_bind first_name last_name]. reflexivity. }
  split; [by rewrite (get_Some _ _ _ Hcount)|].
  rewrite (Hkeep "employee_count" _ _ ltac:(done) ltac:(done) Hcount), Hclean', Horig'.
  repeat split; reflexivity.
Qed.

Lemma acme_scenario_witness :
  exists job' lead : dict,
    filter_and_clean cfg_default [acme_posting] = Some [job'] /\
    format_lead_data job' = Some lead /\
    threshold_count (get acme_posting "employee_count") = Some 250%Z /\
    lead !! "employee_count" = Some (PStr "250-500 employees") /\
    lead !! "company_name" = Some (PStr "Acme") /\
    lead !! "company_name_original" = Some (PStr "Acme Solutions Inc") /\
    lead !! "first_name" = Some (PStr "John") /\
    lead !! "last_name" = Some (PStr "Smith") /\
    lead !! "company_domain" = Some (PStr "acme.com").
Proof.
  apply (acme_scenario cfg_default acme_posting "https://www.linkedin.com/company/acme");
    first [by (vm_compute; reflexivity) | discriminate | (simpl; lia)].
Defined.

(** C1 as stated fails on the scenario's posting: the lead that comes out
    has neither the number 250 as its employee count nor "Acme Solutions"
    as its cleaned company name. *)
Lemma acme_scenario_as_stated_fails :
  ~ exists job' lead : dict,
      filter_and_clean cfg_default [acme_posting] = Some [job'] /\
      format_lead_data job' = Some lead /\
      (lead !! "employee_count" = Some (PInt 250) \/
       lead !! "company_name" = Some (PStr "Acme Solutions")).
Proof.
  intros (job' & lead & Hfilter & Hlead & Hfield).
  assert (Hjob : filter_and_clean cfg_default [acme_posting] = Some [acme_cleaned])
    by by_evaluation.
  rewrite Hjob in Hfilter. injection Hfilter as <-.
  assert (Hcount : format_lead_data acme_cleaned ≫= (fun l : dict => l !! "employee_count")
                   = Some (PStr "250-500 employees")) by (vm_compute; reflexivity).
  assert (Hname : format_lead_data acme_cleaned ≫= (fun l : dict => l !! "company_name")
                  = Some (PStr "Acme")) by (vm_compute; reflexivity).
  rewrite Hlead in Hcount, Hname. cbn [mbind option_bind] in Hcount, Hname.
  destruct Hfield as [H|H]; [rewrite Hcount in H | rewrite Hname in H]; discriminate H.
Qed.

(** C9.  The posting of "Tech Solutions Inc" has a non-empty company name
    made of suffix words only; it passes the threshold filter, batch
    deduplication and required-field validation, and the lead formatted
    from it has the empty string as its company name. *)
Theorem suffix_only_company_yields_empty_name :
  exists job' lead : dict,
    get tech_posting "company_name" = PStr "Tech Solutions Inc" /\
    Forall (fun token => token ∈ company_suffixes) (PyStr.split_ws "Tech Solutions Inc") /\
    filter_and_clean cfg_default [tech_posting] = Some [job'] /\
    has_required_fields job' = true /\
    format_lead_data job' = Some lead /\
    lead !! "company_name" = Some (PStr "") /\
    lead !! "company_name_original" = Some (PStr "Tech Solutions Inc").
Proof.
  assert (Hname : format_lead_data tech_cleaned ≫= (fun l : dict => l !! "company_name")
                  = Some (PStr "")) by (vm_compute; reflexivity).
  assert (Horig : format_lead_data tech_cleaned
                    ≫= (fun l : dict => l !! "company_name_original")
                  = Some (PStr "Tech Solutions Inc")) by (vm_compute; reflexivity).
  destruct (format_lead_data tech_cleaned) as [lead|] eqn:Hlead; [|discriminate Hname].
  exists tech_cleaned, lead.
  split; [vm_compute; reflexivity|].
  split; [by_evaluation|].
  split; [by_evaluation|].
  split; [vm_compute; reflexivity|].
  split; [exact Hlead|].
  split; [exact Hname | exact Horig].
Qed.

Example extractors_agree_on_plain_url :
  extract_domain_from_url (PStr "https://www.acme.com/careers") = Some "acme.com" /\
  EmailFinder._extract_domain (PStr "https://www.acme.com/careers") = Some "acme.com".
Proof. split; reflexivity. Qed.

(** C7 at the failing input.  On a URL whose host has [www.] past its
    start the two extractors differ: [extract_domain_from_url] removes
    the leading scheme, the path and a leading [www.] only, while
    [_extract_domain] deletes [www.] wherever it stands. *)
Theorem domain_extractors_disagree :
  extract_domain_from_url (PStr jobs_url) = Some "jobs.www.acme.com" /\
  EmailFinder._extract_domain (PStr jobs_url) = Some "jobs.acme.com".
Proof. split; reflexivity. Qed.

End Normalizer.

(** ** Deduplication against the persisted store *)

Section StoreDedup.
Import GoogleSheetsManager.

Lemma nonempty_true (s : string) : nonempty s = true <-> s ≠ "".
Proof. unfold nonempty. rewrite negb_true_iff. apply String.eqb_neq. Qed.

Lemma nonempty_false (s : string) : nonempty s = false <-> s = "".
Proof. unfold nonempty. rewrite negb_false_iff. apply String.eqb_eq. Qed.

Lemma typed_fields (lead : dict) :
  typed lead = true ->
  exists email company,
    lower_field lead "email" = Some email /\
    lower_field lead "company_name" = Some company.
Proof.
  unfold typed. destruct (lower_field lead "email") as [e|]; [|done].
  destruct (lower_field lead "company_name") as [c|]; [|done]. eauto.
Qed.

Lemma key_of_fields (lead : dict) (email company : string) :
  lower_field lead "email" = Some email ->
  lower_field lead "company_name" = Some company ->
  key_of lead = if nonempty email && nonempty company
                then Some (combination_of email company) else None.
Proof. unfold key_of. by intros -> ->. Qed.

Lemma has_key_true (k : string) (lead : dict) :
  has_key k lead = true <-> key_of lead = Some k.
Proof. unfold has_key. apply bool_decide_eq_true. Qed.

Lemma has_company_true (name : string) (lead : dict) :
  has_company name lead = true <-> lower_field lead "company_name" = Some name.
Proof. unfold has_company. apply bool_decide_eq_true. Qed.

(** The key set built by the first loop holds exactly the keys of the
    stored leads, on top of what it started from. *)
Lemma existing_combinations_spec (existing_leads : list dict) :
  forallb typed existing_leads = true ->
  forall acc : gset string,
  exists keys : gset string,
    existing_combinations_from acc existing_leads = Some keys /\
    forall k, k ∈ keys <-> k ∈ acc \/ existsb (has_key k) existing_leads = true.
Proof.
  induction existing_leads as [|lead rest IH]; intros Htyped acc.
  - exists acc. split; [done|]. intros k. simpl. split; [auto|]. by intros [?|?].
  - simpl in Htyped. apply andb_true_iff in Htyped as [Hlead Hrest].
    destruct (typed_fields _ Hlead) as (email & company & Hemail & Hcompany).
    pose proof (key_of_fields _ _ _ Hemail Hcompany) as Hkey.
    cbn [existing_combinations_from]. rewrite Hemail, Hcompany.
    cbn [mbind option_bind].
    destruct (nonempty email && nonempty company).
    + destruct (IH Hrest ({[combination_of email company]} ∪ acc)) as (keys & -> & Hkeys).
      exists keys. split; [done|]. intros k. rewrite Hkeys.
      cbn [existsb]. rewrite orb_true_iff, has_key_true, Hkey.
      rewrite elem_of_union, elem_of_singleton.
      split; [intros [[->|?]|?]; auto | intros [?|[[= <-]|?]]; auto].
    + destruct (IH Hrest acc) as (keys & -> & Hkeys).
      exists keys. split; [done|]. intros k. rewrite Hkeys.
      cbn [existsb]. rewrite orb_true_iff, has_key_true, Hkey.
      split; [intros [?|?]; auto | intros [?|[[=]|?]]; auto].
Qed.

Lemma existing_company_names_spec (existing_leads : list dict) :
  forallb typed existing_leads = true ->
  exists names : list string,
    existing_company_names existing_leads = Some names /\
    forall n, n ∈ names <-> existsb (has_company n) existing_leads = true.
Proof.
  unfold existing_company_names.
  induction existing_leads as [|lead rest IH]; intros Htyped.
  - exists []. split; [done|]. intros n. simpl. split; [by intros ?%elem_of_nil|done].
  - simpl in Htyped. apply andb_true_iff in Htyped as [Hlead Hrest].
    destruct (typed_fields _ Hlead) as (email & company & Hemail & Hcompany).
    destruct (IH Hrest) as (names & Hnames & Hspec).
    exists (company :: names). split.
    + cbn [mapM]. rewrite Hcompany, Hnames. reflexivity.
    + intros n. rewrite elem_of_cons, Hspec. cbn [existsb].
      rewrite orb_true_iff, has_company_true, Hcompany.
      split; [intros [->|?]; auto | intros [[= ->]|?]; auto].
Qed.

(** The second loop, for any key set it starts from: of the leads that
    carry a given composite key, none is kept when the key is in the set,
    and the first one alone is kept otherwise. *)
Lemma unique_leads_from_spec (existing_leads new_leads : list dict) :
  forallb typed existing_leads = true ->
  forallb typed new_leads = true ->
  forall combinations : gset string,
  exists unique_leads : list dict,
    unique_leads_from existing_leads combinations new_leads = Some unique_leads /\
    forall k,
      List.filter (has_key k) unique_leads =
      if decide (k ∈ combinations) then []
      else take 1 (List.filter (has_key k) new_leads).
Proof.
  intros Hexisting.
  destruct (existing_company_names_spec _ Hexisting) as (names & Hnames & _).
  induction new_leads as [|lead rest IH]; intros Htyped combinations.
  - exists []. split; [done|]. intros k. simpl. by destruct (decide _).
  - simpl in Htyped. apply andb_true_iff in Htyped as [Hlead Hrest].
    destruct (typed_fields _ Hlead) as (email & company & Hemail & Hcompany).
    pose proof (key_of_fields _ _ _ Hemail Hcompany) as Hkey.
    cbn [unique_leads_from]. rewrite Hemail, Hcompany. cbn [mbind option_bind].
    destruct (nonempty email && nonempty company).
    + set (c := combination_of email company) in *.
      assert (Hc : forall k, has_key k lead = bool_decide (c = k)).
      { intros k. unfold has_key. rewrite Hkey. apply bool_decide_ext.
        split; [by intros [= ->] | by intros ->]. }
      destruct (decide (c ∈ combinations)) as [Hin|Hout].
      * destruct (IH Hrest combinations) as (out & -> & Hout). exists out.
        split; [done|]. intros k. rewrite Hout. cbn [List.filter]. rewrite Hc.
        destruct (decide (k ∈ combinations)) as [|Hk]; [done|].
        rewrite bool_decide_eq_false_2; [done|]. by intros <-.
      * destruct (IH Hrest ({[c]} ∪ combinations)) as (out & -> & Hspec).
        exists (lead :: out). split; [done|]. intros k.
        cbn [List.filter]. rewrite Hc, Hspec.
        destruct (decide (c = k)) as [<-|Hne].
        -- rewrite bool_decide_eq_true_2 by done.
           rewrite decide_True by set_solver. rewrite decide_False by done. done.
        -- rewrite bool_decide_eq_false_2 by done.
           destruct (decide (k ∈ combinations)) as [Hk|Hk].
           ++ rewrite decide_True by set_solver. done.
           ++ rewrite decide_False; [done|].
              rewrite elem_of_union, elem_of_singleton. by intros [->|?].
    + assert (Hc : forall k, has_key k lead = false).
      { intros k. unfold has_key. rewrite Hkey. by apply bool_decide_eq_false_2. }
      destruct (IH Hrest combinations) as (out & Hrun & Hspec).
      destruct (nonempty company).
      * rewrite Hnames. cbn [mbind option_bind]. rewrite Hrun.
        destruct (decide (company ∈ names)).
        -- exists out. split; [done|]. intros k. rewrite Hspec.
           cbn [List.filter]. by rewrite Hc.
        -- exists (lead :: out). split; [done|]. intros k.
           cbn [List.filter]. by rewrite Hc, Hspec.
      * rewrite Hrun. exists out. split; [done|]. intros k. rewrite Hspec.
        cbn [List.filter]. by rewrite Hc.
Qed.

Lemma check_duplicate_leads_nonempty (existing_leads new_leads : list dict) :
  existing_leads ≠ [] ->
  forallb typed existing_leads = true ->
  forallb typed new_leads = true ->
  exists keys : gset string,
    (forall k, k ∈ keys <-> existsb (has_key k) existing_leads = true) /\
    unique_leads_from existing_leads keys new_leads
      = Some (check_duplicate_leads existing_leads new_leads).
Proof.
  intros Hne Hexisting Hnew.
  destruct (existing_combinations_spec _ Hexisting ∅) as (keys & Hkeys & Hspec).
  destruct (unique_leads_from_spec _ _ Hexisting Hnew keys) as (out & Hrun & _).
  exists keys. split.
  - intros k. rewrite Hspec. split; [intros [Hk|Hk]; [by apply not_elem_of_empty in Hk|done] | auto].
  - unfold check_duplicate_leads, check_duplicate_leads_try.
    destruct existing_leads as [|l0 rest]; [done|].
    rewrite Hkeys. cbn [mbind option_bind]. by rewrite Hrun.
Qed.

Lemma unique_leads_from_sublist (existing_leads new_leads unique_leads : list dict)
    (combinations : gset string) :
  unique_leads_from existing_leads combinations new_leads = Some unique_leads ->
  sublist unique_leads new_leads.
Proof.
  revert combinations unique_leads.
  induction new_leads as [|lead rest IH]; intros combinations out.
  { intros [= <-]. constructor. }
  cbn [unique_leads_from].
  destruct (lower_field lead "email") as [email|]; [|done].
  destruct (lower_field lead "company_name") as [company|]; [|done].
  cbn [mbind option_bind].
  assert (Hkeep : forall c, cons lead <$> unique_leads_from existing_leads c rest = Some out ->
                            sublist out (lead :: rest)).
  { intros c H. destruct (unique_leads_from existing_leads c rest) as [out'|] eqn:Hrest;
      [|done]. injection H as <-. apply sublist_skip. by eapply IH. }
  assert (Hdrop : forall c, unique_leads_from existing_leads c rest = Some out ->
                            sublist out (lead :: rest)).
  { intros c H. apply sublist_cons. by eapply IH. }
  destruct (nonempty email && nonempty company).
  - destruct (decide _); [apply Hdrop|apply Hkeep].
  - destruct (nonempty company); [|apply Hdrop].
    destruct (existing_company_names existing_leads) as [names|]; [|done].
    cbn [mbind option_bind]. destruct (decide _); [apply Hdrop|apply Hkeep].
Qed.

(** The second loop over a batch in two parts: the second part is read
    with the key set as the first part left it, which holds the keys it
    started from and the keys of the leads of the first part. *)
Lemma unique_leads_from_app (existing_leads before rest : list dict) :
  forallb typed existing_leads = true ->
  forallb typed before = true ->
  forall combinations : gset string,
  exists (kept : list dict) (combinations' : gset string),
    unique_leads_from existing_leads combinations before = Some kept /\
    (forall k, k ∈ combinations' <->
               k ∈ combinations \/ existsb (has_key k) before = true) /\
    unique_leads_from existing_leads combinations (before ++ rest)
    = (app kept <$> unique_leads_from existing_leads combinations' rest).
Proof.
  intros Hexisting.
  destruct (existing_company_names_spec _ Hexisting) as (names & Hnames & _).
  induction before as [|lead before IH]; intros Htyped combinations.
  - exists [], combinations. split; [done|]. split.
    + intros k. cbn [existsb]. split; [auto|]. by intros [?|?].
    + cbn [app]. by destruct (unique_leads_from _ _ rest).
  - cbn [forallb] in Htyped. apply andb_true_iff in Htyped as [Hlead Hrest].
    destruct (typed_fields _ Hlead) as (email & company & Hemail & Hcompany).
    pose proof (key_of_fields _ _ _ Hemail Hcompany) as Hkey.
    rewrite <- app_comm_cons. cbn [unique_leads_from].
    rewrite Hemail, Hcompany. cbn [mbind option_bind].
    destruct (nonempty email && nonempty company).
    + set (c := combination_of email company) in *.
      assert (Hc : forall k, has_key k lead = true <-> k = c).
      { intros k. rewrite has_key_true, Hkey. split; [by intros [= ->]|by intros ->]. }
      destruct (decide (c ∈ combinations)) as [Hin|Hout].
      * destruct (IH Hrest combinations) as (kept & combinations' & -> & Hkeys & ->).
        exists kept, combinations'. split; [done|]. split; [|done].
        intros k. rewrite Hkeys. cbn [existsb]. rewrite orb_true_iff, Hc.
        split; [intros [?|?]; auto | intros [?|[->|?]]; auto].
      * destruct (IH Hrest ({[c]} ∪ combinations))
          as (kept & combinations' & -> & Hkeys & ->).
        exists (lead :: kept), combinations'. split; [done|]. split.
        -- intros k. rewrite Hkeys. cbn [existsb].
           rewrite orb_true_iff, Hc, elem_of_union, elem_of_singleton.
           split; [intros [[?|?]|?]; auto | intros [?|[?|?]]; auto].
        -- by destruct (unique_leads_from _ _ rest).
    + assert (Hc : forall k, has_key k lead = false).
      { intros k. unfold has_key. rewrite Hkey. by apply bool_decide_eq_false_2. }
      destruct (IH Hrest combinations) as (kept & combinations' & Hrun & Hkeys & Happ).
      assert (Hkeys' : forall k, k ∈ combinations' <->
                 k ∈ combinations \/ existsb (has_key k) (lead :: before) = true).
      { intros k. rewrite Hkeys. cbn [existsb]. by rewrite Hc. }
      destruct (nonempty company).
      * rewrite Hnames. cbn [mbind option_bind]. rewrite Hrun, Happ.
        destruct (decide (company ∈ names)).
        -- by exists kept, combinations'.
        -- exists (lead :: kept), combinations'. split; [done|]. split; [done|].
           by destruct (unique_leads_from _ _ rest).
      * rewrite Hrun, Happ. by exists kept, combinations'.
Qed.

(** C2 (as amended).  Take a store and a batch whose emails and company
    names are texts, and in the batch a lead with a non-empty company
    name.  Against an empty store the batch comes back as it is.  Against
    a store that is not empty, the pass either drops the lead or keeps it
    in its place, after what it keeps of the leads before it, and it drops
    it exactly when the lead has an email and its composite key is the key
    of a stored lead or of a lead before it in the batch, or the lead has
    no email and its company name is the company name of a stored lead. *)
Theorem store_dedup_suppresses_iff (existing_leads before after : list dict)
    (lead : dict) (email company : string) :
  forallb typed existing_leads = true ->
  forallb typed (before ++ lead :: after) = true ->
  lower_field lead "email" = Some email ->
  lower_field lead "company_name" = Some company ->
  company ≠ "" ->
  (existing_leads = [] ->
   check_duplicate_leads existing_leads (before ++ lead :: after)
   = before ++ lead :: after) /\
  (existing_leads ≠ [] ->
   exists kept later : list dict,
     check_duplicate_leads existing_leads (before ++ lead :: after)
     = check_duplicate_leads existing_leads before ++ kept ++ later /\
     sublist later after /\
     (kept = [] \/ kept = [lead]) /\
     (kept = [] <->
      (email ≠ "" /\
       (existsb (has_key (combination_of email company)) existing_leads = true \/
        existsb (has_key (combination_of email company)) before = true)) \/
      (email = "" /\ existsb (has_company company) existing_leads = true))).
Proof.
  intros Hexisting Hbatch Hemail Hcompany Hne. split; [by intros ->|]. intros Hstore.
  rewrite forallb_app in Hbatch. apply andb_true_iff in Hbatch as [Hbefore Hrest].
  destruct (check_duplicate_leads_nonempty _ _ Hstore Hexisting Hbefore)
    as (keys & Hkeys & Hrun_before).
  assert (Hall : forallb typed (before ++ lead :: after) = true)
    by (by rewrite forallb_app, Hbefore, Hrest).
  destruct (check_duplicate_leads_nonempty _ _ Hstore Hexisting Hall)
    as (keys' & Hkeys' & Hrun).
  assert (keys' = keys) as ->.
  { apply set_eq. intros k. by rewrite Hkeys, Hkeys'. }
  destruct (unique_leads_from_app existing_leads before (lead :: after)
              Hexisting Hbefore keys) as (out & seen & Hout & Hseen & Happ).
  rewrite Hrun_before in Hout. injection Hout as <-.
  rewrite Happ in Hrun. clear Happ Hrun_before Hkeys'.
  destruct (existing_company_names_spec _ Hexisting) as (names & Hnames & Hnspec).
  revert Hrun. cbn [unique_leads_from]. rewrite Hemail, Hcompany.
  cbn [mbind option_bind]. apply nonempty_true in Hne as Hc. rewrite Hc, andb_true_r.
  assert (Hin_seen : combination_of email company ∈ seen <->
            existsb (has_key (combination_of email company)) existing_leads = true \/
            existsb (has_key (combination_of email company)) before = true).
  { by rewrite Hseen, Hkeys. }
  destruct (nonempty email) eqn:He.
  - apply nonempty_true in He.
    destruct (decide (combination_of email company ∈ seen)) as [Hin|Hout].
    + destruct (unique_leads_from existing_leads seen after) as [later|] eqn:Hlater;
        [|done].
      intros [= Hrun]. exists [], later. split; [by rewrite <- Hrun|].
      split; [by eapply unique_leads_from_sublist|]. split; [by left|].
      split; [|done]. intros _. left. split; [done|]. by apply Hin_seen.
    + destruct (unique_leads_from existing_leads _ after) as [later|] eqn:Hlater;
        [|done].
      intros [= Hrun]. exists [lead], later. split; [by rewrite <- Hrun|].
      split; [by eapply unique_leads_from_sublist|]. split; [by right|].
      split; [done|]. intros [[_ Hk]|[Hk _]]; [by apply Hin_seen in Hk|done].
  - apply nonempty_false in He. rewrite Hnames. cbn [mbind option_bind].
    destruct (decide (company ∈ names)) as [Hin|Hout].
    + destruct (unique_leads_from existing_leads seen after) as [later|] eqn:Hlater;
        [|done].
      intros [= Hrun]. exists [], later. split; [by rewrite <- Hrun|].
      split; [by eapply unique_leads_from_sublist|]. split; [by left|].
      split; [|done]. intros _. right. split; [done|]. by apply Hnspec.
    + destruct (unique_leads_from existing_leads seen after) as [later|] eqn:Hlater;
        [|done].
      intros [= Hrun]. exists [lead], later. split; [by rewrite <- Hrun|].
      split; [by eapply unique_leads_from_sublist|]. split; [by right|].
      split; [done|]. intros [[Hk _]|[_ Hk]]; [done|by apply Hnspec in Hk].
Qed.

Lemma store_dedup_suppresses_iff_witness :
  (acme_store = [] ->
   check_duplicate_leads acme_store
     ([lead_of "b@x.com" "Acme"] ++ lead_of "B@X.COM" "ACME" :: [lead_of "" "Acme"])
   = [lead_of "b@x.com" "Acme"] ++ lead_of "B@X.COM" "ACME" :: [lead_of "" "Acme"]) /\
  (acme_store ≠ [] ->
   exists kept later : list dict,
     check_duplicate_leads acme_store
       ([lead_of "b@x.com" "Acme"] ++ lead_of "B@X.COM" "ACME" :: [lead_of "" "Acme"])
     = check_duplicate_leads acme_store [lead_of "b@x.com" "Acme"] ++ kept ++ later /\
     sublist later [lead_of "" "Acme"] /\
     (kept = [] \/ kept = [lead_of "B@X.COM" "ACME"]) /\
     (kept = [] <->
      ("b@x.com" ≠ "" /\
       (existsb (has_key (combination_of "b@x.com" "acme")) acme_store = true \/
        existsb (has_key (combination_of "b@x.com" "acme")) [lead_of "b@x.com" "Acme"]
        = true)) \/
      ("b@x.com" = "" /\ existsb (has_company "acme") acme_store = true))).
Proof.
  apply (store_dedup_suppresses_iff acme_store [lead_of "b@x.com" "Acme"]
           [lead_of "" "Acme"] (lead_of "B@X.COM" "ACME") "b@x.com" "acme");
    first [by (vm_compute; reflexivity) | discriminate].
Defined.

(** The three cases of the specification's example. *)
Example store_dedup_examples :
  check_duplicate_leads acme_store [lead_of "a@x.com" "Acme"] = [] /\
  check_duplicate_leads acme_store [lead_of "b@x.com" "Acme"] = [lead_of "b@x.com" "Acme"] /\
  check_duplicate_leads acme_store [lead_of "" "Acme"] = [].
Proof. repeat split; by_evaluation. Qed.

(** A lead is dropped as well when a lead before it in the batch has its
    key, whatever the case of the letters. *)
Example store_dedup_within_batch :
  check_duplicate_leads acme_store
    [lead_of "b@x.com" "Acme"; lead_of "B@X.COM" "ACME"; lead_of "" "Acme"]
  = [lead_of "b@x.com" "Acme"].
Proof. by_evaluation. Qed.

(** C2 as stated fails: the lead (b@y.com, no company name) is dropped,
    although it has an email and its composite key is not a stored one. *)
Lemma store_dedup_not_iff :
  ~ (check_duplicate_leads acme_store [lead_of "b@y.com" ""] = [] <->
     existsb (has_key (combination_of "b@y.com" "")) acme_store = true \/
     ("b@y.com" = "" /\ existsb (has_company "") acme_store = true)).
Proof.
  intros [Hdrop _].
  assert (Hout : check_duplicate_leads acme_store [lead_of "b@y.com" ""] = [])
    by by_evaluation.
  assert (Hkey : existsb (has_key (combination_of "b@y.com" "")) acme_store = false)
    by (vm_compute; reflexivity).
  destruct (Hdrop Hout) as [H|[H _]]; [|discriminate H].
  rewrite Hkey in H. discriminate H.
Qed.

(** C3 (as amended).  When the store is empty the pass returns the batch
    as it is.  When it is not, then for every composite key: of the
    leads of the batch that carry the key, none survives if a stored lead
    has the key, and otherwise the first one survives and no other. *)
Theorem store_dedup_first_seen_wins (existing_leads new_leads : list dict) (k : string) :
  forallb typed existing_leads = true ->
  forallb typed new_leads = true ->
  (existing_leads = [] ->
   check_duplicate_leads existing_leads new_leads = new_leads) /\
  (existing_leads ≠ [] ->
   List.filter (has_key k) (check_duplicate_leads existing_leads new_leads) =
   if existsb (has_key k) existing_leads then []
   else take 1 (List.filter (has_key k) new_leads)).
Proof.
  intros Hexisting Hnew. split; [by intros ->|]. intros Hne.
  destruct (check_duplicate_leads_nonempty _ _ Hne Hexisting Hnew)
    as (keys & Hkeys & Hrun).
  destruct (unique_leads_from_spec _ _ Hexisting Hnew keys) as (out & Hout & Hspec).
  rewrite Hrun in Hout. injection Hout as <-. rewrite Hspec.
  destruct (decide (k ∈ keys)) as [Hin|Hout].
  - apply Hkeys in Hin. by rewrite Hin.
  - destruct (existsb (has_key k) existing_leads) eqn:Hk; [|done].
    by apply Hkeys in Hk.
Qed.

Lemma store_dedup_first_seen_wins_witness :
  (other_store = [] ->
   check_duplicate_leads other_store [lead_of "a@x.com" "Acme"; lead_of "A@X.COM" "ACME"]
   = [lead_of "a@x.com" "Acme"; lead_of "A@X.COM" "ACME"]) /\
  (other_store ≠ [] ->
   List.filter (has_key "a@x.com_acme")
     (check_duplicate_leads other_store
        [lead_of "a@x.com" "Acme"; lead_of "A@X.COM" "ACME"]) =
   if existsb (has_key "a@x.com_acme") other_store then []
   else take 1 (List.filter (has_key "a@x.com_acme")
                  [lead_of "a@x.com" "Acme"; lead_of "A@X.COM" "ACME"])).
Proof.
  apply (store_dedup_first_seen_wins other_store
           [lead_of "a@x.com" "Acme"; lead_of "A@X.COM" "ACME"] "a@x.com_acme");
    vm_compute; reflexivity.
Defined.

Example first_seen_wins_run :
  check_duplicate_leads other_store [lead_of "a@x.com" "Acme"; lead_of "A@X.COM" "ACME"]
  = [lead_of "a@x.com" "Acme"].
Proof. by_evaluation. Qed.

(** C3 as stated fails: with an empty store two leads with one and the
    same composite key both survive the pass. *)
Lemma empty_store_keeps_batch_duplicates :
  key_of (lead_of "a@x.com" "Acme") = Some "a@x.com_acme" /\
  check_duplicate_leads [] [lead_of "a@x.com" "Acme"; lead_of "a@x.com" "Acme"]
  = [lead_of "a@x.com" "Acme"; lead_of "a@x.com" "Acme"].
Proof. split; [vm_compute; reflexivity | reflexivity]. Qed.

(** The branch for leads without an email records nothing: two such
    leads of one company both survive, whatever the store holds. *)
Example company_only_duplicates_survive :
  check_duplicate_leads other_store [lead_of "" "Acme"; lead_of "" "Acme"]
  = [lead_of "" "Acme"; lead_of "" "Acme"] /\
  check_duplicate_leads other_store [lead_of "a@x.com" "Acme"; lead_of "" "Acme"]
  = [lead_of "a@x.com" "Acme"; lead_of "" "Acme"].
Proof. split; by_evaluation. Qed.

(** C10.  Against a store holding (a@x.com, Acme), a new lead with the
    email b@y.com and an empty company name matches no stored key, and
    no stored company name, yet the pass returns nothing. *)
Theorem store_dedup_drops_lead_without_company :
  exists (existing_leads : list dict) (lead : dict) (keys : gset string)
         (names : list string),
    lower_field lead "email" = Some "b@y.com" /\
    lower_field lead "company_name" = Some "" /\
    existing_combinations_from ∅ existing_leads = Some keys /\
    (combination_of "b@y.com" "" ∉ keys) /\
    existing_company_names existing_leads = Some names /\
    ("" ∉ names) /\
    check_duplicate_leads existing_leads [lead] = [].
Proof.
  exists acme_store, (lead_of "b@y.com" ""),
    {[ "a@x.com_acme" ]}, [ "acme" ].
  split; [vm_compute; reflexivity|]. split; [vm_compute; reflexivity|].
  split; [by_evaluation|].
  split; [rewrite elem_of_singleton; discriminate|].
  split; [vm_compute; reflexivity|].
  split; [rewrite list_elem_of_singleton; discriminate|].
  by_evaluation.
Qed.

End StoreDedup.

(** ** The email stage *)

Section EmailStage.
Import EmailFinder.

Variable env : outside.

Lemma call_fails (first_name last_name : string) (company_website : pyval)
    (w : world) (kind : failure_kind) :
  reply_kind (prospeo env (http_calls w)) = Some kind ->
  (_call_prospeo_api env first_name last_name company_website w).1 = None.
Proof.
  unfold _call_prospeo_api, reply_kind.
  destruct (_extract_domain company_website) as [domain|]; [|done].
  unfold io_bind, post. cbn [fst snd].
  destruct (prospeo env (http_calls w)) as [status_code [data|]| |]; try done.
  - destruct (status_code =? 200)%Z.
    + by destruct (truthy (get data "email") && _).
    + by destruct (status_code =? 429)%Z.
  - destruct (status_code =? 200)%Z; [done|].
    by destruct (status_code =? 429)%Z.
Qed.

Lemma find_email_fails (lead : dict) (w : world) (kind : failure_kind) :
  reply_kind (prospeo env (http_calls w)) = Some kind ->
  (find_email env lead w).1 = None.
Proof.
  intros Hreply. unfold find_email.
  destruct (negb (truthy (get_or lead "job_poster_name" (PStr "")))); [done|].
  destruct (as_str (get_or lead "job_poster_name" (PStr ""))) as [full_name|]; [|done].
  destruct (PyStr.split_ws full_name) as [|first_name [|second rest]]; [done..|].
  destruct (negb (truthy (get_or lead "company_website" (PStr "")))); [done|].
  unfold io_bind. cbn zeta.
  by rewrite (call_fails first_name (PyStr.join " " (second :: rest))
                (get_or lead "company_website" (PStr "")) w kind Hreply).
Qed.

Lemma find_emails_batch_app (leads1 leads2 : list dict) (w : world) :
  find_emails_batch env (leads1 ++ leads2) w =
  let r1 := find_emails_batch env leads1 w in
  let r2 := find_emails_batch env leads2 r1.2 in
  (r1.1 ++ r2.1, r2.2).
Proof.
  revert w. induction leads1 as [|lead rest IH]; intros w.
  - cbn. by destruct (find_emails_batch env leads2 w).
  - cbn [app find_emails_batch]. unfold io_bind, io_ret. cbn zeta.
    rewrite IH. reflexivity.
Qed.

Lemma find_emails_batch_length (leads : list dict) (w : world) :
  List.length (find_emails_batch env leads w).1 = List.length leads.
Proof.
  revert w. induction leads as [|lead rest IH]; intros w; [done|].
  cbn [find_emails_batch]. unfold io_bind, io_ret. cbn. by rewrite IH.
Qed.

(** C8 (as amended).  Take a batch and a lead anywhere in it.  If the
    reply that the email collaborator holds ready at that lead's turn is a
    failure of any kind (no valid email, rate limiting, a fault), then the
    lead is still in the results, at its place, with an empty email, an
    empty confidence and the status [not_found], and with all its other
    fields as they were. *)
Theorem failed_lookup_marked_not_found (before after : list dict) (lead : dict)
    (w : world) (kind : failure_kind) :
  reply_kind (prospeo env (http_calls (find_emails_batch env before w).2)) = Some kind ->
  List.length (find_emails_batch env (before ++ lead :: after) w).1
    = List.length (before ++ lead :: after) /\
  exists out : dict,
    (find_emails_batch env (before ++ lead :: after) w).1 !! List.length before = Some out /\
    out !! "email" = Some (PStr "") /\
    out !! "email_confidence" = Some (PStr "") /\
    out !! "email_status" = Some (PStr "not_found") /\
    forall k, k ≠ "email" -> k ≠ "email_confidence" -> k ≠ "email_status" ->
              out !! k = lead !! k.
Proof.
  intros Hreply. split; [apply find_emails_batch_length|].
  exists (without_email lead). split.
  - rewrite find_emails_batch_app. cbn zeta. cbn [fst].
    pose proof (find_emails_batch_length before w) as Hlen.
    destruct (find_emails_batch env before w) as [outs w1]. cbn [fst snd] in *.
    rewrite lookup_app_r by lia. rewrite Hlen, Nat.sub_diag.
    cbn [find_emails_batch]. unfold find_emails_step, io_bind, sleep, io_ret.
    cbn zeta. by rewrite (find_email_fails lead w1 kind Hreply).
  - unfold without_email. repeat split.
    + rewrite !lookup_insert_ne by done. apply lookup_insert_eq.
    + rewrite lookup_insert_ne by done. apply lookup_insert_eq.
    + apply lookup_insert_eq.
    + intros k H1 H2 H3. by rewrite !lookup_insert_ne.
Qed.

Lemma pace_app (waited : bool) (evs1 evs2 : list event) :
  pace waited (evs1 ++ evs2) = pace waited evs1 ≫= (fun b => pace b evs2).
Proof.
  revert waited. induction evs1 as [|e rest IH]; intros waited; [done|].
  destruct e as [| |[|n]]; cbn [app pace]; try destruct waited; by rewrite ?IH.
Qed.

Lemma call_trace (first_name last_name : string) (company_website : pyval) (w : world) :
  exists evs,
    trace (_call_prospeo_api env first_name last_name company_website w).2
      = trace w ++ evs /\
    pace true (evs ++ [EvSleep ConfiguredWait]) = Some true.
Proof.
  unfold _call_prospeo_api.
  destruct (_extract_domain company_website) as [domain|];
    [|exists []; by rewrite app_nil_r].
  unfold io_bind, post. cbn zeta. cbn [fst snd].
  destruct (prospeo env (http_calls w)) as [status_code data| |];
    try (by exists [EvPost first_name last_name domain]).
  destruct (status_code =? 200)%Z.
  - destruct data as [data|]; [destruct (truthy (get data "email") && _)|];
      by exists [EvPost first_name last_name domain].
  - destruct (status_code =? 429)%Z; [|by exists [EvPost first_name last_name domain]].
    exists [EvPost first_name last_name domain; EvSleep (Seconds 60)].
    split; [|done]. cbn. by rewrite <- app_assoc.
Qed.

Lemma find_email_trace (lead : dict) (w : world) :
  exists evs,
    trace (find_email env lead w).2 = trace w ++ evs /\
    pace true (evs ++ [EvSleep ConfiguredWait]) = Some true.
Proof.
  assert (Hquiet : exists evs,
             trace w = trace w ++ evs /\
             pace true (evs ++ [EvSleep ConfiguredWait]) = Some true)
    by (exists []; by rewrite app_nil_r).
  unfold find_email.
  destruct (negb (truthy (get_or lead "job_poster_name" (PStr "")))); [exact Hquiet|].
  destruct (as_str (get_or lead "job_poster_name" (PStr ""))) as [full_name|];
    [|exact Hquiet].
  destruct (PyStr.split_ws full_name) as [|first_name [|second rest]];
    [exact Hquiet..|].
  destruct (negb (truthy (get_or lead "company_website" (PStr "")))); [exact Hquiet|].
  destruct (call_trace first_name (PyStr.join " " (second :: rest))
              (get_or lead "company_website" (PStr "")) w) as (evs & Htrace & Hpace).
  exists evs. split; [|exact Hpace]. unfold io_bind. cbn zeta.
  destruct (_call_prospeo_api env first_name _ _ w) as [[d|] w1]; cbn [fst snd] in *;
    [destruct (truthy (get d "email"))|]; exact Htrace.
Qed.

Lemma find_emails_step_trace (lead : dict) (w : world) :
  exists evs,
    trace (find_emails_step env lead w).2 = trace w ++ evs /\
    pace true evs = Some true.
Proof.
  destruct (find_email_trace lead w) as (evs & Htrace & Hpace).
  exists (evs ++ [EvSleep ConfiguredWait]). split; [|exact Hpace].
  unfold find_emails_step, io_bind, sleep, io_ret, log. cbn.
  by rewrite Htrace, <- app_assoc.
Qed.

(** X13.  The email stage keeps the pace: in the events of a batch run no
    call to the collaborator follows another one unless the configured
    wait came in between, and the run ends with that wait. *)
Lemma email_batch_is_paced (leads : list dict) (w : world) :
  exists evs,
    trace (find_emails_batch env leads w).2 = trace w ++ evs /\
    pace true evs = Some true.
Proof.
  revert w. induction leads as [|lead rest IH]; intros w.
  - exists []. by rewrite app_nil_r.
  - cbn [find_emails_batch]. unfold io_bind, io_ret. cbn zeta. cbn [fst snd].
    destruct (find_emails_step_trace lead w) as (evs1 & Htrace1 & Hpace1).
    destruct (IH (find_emails_step env lead w).2) as (evs2 & Htrace2 & Hpace2).
    exists (evs1 ++ evs2). split.
    + by rewrite Htrace2, Htrace1, <- app_assoc.
    + rewrite pace_app, Hpace1. exact Hpace2.
Qed.

End EmailStage.

Lemma failed_lookup_marked_not_found_witness :
  List.length (EmailFinder.find_emails_batch (env_status 429)
                 ([jane_lead] ++ john_lead :: []) world0).1
    = List.length ([jane_lead] ++ john_lead :: []) /\
  exists out : dict,
    (EmailFinder.find_emails_batch (env_status 429)
       ([jane_lead] ++ john_lead :: []) world0).1 !! List.length [jane_lead] = Some out /\
    out !! "email" = Some (PStr "") /\
    out !! "email_confidence" = Some (PStr "") /\
    out !! "email_status" = Some (PStr "not_found") /\
    forall k, k ≠ "email" -> k ≠ "email_confidence" -> k ≠ "email_status" ->
              out !! k = john_lead !! k.
Proof.
  apply (failed_lookup_marked_not_found (env_status 429) [jane_lead] [] john_lead
           world0 RateLimited).
  vm_compute. reflexivity.
Defined.

(** C8 as stated fails: the collaborator answers 429, a rate limit, and the
    lead gets the status [not_found], not [rate_limited]; likewise a 500
    gives [not_found], not [error]. *)
Lemma rate_limited_lookup_marked_not_found :
  reply_kind (prospeo (env_status 429) 0) = Some RateLimited /\
  reply_kind (prospeo (env_status 500) 0) = Some Fault /\
  (EmailFinder.find_emails_batch (env_status 429) [john_lead] world0).1
    = [EmailFinder.without_email john_lead] /\
  (EmailFinder.find_emails_batch (env_status 500) [john_lead] world0).1
    = [EmailFinder.without_email john_lead] /\
  EmailFinder.without_email john_lead !! "email_status" = Some (PStr "not_found") /\
  EmailFinder.without_email john_lead !! "email_status"
    ≠ Some (PStr (status_of_kind RateLimited)) /\
  EmailFinder.without_email john_lead !! "email_status"
    ≠ Some (PStr (status_of_kind Fault)).
Proof.
  assert (Hstatus : EmailFinder.without_email john_lead !! "email_status"
                    = Some (PStr "not_found")) by apply lookup_insert_eq.
  split; [reflexivity|]. split; [reflexivity|].
  split; [by_evaluation|]. split; [by_evaluation|].
  split; [exact Hstatus|]. rewrite Hstatus. split; discriminate.
Qed.

Example email_batch_trace :
  trace (EmailFinder.find_emails_batch (env_status 429) [john_lead; jane_lead] world0).2
  = [ EvPost "John" "Smith" "acme.com"; EvSleep (Seconds 60); EvSleep ConfiguredWait;
      EvPost "Jane" "Doe" "globex.com"; EvSleep (Seconds 60); EvSleep ConfiguredWait ].
Proof. vm_compute. reflexivity. Qed.

(** ** The compliment stage *)

Section ComplimentStage.
Import AIComplimentGenerator.

Variable env : outside.

Lemma validate_false_iff (text : string) :
  _validate_compliment text = false <-> fails_validation text.
Proof.
  unfold _validate_compliment, fails_validation.
  destruct (String.eqb_spec text "") as [->|Hne]; [split; [intros _; left; simpl; lia|done]|].
  destruct (Nat.ltb_spec (String.length text) 20) as [Hshort|Hshort];
    [split; [auto|done]|].
  destruct (Nat.ltb_spec 300 (String.length text)) as [Hlong|Hlong];
    [split; [auto|done]|].
  cbn [orb].
  destruct (existsb _ invalid_phrases) eqn:Hphrase.
  { split; [|done]. intros _. apply existsb_exists in Hphrase. auto. }
  destruct (Nat.ltb_spec 2 (PyStr.count_char "!" text)) as [Hbang|Hbang];
    [split; [auto 6|done]|].
  destruct (Nat.ltb_spec 1 (PyStr.count_char "?" text)) as [Hwhat|Hwhat];
    [split; [auto 6|done]|].
  cbn [orb]. split; [done|].
  intros [H|[H|[H|[H|H]]]]; try lia.
  apply existsb_exists in H. by rewrite Hphrase in H.
Qed.

Lemma generate_ai_fails (company_name website_content : pyval) (w : world) :
  as_str website_content = None \/ generation_fails (openai env (chat_calls w)) ->
  (_generate_ai_compliment env company_name website_content w).1 = None /\
  draws (_generate_ai_compliment env company_name website_content w).2 = draws w.
Proof.
  unfold _generate_ai_compliment. intros [Hcontent|Hreply].
  - by rewrite Hcontent.
  - destruct (as_str website_content) as [content|]; [|done].
    unfold io_bind, chat. cbn zeta. cbn [fst snd].
    destruct (openai env (chat_calls w)) as [text| | |]; try done.
    cbn [generation_fails] in Hreply. apply validate_false_iff in Hreply.
    by rewrite Hreply.
Qed.

Lemma get_fallback_text (company_name : string) (w : world) :
  (_get_fallback_compliment env (PStr company_name) w).1
  = Some (fallback_for company_name
            (nth (random_index env (draws w) mod 10) fallback_compliments "")).
Proof.
  unfold _get_fallback_compliment, fallback_for, io_bind, random_choice.
  cbn zeta. cbn [fst snd truthy].
  change (List.length fallback_compliments) with 10.
  destruct (String.eqb_spec company_name "") as [->|Hne].
  { cbn [negb]. rewrite decide_False; [done|]. by intros [? _]. }
  cbn [negb]. destruct (Nat.ltb_spec (String.length company_name) 50) as [Hlt|Hge].
  - by rewrite decide_True.
  - rewrite decide_False; [done|]. intros [_ ?]. lia.
Qed.

Lemma startswith_app (old r post : string) :
  PyStr.startswith old (r ++ post)%string
  = PyStr.startswith old r ||
    match PyStr.strip_prefix r old with
    | Some rest => PyStr.startswith rest post
    | None => false
    end.
Proof.
  unfold PyStr.startswith. revert r. induction old as [|a old IH]; intros r.
  - by destruct r.
  - destruct r as [|b r].
    + cbn [PyStr.strip_prefix]. done.
    + change (String b r ++ post)%string with (String b (r ++ post)%string).
      cbn [PyStr.strip_prefix]. rewrite (Ascii.eqb_sym b a).
      destruct (Ascii.eqb a b); [apply IH|done].
Qed.

Lemma strip_prefix_whole (r old : string) :
  PyStr.strip_prefix r old = Some ""%string -> PyStr.startswith old r = true.
Proof.
  unfold PyStr.startswith. revert old. induction r as [|b r IH]; intros old.
  - cbn [PyStr.strip_prefix]. by intros [= ->].
  - destruct old as [|a old]; [done|]. cbn [PyStr.strip_prefix].
    rewrite (Ascii.eqb_sym b a). destruct (Ascii.eqb a b); [apply IH|done].
Qed.

Lemma strip_prefix_tail (r old rest : string) :
  PyStr.strip_prefix r old = Some rest ->
  r ≠ ""%string -> rest ≠ ""%string -> In rest (proper_tails old).
Proof.
  revert r. induction old as [|a old IH]; intros r Hstrip Hr Hrest.
  - by destruct r.
  - destruct r as [|b r]; [done|]. cbn [PyStr.strip_prefix] in Hstrip.
    destruct (Ascii.eqb b a); [|done].
    destruct r as [|c r].
    + cbn [PyStr.strip_prefix] in Hstrip. injection Hstrip as ->.
      cbn [proper_tails]. destruct rest; [done|]. by left.
    + assert (Hold : old ≠ ""%string) by (by destruct old).
      cbn [proper_tails]. destruct old as [|d old]; [done|]. right.
      by apply (IH (String c r)).
Qed.

(** A text that does not hold [old] passes through [replace] unchanged,
    also when more text follows it, as long as no occurrence of [old] can
    start in it and end in what follows. *)
Lemma replace_from_keeps (old new s post : string) :
  PyStr.contains old s = false ->
  forallb (fun rest => negb (PyStr.startswith rest post)) (proper_tails old) = true ->
  PyStr.replace_from old new 0 (s ++ post)%string
  = (s ++ PyStr.replace_from old new 0 post)%string.
Proof.
  intros Hs Hpost. rewrite forallb_forall in Hpost.
  induction s as [|c s IH]; [done|].
  cbn [PyStr.contains] in Hs. apply orb_false_iff in Hs as [Hhead Hs].
  change (String c s ++ post)%string with (String c (s ++ post)%string).
  cbn [PyStr.replace_from].
  change (String c (s ++ post)%string) with (String c s ++ post)%string.
  rewrite startswith_app, Hhead. cbn [orb].
  destruct (PyStr.strip_prefix (String c s) old) as [rest|] eqn:Hstrip.
  - destruct (decide (rest = ""%string)) as [->|Hrest].
    { apply strip_prefix_whole in Hstrip. congruence. }
    pose proof (strip_prefix_tail _ _ _ Hstrip ltac:(done) Hrest) as Hin.
    apply Hpost in Hin. apply negb_true_iff in Hin. rewrite Hin.
    change (String c s ++ post)%string with (String c (s ++ post)%string).
    by rewrite IH.
  - change (String c s ++ post)%string with (String c (s ++ post)%string).
    by rewrite IH.
Qed.

Ltac lower_case name pre post :=
  exists pre, "your company"%string, post;
  split; [reflexivity|]; split; [by left|];
  split; [reflexivity|]; split; [reflexivity|];
  unfold personalize, PyStr.replace;
  transitivity (pre ++ PyStr.replace_from "Your company" name 0 (name ++ post))%string;
  [reflexivity|];
  rewrite replace_from_keeps by (assumption || reflexivity); reflexivity.

Ltac upper_case name post :=
  exists ""%string, "Your company"%string, post;
  split; [reflexivity|]; split; [by right|];
  split; [reflexivity|]; split; [reflexivity|]; reflexivity.

Lemma personalize_template (name template : string) :
  In template fallback_compliments ->
  PyStr.contains "Your company" name = false ->
  personalized name template (personalize name template).
Proof.
  intros Hin Hname. unfold personalized.
  cbv [fallback_compliments In] in Hin.
  destruct Hin as [<-|[<-|[<-|[<-|[<-|[<-|[<-|[<-|[<-|[<-|[]]]]]]]]]]].
  - lower_case name "I've been following "%string
      "'s growth and I'm impressed by your innovative approach."%string.
  - upper_case name "'s mission really resonates with me, and I love what you're building."%string.
  - reflexivity.
  - upper_case name "'s recent achievements have caught my attention, and I'm excited about your vision."%string.
  - lower_case name "I appreciate the innovative solutions "%string " is developing."%string.
  - upper_case name "'s commitment to excellence is truly inspiring."%string.
  - lower_case name "I've been impressed by "%string
      "'s market presence and growth trajectory."%string.
  - upper_case name "'s approach to solving industry challenges is remarkable."%string.
  - lower_case name "I admire "%string "'s dedication to customer success."%string.
  - upper_case name "'s culture and values really stand out in the industry."%string.
Qed.


Lemma get_fallback_shape (company_name : pyval) (w : world) :
  nameable company_name = true ->
  exists template text : string,
    fallback_compliments !! (random_index env (draws w) mod 10) = Some template /\
    (_get_fallback_compliment env company_name w).1 = Some text /\
    fallback_text company_name template text.
Proof.
  intros Hname.
  assert (Hlt : (random_index env (draws w) mod 10 < List.length fallback_compliments)%nat).
  { change (List.length fallback_compliments) with 10. by apply Nat.mod_upper_bound. }
  destruct (lookup_lt_is_Some_2 _ _ Hlt) as [template Hlook].
  assert (Hnth : nth (random_index env (draws w) mod 10) fallback_compliments ""%string
                 = template) by (by apply nth_lookup_Some with (d := ""%string) in Hlook).
  assert (Hplain : forall name : pyval,
             truthy name = false ->
             (_get_fallback_compliment env name w).1 = Some template).
  { intros name Hfalse. unfold _get_fallback_compliment, io_bind, random_choice.
    cbn zeta. cbn [fst snd]. rewrite Hfalse.
    change (List.length fallback_compliments) with 10. by rewrite Hnth. }
  exists template. destruct company_name as [|name|z].
  - exists template. split; [done|]. split; [by apply Hplain|done].
  - exists (fallback_for name template). split; [done|].
    split; [by rewrite get_fallback_text, Hnth|].
    unfold fallback_text, fallback_for. destruct (decide _); [|done].
    intros Hfree. apply personalize_template; [|done].
    apply list_elem_of_In. by eapply list_elem_of_lookup_2.
  - exists template. split; [done|]. split; [|done].
    apply Hplain. cbn [nameable] in Hname. cbn [truthy]. by rewrite Hname.
Qed.

Lemma get_fallback_raises (company_name : pyval) (w : world) :
  nameable company_name = false ->
  (_get_fallback_compliment env company_name w).1 = None.
Proof.
  destruct company_name as [|name|z]; try done. cbn [nameable]. intros Hz.
  unfold _get_fallback_compliment, io_bind, random_choice. cbn zeta. cbn [fst snd truthy].
  by rewrite Hz.
Qed.


(** C6 (as amended).  The fallback is fixed by the company name and the
    index that is drawn: two invocations with the same name that draw the
    same index end alike, both raising when the name is a number other
    than zero, and otherwise both returning the template of that index
    with the company name put in as C5 tells. *)
Theorem fallback_determined_by_draw (env' : outside) (company_name : pyval)
    (w w' : world) :
  random_index env (draws w) mod 10 = random_index env' (draws w') mod 10 ->
  (_get_fallback_compliment env company_name w).1
    = (_get_fallback_compliment env' company_name w').1 /\
  (nameable company_name = true ->
   exists template text : string,
     fallback_compliments !! (random_index env (draws w) mod 10) = Some template /\
     (_get_fallback_compliment env company_name w).1 = Some text /\
     fallback_text company_name template text) /\
  (nameable company_name = false ->
   (_get_fallback_compliment env company_name w).1 = None).
Proof.
  intros Hdraw.
  split; [|split; [apply get_fallback_shape | apply get_fallback_raises]].
  unfold _get_fallback_compliment, io_bind, random_choice. cbn zeta. cbn [fst snd].
  change (List.length fallback_compliments) with 10. rewrite Hdraw.
  destruct (truthy company_name); [|done].
  destruct company_name as [|name|z]; try done.
  by destruct (String.length name <? 50)%nat.
Qed.

Lemma get_fallback_trace (company_name : pyval) (w : world) :
  trace (_get_fallback_compliment env company_name w).2 = trace w.
Proof.
  unfold _get_fallback_compliment, io_bind, random_choice. cbn zeta. cbn [fst snd].
  destruct (truthy company_name); [|done].
  destruct company_name as [|name|z]; try done.
  by destruct (String.length name <? 50)%nat.
Qed.

Lemma generate_compliment_trace (company_name website_content : pyval) (w : world) :
  exists evs,
    trace (generate_compliment env company_name website_content w).2 = trace w ++ evs /\
    forallb is_chat evs = true.
Proof.
  assert (Hai : exists evs,
             trace (_generate_ai_compliment env company_name website_content w).2
               = trace w ++ evs /\ forallb is_chat evs = true).
  { unfold _generate_ai_compliment.
    destruct (as_str website_content) as [content|];
      [|exists []; by rewrite app_nil_r].
    exists [EvChat company_name (substring 0 4000 content)]. split; [|done].
    unfold io_bind, chat. cbn zeta. cbn [fst snd].
    destruct (openai env (chat_calls w)) as [text| | |]; try done.
    by destruct (_validate_compliment (PyStr.strip text)). }
  destruct Hai as (evs & Htrace & Hchat). exists evs. split; [|exact Hchat].
  unfold generate_compliment, io_bind. cbn zeta.
  destruct (_generate_ai_compliment env company_name website_content w)
    as [[text|] w1]; cbn [fst snd] in *.
  - destruct (negb (text =? "")%string); cbn [io_ret fst snd].
    + exact Htrace.
    + destruct (_get_fallback_compliment env company_name w1) as [[c|] w2] eqn:Hfb;
        cbn [io_ret fst snd].
      * pose proof (get_fallback_trace company_name w1) as H.
        rewrite Hfb in H. cbn [snd] in H. by rewrite H.
      * pose proof (get_fallback_trace company_name w1) as H.
        rewrite Hfb in H. cbn [snd] in H.
        rewrite get_fallback_trace. by rewrite H.
  - destruct (_get_fallback_compliment env company_name w1) as [[c|] w2] eqn:Hfb;
      cbn [io_ret fst snd].
    * pose proof (get_fallback_trace company_name w1) as H.
      rewrite Hfb in H. cbn [snd] in H. by rewrite H.
    * pose proof (get_fallback_trace company_name w1) as H.
      rewrite Hfb in H. cbn [snd] in H.
      rewrite get_fallback_trace. by rewrite H.
Qed.

(** The compliment stage never waits: a batch run adds chat requests to
    the trace and nothing else. *)
Lemma compliment_batch_never_waits (leads : list dict) (w : world) :
  exists evs,
    trace (generate_compliments_batch env leads w).2 = trace w ++ evs /\
    forallb is_chat evs = true.
Proof.
  revert w. induction leads as [|lead rest IH]; intros w.
  - exists []. by rewrite app_nil_r.
  - cbn [generate_compliments_batch]. unfold io_bind. cbn zeta.
    destruct (generate_compliment_trace (get_or lead "company_name" (PStr ""))
                (get_or lead "website_content" (PStr "")) w) as (evs1 & Htrace1 & Hchat1).
    destruct (generate_compliment env _ _ w) as [[compliment|] w1]; cbn [fst snd] in *.
    + destruct (IH w1) as (evs2 & Htrace2 & Hchat2).
      exists (evs1 ++ evs2). split.
      * cbn [io_ret snd]. by rewrite Htrace2, Htrace1, <- app_assoc.
      * by rewrite forallb_app, Hchat1, Hchat2.
    + exists evs1. by split.
Qed.

End ComplimentStage.



(** A template with the phrase in small letters, one that starts with
    it, and the one template that has no such phrase. *)
Example fallback_names_the_company :
  (AIComplimentGenerator.generate_compliment (env_short 4) (PStr "Acme") (PStr "") world0).1
  = Some "I appreciate the innovative solutions Acme is developing."%string /\
  (AIComplimentGenerator.generate_compliment (env_short 5) (PStr "Acme") (PStr "") world0).1
  = Some "Acme's commitment to excellence is truly inspiring."%string /\
  (AIComplimentGenerator.generate_compliment (env_short 2) (PStr "Acme") (PStr "") world0).1
  = Some "I've heard great things about your team and the work you're doing."%string.
Proof. repeat split; vm_compute; reflexivity. Qed.

(** The second replacement also reads the name the first one has put in:
    a name that holds "Your company" is written into itself. *)
Example name_with_the_phrase_is_doubled :
  (AIComplimentGenerator.generate_compliment (env_short 4)
     (PStr "Your company Ltd") (PStr "") world0).1
  = Some "I appreciate the innovative solutions Your company Ltd Ltd is developing."%string.
Proof. vm_compute; reflexivity. Qed.

(** The specification's example: a text that holds "I cannot" is turned
    down and the fallback names the company. *)
Example refusal_is_replaced :
  fails_validation (PyStr.strip "I cannot help with that request, sorry.") /\
  (AIComplimentGenerator.generate_compliment (env_status 200) (PStr "Acme") (PStr "") world0).1
  = Some "I've been following Acme's growth and I'm impressed by your innovative approach.".
Proof.
  split; [|vm_compute; reflexivity].
  right. right. left. exists "I cannot". split; [|vm_compute; reflexivity].
  cbv [AIComplimentGenerator.invalid_phrases In]. tauto.
Qed.

(** A long company name, or none, leaves the template as it is. *)
Example long_name_is_not_substituted :
  (AIComplimentGenerator.generate_compliment (env_short 5)
     (PStr "The Extraordinarily Long Named Holding Company of Acme") (PStr "") world0).1
  = Some "Your company's commitment to excellence is truly inspiring." /\
  (AIComplimentGenerator.generate_compliment (env_short 5) (PStr "") (PStr "") world0).1
  = Some "Your company's commitment to excellence is truly inspiring.".
Proof. split; vm_compute; reflexivity. Qed.

Lemma fallback_determined_by_draw_witness :
  (AIComplimentGenerator._get_fallback_compliment (env_short 3) (PStr "Acme") world0).1
    = (AIComplimentGenerator._get_fallback_compliment (env_short 13) (PStr "Acme") world0).1 /\
  exists template text : string,
    AIComplimentGenerator.fallback_compliments
      !! (random_index (env_short 3) (draws world0) mod 10) = Some template /\
    (AIComplimentGenerator._get_fallback_compliment (env_short 3) (PStr "Acme") world0).1
    = Some text /\
    fallback_text (PStr "Acme") template text.
Proof.
  destruct (fallback_determined_by_draw (env_short 3) (env_short 13) (PStr "Acme")
              world0 world0 eq_refl) as (Hsame & Hshape & _).
  split; [exact Hsame | apply Hshape; reflexivity].
Defined.

(** C6 as stated fails: two invocations in a row, with the same company
    name, return different texts when the generator draws 0 and then 1. *)
Lemma fallback_not_deterministic :
  (AIComplimentGenerator._get_fallback_compliment (env_status 200) (PStr "Acme") world0).1
  ≠ (AIComplimentGenerator._get_fallback_compliment (env_status 200) (PStr "Acme")
       (AIComplimentGenerator._get_fallback_compliment (env_status 200) (PStr "Acme") world0).2).1.
Proof.
  assert (H1 : (AIComplimentGenerator._get_fallback_compliment (env_status 200)
                  (PStr "Acme") world0).1
               = Some "I've been following Acme's growth and I'm impressed by your innovative approach.")
    by (vm_compute; reflexivity).
  assert (H2 : (AIComplimentGenerator._get_fallback_compliment (env_status 200) (PStr "Acme")
                  (AIComplimentGenerator._get_fallback_compliment (env_status 200)
                     (PStr "Acme") world0).2).1
               = Some "Acme's mission really resonates with me, and I love what you're building.")
    by (vm_compute; reflexivity).
  rewrite H1, H2. discriminate.
Qed.

(** C4 at the failing input.  A compliment batch over two leads sends two
    chat requests one after the other with no wait between them, so its
    trace is not paced; the email batch over the same leads is. *)
Theorem compliment_batch_has_no_wait :
  trace (AIComplimentGenerator.generate_compliments_batch (env_status 200)
           [john_lead; jane_lead] world0).2
    = [ EvChat (PStr "Acme") ""; EvChat (PStr "Globex") "" ] /\
  paced (trace (AIComplimentGenerator.generate_compliments_batch (env_status 200)
                  [john_lead; jane_lead] world0).2) = false /\
  paced (trace (EmailFinder.find_emails_batch (env_status 200)
                  [john_lead; jane_lead] world0).2) = true.
Proof. repeat split; vm_compute; reflexivity. Qed.

(** ** Batch deduplication and the threshold filter *)

Section BatchDedup.
Import DataProcessor.

Lemma remove_duplicates_from_sublist (seen : gset pyval) (job_data : list dict) :
  sublist (_remove_duplicates_from seen job_data) job_data.
Proof.
  revert seen. induction job_data as [|job rest IH]; intros seen; [constructor|].
  cbn [_remove_duplicates_from].
  destruct (negb (truthy (get job "company_linkedin_url"))); [by apply sublist_cons|].
  destruct (decide _); [by apply sublist_cons|by apply sublist_skip].
Qed.

Lemma remove_duplicates_from_fresh (seen : gset pyval) (job_data : list dict) :
  Forall (fun job => truthy (url_of job) = true /\ url_of job ∉ seen)
         (_remove_duplicates_from seen job_data).
Proof.
  revert seen. induction job_data as [|job rest IH]; intros seen; [constructor|].
  cbn [_remove_duplicates_from]. fold (url_of job).
  destruct (truthy (url_of job)) eqn:Htruthy; cbn [negb]; [|apply IH].
  destruct (decide (url_of job ∈ seen)) as [Hin|Hout]; [apply IH|].
  constructor; [done|].
  eapply Forall_impl; [apply IH|]. intros j [? Hj]. split; [done|].
  intros ?. apply Hj. by apply elem_of_union_r.
Qed.

Lemma remove_duplicates_from_NoDup (seen : gset pyval) (job_data : list dict) :
  NoDup (url_of <$> _remove_duplicates_from seen job_data).
Proof.
  revert seen. induction job_data as [|job rest IH]; intros seen; [constructor|].
  cbn [_remove_duplicates_from]. fold (url_of job).
  destruct (negb (truthy (url_of job))); [apply IH|].
  destruct (decide (url_of job ∈ seen)) as [Hin|Hout]; [apply IH|].
  rewrite fmap_cons. constructor; [|apply IH].
  intros (j & Hj & Hin)%list_elem_of_fmap.
  pose proof (remove_duplicates_from_fresh ({[url_of job]} ∪ seen) rest) as Hfresh.
  rewrite Forall_forall in Hfresh. destruct (Hfresh j Hin) as [_ Hnot].
  apply Hnot. rewrite <- Hj. apply elem_of_union_l. by apply elem_of_singleton.
Qed.

Lemma remove_duplicates_from_first (seen : gset pyval) (job_data : list dict) (u : pyval) :
  truthy u = true ->
  List.filter (has_url u) (_remove_duplicates_from seen job_data) =
  if decide (u ∈ seen) then [] else take 1 (List.filter (has_url u) job_data).
Proof.
  intros Hu. revert seen.
  induction job_data as [|job rest IH]; intros seen; [by destruct (decide _)|].
  cbn [_remove_duplicates_from List.filter]. fold (url_of job). unfold has_url at 2.
  destruct (decide (url_of job = u)) as [Heq|Hne].
  - rewrite bool_decide_eq_true_2 by done. rewrite Heq, Hu. cbn [negb].
    destruct (decide (u ∈ seen)) as [Hin|Hout]; [by rewrite IH, decide_True|].
    cbn [List.filter]. unfold has_url at 1. rewrite bool_decide_eq_true_2 by done.
    rewrite IH, decide_True; [done|]. apply elem_of_union_l. by apply elem_of_singleton.
  - rewrite bool_decide_eq_false_2 by done.
    destruct (negb (truthy (url_of job))); [apply IH|].
    destruct (decide (url_of job ∈ seen)) as [Hin|Hout]; [apply IH|].
    cbn [List.filter]. unfold has_url at 1. rewrite bool_decide_eq_false_2 by done.
    rewrite IH. destruct (decide (u ∈ seen)) as [Hin|Hnot].
    + rewrite decide_True; [done|]. by apply elem_of_union_r.
    + rewrite decide_False; [done|].
      rewrite elem_of_union, elem_of_singleton. by intros [->|?].
Qed.

(** X1.  Batch deduplication returns a selection of its input, in the
    input's order, in which every posting has a company LinkedIn URL and no
    two postings have the same one. *)
Theorem remove_duplicates_unique (job_data : list dict) :
  sublist (_remove_duplicates job_data) job_data /\
  Forall (fun job => truthy (url_of job) = true) (_remove_duplicates job_data) /\
  NoDup (url_of <$> _remove_duplicates job_data).
Proof.
  unfold _remove_duplicates. split; [apply remove_duplicates_from_sublist|].
  split; [|apply remove_duplicates_from_NoDup].
  eapply Forall_impl; [apply remove_duplicates_from_fresh|]. by intros j [? _].
Qed.

(** X2.  Of the postings that carry a given non-empty company LinkedIn
    URL, batch deduplication keeps the first one and only that one,
    whatever else differs between them. *)
Theorem remove_duplicates_keeps_first (job_data : list dict) (u : pyval) :
  truthy u = true ->
  List.filter (has_url u) (_remove_duplicates job_data)
  = take 1 (List.filter (has_url u) job_data).
Proof.
  intros Hu. unfold _remove_duplicates.
  rewrite (remove_duplicates_from_first _ _ _ Hu). by rewrite decide_False.
Qed.

Lemma findall_no_digit (cur : list ascii) (s : string) :
  PyStr.all_chars not_digit s = true ->
  PyStr.findall_digits_from cur s =
  match cur with [] => [] | _ => [string_of_list_ascii (rev cur)] end.
Proof.
  revert cur. induction s as [|c r IH]; intros cur Hs; [done|].
  cbn [PyStr.all_chars] in Hs. apply andb_true_iff in Hs as [Hc Hr].
  cbn [PyStr.findall_digits_from]. unfold not_digit in Hc.
  apply negb_true_iff in Hc. rewrite Hc, (IH [] Hr). by rewrite app_nil_r.
Qed.

Lemma findall_digit_run (cur : list ascii) (digits rest : string) :
  PyStr.all_chars PyStr.is_digit digits = true ->
  PyStr.findall_digits_from cur (digits ++ rest)%string
  = PyStr.findall_digits_from (rev (list_ascii_of_string digits) ++ cur) rest.
Proof.
  revert cur. induction digits as [|c r IH]; intros cur Hd; [done|].
  cbn [PyStr.all_chars] in Hd. apply andb_true_iff in Hd as [Hc Hr].
  change (String c r ++ rest)%string with (String c (r ++ rest)).
  cbn [PyStr.findall_digits_from]. rewrite Hc, (IH _ Hr).
  cbn [list_ascii_of_string rev]. by rewrite <- app_assoc.
Qed.

Lemma findall_skip_text (text rest : string) :
  PyStr.all_chars not_digit text = true ->
  PyStr.findall_digits_from [] (text ++ rest)%string = PyStr.findall_digits_from [] rest.
Proof.
  induction text as [|c r IH]; intros Ht; [done|].
  cbn [PyStr.all_chars] in Ht. apply andb_true_iff in Ht as [Hc Hr].
  change (String c r ++ rest)%string with (String c (r ++ rest)).
  cbn [PyStr.findall_digits_from]. unfold not_digit in Hc.
  apply negb_true_iff in Hc. by rewrite Hc, (IH Hr).
Qed.

(** The first run of digits of a text decides: the posting is skipped
    when the run is too long for [int], and counts as the number
    [int_of_digits] reads otherwise. *)
Lemma threshold_count_run (before digits after : string) :
  PyStr.all_chars not_digit before = true ->
  PyStr.all_chars PyStr.is_digit digits = true ->
  digits ≠ "" ->
  match after with
  | EmptyString => True
  | String c _ => PyStr.is_digit c = false
  end ->
  threshold_count (PStr (before ++ digits ++ after)%string)
  = if (int_max_str_digits <? String.length digits)%nat then None
    else Some (PyStr.int_of_digits digits).
Proof.
  intros Hbefore Hdigits Hne Hafter. unfold threshold_count, PyStr.findall_digits.
  rewrite (findall_skip_text _ _ Hbefore), (findall_digit_run _ _ _ Hdigits).
  rewrite app_nil_r.
  assert (Hrun : rev (list_ascii_of_string digits) ≠ []).
  { destruct digits as [|c r]; [done|]. cbn [list_ascii_of_string rev].
    by destruct (rev (list_ascii_of_string r)). }
  assert (Hback : string_of_list_ascii (rev (rev (list_ascii_of_string digits))) = digits)
    by (rewrite rev_involutive; apply string_of_list_ascii_of_string).
  destruct after as [|c r].
  - cbn [PyStr.findall_digits_from].
    destruct (rev (list_ascii_of_string digits)) as [|d ds] eqn:Hrev; [done|].
    by rewrite Hback.
  - cbn [PyStr.findall_digits_from]. rewrite Hafter.
    destruct (rev (list_ascii_of_string digits)) as [|d ds] eqn:Hrev; [done|].
    cbn [app]. by rewrite Hback.
Qed.

Lemma all_chars_app (p : ascii -> bool) (s t : string) :
  PyStr.all_chars p (s ++ t)%string = PyStr.all_chars p s && PyStr.all_chars p t.
Proof.
  induction s as [|c s IH]; [done|].
  change (String c s ++ t)%string with (String c (s ++ t)).
  cbn [PyStr.all_chars]. by rewrite IH, andb_assoc.
Qed.

Lemma length_app (s t : string) :
  String.length (s ++ t)%string = (String.length s + String.length t)%nat.
Proof.
  induction s as [|c s IH]; [done|].
  change (String c s ++ t)%string with (String c (s ++ t)).
  cbn [String.length]. by rewrite IH.
Qed.

(** A numeral is made of digits, and [int_of_digits] reads from it the
    number it was written for. *)
Lemma uint_digits (u : Decimal.uint) :
  PyStr.all_chars PyStr.is_digit (NilEmpty.string_of_uint u) = true.
Proof. induction u; cbn [NilEmpty.string_of_uint PyStr.all_chars]; by try rewrite IHu. Qed.

Lemma numeral_digits (n : N) :
  PyStr.all_chars PyStr.is_digit (numeral n) = true /\ numeral n ≠ "".
Proof.
  unfold numeral, NilZero.string_of_uint.
  destruct (N.to_uint n) as [|u|u|u|u|u|u|u|u|u|u]; (split; [|done]);
    first [done | apply uint_digits].
Qed.

Lemma int_of_uint_acc (u : Decimal.uint) (acc : positive) :
  PyStr.int_of_digits_from (Z.pos acc) (NilEmpty.string_of_uint u)
  = Z.pos (Pos.of_uint_acc u acc).
Proof.
  revert acc.
  induction u; intros acc; [done|..];
    cbn [NilEmpty.string_of_uint PyStr.int_of_digits_from Pos.of_uint_acc];
    rewrite <- IHu; f_equal;
    set (digit := Z.of_nat (PyStr.code _ - 48)); vm_compute in digit; lia.
Qed.

Lemma int_of_uint (u : Decimal.uint) :
  PyStr.int_of_digits_from 0 (NilEmpty.string_of_uint u) = Z.of_N (Pos.of_uint u).
Proof.
  induction u; [done|..];
    cbn [NilEmpty.string_of_uint PyStr.int_of_digits_from Pos.of_uint];
    first [exact IHu | apply int_of_uint_acc].
Qed.

Lemma int_of_numeral (n : N) : PyStr.int_of_digits (numeral n) = Z.of_N n.
Proof.
  unfold PyStr.int_of_digits, numeral, NilZero.string_of_uint.
  rewrite <- (DecimalN.Unsigned.of_to n) at 2. unfold N.of_uint.
  destruct (N.to_uint n) eqn:Hn; [done|..]; apply int_of_uint.
Qed.

Lemma int_of_zeros (zeros s : string) :
  PyStr.all_chars is_zero zeros = true ->
  PyStr.int_of_digits_from 0 (zeros ++ s)%string = PyStr.int_of_digits_from 0 s.
Proof.
  induction zeros as [|c r IH]; [done|]. cbn [PyStr.all_chars].
  intros [Hc Hr]%andb_true_iff. apply Ascii.eqb_eq in Hc as ->.
  change (String "0" r ++ s)%string with (String "0" (r ++ s)).
  cbn [PyStr.int_of_digits_from]. by apply IH.
Qed.

Lemma zeros_digits (zeros : string) :
  PyStr.all_chars is_zero zeros = true -> PyStr.all_chars PyStr.is_digit zeros = true.
Proof.
  induction zeros as [|c r IH]; [done|]. cbn [PyStr.all_chars].
  intros [Hc Hr]%andb_true_iff. apply Ascii.eqb_eq in Hc as ->. by rewrite IH.
Qed.

(** X3.  What the threshold filter reads out of a textual employee count
    is its first run of digits and nothing more.  Let the text be any
    digit-free text, then zeros, then the decimal numeral of a number [n],
    then nothing or something that starts with a character that is no
    digit.  When the run, zeros and numeral together, has more than 4300
    digits, [int] raises and the posting is skipped; otherwise the count
    is [n]. *)
Theorem threshold_count_first_run (before zeros after : string) (n : N) :
  PyStr.all_chars not_digit before = true ->
  PyStr.all_chars is_zero zeros = true ->
  match after with
  | EmptyString => True
  | String c _ => PyStr.is_digit c = false
  end ->
  threshold_count (PStr (before ++ zeros ++ numeral n ++ after)%string)
  = if (4300 <? String.length zeros + String.length (numeral n))%nat then None
    else Some (Z.of_N n).
Proof.
  intros Hbefore Hzeros Hafter.
  destruct (numeral_digits n) as [Hdigits Hne].
  assert (Hshape : (before ++ zeros ++ numeral n ++ after)%string
                   = (before ++ (zeros ++ numeral n) ++ after)%string).
  { f_equal. clear. induction zeros as [|c r IH]; [done|].
    change (String c r ++ numeral n ++ after)%string
      with (String c (r ++ numeral n ++ after)).
    by rewrite IH. }
  rewrite Hshape, threshold_count_run; [|done| | |done].
  - rewrite length_app. change int_max_str_digits with 4300.
    destruct (4300 <? _)%nat; [done|].
    unfold PyStr.int_of_digits. rewrite (int_of_zeros _ _ Hzeros).
    f_equal. apply int_of_numeral.
  - by rewrite all_chars_app, (zeros_digits _ Hzeros), Hdigits.
  - destruct zeros; [done|discriminate].
Qed.

(** X4.  A posting is left out by the threshold filter when it has no
    employee count or when its employee count is a text without any digit,
    however low the threshold; a posting whose employee count is an integer
    is kept exactly when the integer is at least the threshold. *)
Theorem threshold_filter_edges (cfg : config) (job : dict) :
  (get job "employee_count" = PNone -> _filter_by_employee_count cfg [job] = []) /\
  (forall text, get job "employee_count" = PStr text ->
                PyStr.all_chars not_digit text = true ->
                _filter_by_employee_count cfg [job] = []) /\
  (forall n, get job "employee_count" = PInt n ->
             _filter_by_employee_count cfg [job]
             = if decide (min_employee_count cfg <= n)%Z then [job] else []).
Proof.
  unfold _filter_by_employee_count, passes_threshold. cbn [List.filter].
  split; [by intros ->|]. split.
  - intros text -> Htext. unfold threshold_count, PyStr.findall_digits.
    by rewrite (findall_no_digit [] _ Htext).
  - intros n ->. cbn [threshold_count].
    destruct (Z.leb_spec (min_employee_count cfg) n).
    + by rewrite decide_True.
    + rewrite decide_False; [done|lia].
Qed.

End BatchDedup.

Lemma remove_duplicates_keeps_first_witness :
  List.filter (has_url (PStr "https://www.linkedin.com/company/acme"))
    (DataProcessor._remove_duplicates [acme_posting; acme_cleaned; tech_posting])
  = take 1 (List.filter (has_url (PStr "https://www.linkedin.com/company/acme"))
              [acme_posting; acme_cleaned; tech_posting]).
Proof.
  apply (remove_duplicates_keeps_first [acme_posting; acme_cleaned; tech_posting]
           (PStr "https://www.linkedin.com/company/acme")).
  reflexivity.
Defined.

Lemma threshold_count_first_run_witness :
  DataProcessor.threshold_count (PStr "about 01,200 employees") = Some 1%Z.
Proof.
  apply (threshold_count_first_run "about " "0" ",200 employees" 1); reflexivity.
Defined.

(** The limit of [int] counts leading zeros: 4299 zeros and a seven are
    read as 7, and with one zero more the posting is left out, whatever the
    threshold is. *)
Example count_at_the_digit_limit :
  DataProcessor.threshold_count
    (PStr ("" ++ string_of_list_ascii (repeat "0"%char 4299 ++ ["7"%char]) ++ " employees")%string)
  = Some 7%Z /\
  DataProcessor.threshold_count
    (PStr ("" ++ string_of_list_ascii (repeat "0"%char 4300 ++ ["7"%char]) ++ " employees")%string)
  = None.
Proof.
  split;
    (rewrite threshold_count_run;
     [vm_compute; reflexivity | reflexivity | vm_compute; reflexivity
     | vm_compute; discriminate | reflexivity]).
Qed.

(** ** The normalisation pipeline as a whole *)

Section Pipeline.
Import DataProcessor.

Lemma clean_job_shape (job job' : dict) :
  clean_job job = Some job' ->
  truthy (get job' "company_name") = true ->
  exists name,
    name ≠ "" /\
    job !! "company_name" = Some (PStr name) /\
    job' = <["company_name_original" := PStr name]>
             (<["company_name_cleaned" := PStr (clean_text name)]> job).
Proof.
  unfold clean_job, _clean_company_name. intros Hclean Htruthy.
  destruct (job !! "company_name") as [v|] eqn:Hv.
  - rewrite (get_or_Some _ _ _ _ Hv) in Hclean.
    destruct (truthy v) eqn:Hvt; cbn [negb] in Hclean.
    + destruct v as [|name|z]; [done| |done].
      cbn [as_str mbind option_bind] in Hclean. injection Hclean as <-.
      exists name. split; [by intros ->|done].
    + injection Hclean as <-. by rewrite (get_Some _ _ _ Hv), Hvt in Htruthy.
  - unfold get_or in Hclean. rewrite Hv in Hclean.
    change (default (PStr "") None) with (PStr "") in Hclean.
    cbn [truthy String.eqb negb] in Hclean. injection Hclean as <-.
    unfold get, get_or in Htruthy. by rewrite Hv in Htruthy.
Qed.

Lemma clean_job_keeps (job job' : dict) (k : string) :
  clean_job job = Some job' ->
  k ≠ "company_name_original" -> k ≠ "company_name_cleaned" ->
  job' !! k = job !! k.
Proof.
  unfold clean_job. intros Hclean H1 H2.
  destruct (truthy (get_or job "company_name" (PStr ""))); [|by injection Hclean as <-].
  destruct (_clean_company_name _) as [cleaned|]; [|done].
  cbn [mbind option_bind] in Hclean. injection Hclean as <-. by rewrite !lookup_insert_ne.
Qed.

Lemma has_required_company (job : dict) :
  has_required_fields job = true -> truthy (get job "company_name") = true.
Proof.
  unfold has_required_fields, missing_fields, required_fields. cbn [List.filter].
  by destruct (truthy (get job "company_name")).
Qed.

(** X5.  Whenever [filter_and_clean] returns, every posting it returns is
    one of the input postings with two keys added, the cleaned and the
    original company name; it meets the employee threshold, has a company
    LinkedIn URL that no other returned posting has, and has all three
    required fields, its company name being a non-empty text. *)
Theorem filter_and_clean_post (cfg : config) (job_data validated : list dict) :
  filter_and_clean cfg job_data = Some validated ->
  NoDup (url_of <$> validated) /\
  Forall (fun job' =>
            exists job name,
              job ∈ job_data /\
              name ≠ "" /\
              job !! "company_name" = Some (PStr name) /\
              job' = <["company_name_original" := PStr name]>
                       (<["company_name_cleaned" := PStr (clean_text name)]> job) /\
              passes_threshold cfg job' = true /\
              truthy (url_of job') = true /\
              has_required_fields job' = true)
         validated.
Proof.
  unfold filter_and_clean, _clean_company_names. intros Hrun.
  destruct (mapM clean_job _) as [cleaned|] eqn:Hclean; [|done].
  cbn [mbind option_bind] in Hrun. injection Hrun as <-. apply mapM_Some in Hclean.
  pose proof (remove_duplicates_from_sublist ∅ (_filter_by_employee_count cfg job_data))
    as Hsub.
  pose proof (remove_duplicates_from_NoDup ∅ (_filter_by_employee_count cfg job_data))
    as Hnodup.
  assert (Htruthy : Forall (fun job => truthy (url_of job) = true)
                      (_remove_duplicates (_filter_by_employee_count cfg job_data))).
  { eapply Forall_impl; [apply remove_duplicates_from_fresh|]. by intros j [? _]. }
  fold (_remove_duplicates (_filter_by_employee_count cfg job_data)) in Hsub, Hnodup.
  assert (Hurls : url_of <$> cleaned
                  = url_of <$> _remove_duplicates (_filter_by_employee_count cfg job_data)).
  { clear -Hclean. induction Hclean as [|j j' l l' Hj _ IH]; [done|].
    rewrite !fmap_cons, IH. f_equal. unfold url_of, get, get_or.
    by rewrite (clean_job_keeps _ _ "company_linkedin_url" Hj). }
  split.
  - unfold _validate_required_fields. rewrite <- Hurls in Hnodup.
    apply (sublist_NoDup _ (url_of <$> cleaned)); [exact Hnodup|].
    apply fmap_sublist. clear. induction cleaned as [|j l IH]; [constructor|].
    cbn [List.filter]. destruct (has_required_fields j);
      [by apply sublist_skip | by apply sublist_cons].
  - apply Forall_forall. intros job' Hin.
    unfold _validate_required_fields in Hin.
    apply list_elem_of_In, filter_In in Hin as [Hin Hreq]. apply list_elem_of_In in Hin.
    destruct (proj1 (list_elem_of_lookup _ _) Hin) as [i Hi].
    destruct (Forall2_lookup_r _ _ _ _ _ Hclean Hi) as (job & Hjob & Hstep).
    apply list_elem_of_lookup_2 in Hjob.
    destruct (clean_job_shape _ _ Hstep (has_required_company _ Hreq))
      as (name & Hne & Hname & Hshape).
    exists job, name.
    assert (Hfiltered : job ∈ _filter_by_employee_count cfg job_data)
      by (eapply sublist_subseteq; eauto).
    unfold _filter_by_employee_count in Hfiltered.
    apply list_elem_of_In, filter_In in Hfiltered as [Horigin Hpass].
    apply list_elem_of_In in Horigin.
    repeat split; try done.
    + unfold passes_threshold, get, get_or in *.
      by rewrite (clean_job_keeps _ _ "employee_count" Hstep).
    + rewrite Forall_forall in Htruthy. specialize (Htruthy _ Hjob).
      unfold url_of, get, get_or in *.
      by rewrite (clean_job_keeps _ _ "company_linkedin_url" Hstep).
Qed.

Lemma clean_job_total (job : dict) : cleanable job = true -> is_Some (clean_job job).
Proof.
  unfold cleanable, clean_job, _clean_company_name.
  destruct (get_or job "company_name" (PStr "")) as [|name|z]; cbn [truthy]; try done.
  - destruct (negb (name =? "")%string); by eexists.
  - intros ->%Z.eqb_eq. by eexists.
Qed.

Lemma clean_job_cleanable (job job' : dict) :
  clean_job job = Some job' -> cleanable job = true.
Proof.
  unfold cleanable, clean_job, _clean_company_name.
  destruct (get_or job "company_name" (PStr "")) as [|name|z]; cbn [truthy]; try done.
  by destruct (z =? 0)%Z.
Qed.

(** X6.  On postings whose values are [None], texts or integers,
    [filter_and_clean] returns, without raising, exactly when every
    posting that gets past the threshold filter and batch deduplication
    has a company name that is a text, [None], missing or zero; so it
    returns whenever every posting it is given has such a company name.
    (Other values are outside this statement: a count that is an infinite
    float, or a URL that cannot be hashed, makes an earlier stage
    raise.) *)
Theorem filter_and_clean_total (cfg : config) (job_data : list dict) :
  (is_Some (filter_and_clean cfg job_data) <->
   Forall (fun job => cleanable job = true)
          (_remove_duplicates (_filter_by_employee_count cfg job_data))) /\
  (forallb cleanable job_data = true -> is_Some (filter_and_clean cfg job_data)).
Proof.
  assert (Hiff : is_Some (filter_and_clean cfg job_data) <->
                 Forall (fun job => cleanable job = true)
                        (_remove_duplicates (_filter_by_employee_count cfg job_data))).
  { unfold filter_and_clean, _clean_company_names.
    generalize (_remove_duplicates (_filter_by_employee_count cfg job_data)).
    intros survivors. split.
    - intros [validated Hrun].
      destruct (mapM clean_job survivors) as [cleaned|] eqn:Hclean; [|done].
      apply mapM_Some in Hclean. clear Hrun.
      induction Hclean as [|job job' rest rest' Hjob _ IH]; constructor; [|exact IH].
      by eapply clean_job_cleanable.
    - intros Hall. induction Hall as [|job rest Hjob _ IH]; [by eexists|].
      cbn [mapM]. destruct (clean_job_total _ Hjob) as [job' ->].
      cbn [mbind option_bind].
      destruct (mapM clean_job rest) as [cleaned|]; [|by destruct IH].
      by eexists. }
  split; [exact Hiff|]. intros Hok. apply Hiff.
  apply Forall_forall. intros job Hin.
  pose proof (remove_duplicates_from_sublist ∅ (_filter_by_employee_count cfg job_data))
    as Hsub.
  fold (_remove_duplicates (_filter_by_employee_count cfg job_data)) in Hsub.
  pose proof (sublist_subseteq _ _ Hsub _ Hin) as Hfiltered.
  unfold _filter_by_employee_count in Hfiltered.
  apply list_elem_of_In, filter_In in Hfiltered as [Horigin _].
  rewrite forallb_forall in Hok. by apply Hok.
Qed.

(** X7.  One posting whose company name is a number other than zero, and
    which gets past the threshold filter and batch deduplication, makes
    [filter_and_clean] raise for the entire batch, whatever the other
    postings are. *)
Theorem filter_and_clean_raises (cfg : config) (job : dict) (rest : list dict) (z : Z) :
  job !! "company_name" = Some (PInt z) ->
  z ≠ 0%Z ->
  passes_threshold cfg job = true ->
  truthy (url_of job) = true ->
  filter_and_clean cfg (job :: rest) = None.
Proof.
  intros Hname Hz Hpass Hurl.
  assert (Hraise : clean_job job = None).
  { unfold clean_job, _clean_company_name. rewrite (get_or_Some _ _ _ _ Hname).
    cbn [truthy]. apply Z.eqb_neq in Hz. by rewrite Hz. }
  unfold filter_and_clean, _filter_by_employee_count, _remove_duplicates, _clean_company_names.
  cbn [List.filter]. rewrite Hpass. cbn [_remove_duplicates_from].
  fold (url_of job). rewrite Hurl. cbn [negb].
  rewrite decide_False by apply not_elem_of_empty.
  cbn [mapM]. by rewrite Hraise.
Qed.

End Pipeline.

Lemma filter_and_clean_post_witness :
  NoDup (url_of <$> [acme_cleaned]) /\
  Forall (fun job' =>
            exists job name,
              job ∈ [acme_posting] /\
              name ≠ "" /\
              job !! "company_name" = Some (PStr name) /\
              job' = <["company_name_original" := PStr name]>
                       (<["company_name_cleaned" := PStr (DataProcessor.clean_text name)]> job) /\
              DataProcessor.passes_threshold cfg_default job' = true /\
              truthy (url_of job') = true /\
              DataProcessor.has_required_fields job' = true)
         [acme_cleaned].
Proof.
  apply (filter_and_clean_post cfg_default [acme_posting] [acme_cleaned]).
  by_evaluation.
Defined.

Lemma filter_and_clean_total_witness :
  is_Some (DataProcessor.filter_and_clean cfg_default [acme_posting; tech_posting]).
Proof.
  apply (filter_and_clean_total cfg_default [acme_posting; tech_posting]).
  vm_compute. reflexivity.
Defined.

Lemma filter_and_clean_raises_witness :
  DataProcessor.filter_and_clean cfg_default
    (<["company_name" := PInt 42]> acme_posting :: [tech_posting]) = None.
Proof.
  apply (filter_and_clean_raises cfg_default (<["company_name" := PInt 42]> acme_posting)
           [tech_posting] 42);
    first [by (vm_compute; reflexivity) | discriminate].
Defined.

(** ** Cleaned company names and name parts *)

Section Texts.
Import DataProcessor.

Lemma drop_tail_empty (p : ascii -> bool) (s : string) :
  PyStr.drop_tail p s = "" <-> PyStr.all_chars p s = true.
Proof.
  destruct s as [|c r]; [done|]. cbn [PyStr.drop_tail].
  by destruct (PyStr.all_chars p (String c r)).
Qed.

Lemma drop_tail_last (p : ascii -> bool) (s : string) :
  match PyStr.last_char None (PyStr.drop_tail p s) with
  | Some c => p c = false
  | None => True
  end.
Proof.
  induction s as [|c r IH]; [done|]. cbn [PyStr.drop_tail].
  destruct (PyStr.all_chars p (String c r)) eqn:Hall; [done|].
  cbn [PyStr.last_char]. destruct (PyStr.drop_tail p r) as [|d t] eqn:Htail.
  - cbn [PyStr.last_char]. apply drop_tail_empty in Htail.
    cbn [PyStr.all_chars] in Hall. rewrite Htail, andb_true_r in Hall. exact Hall.
  - cbn [PyStr.last_char] in *. clear -IH.
    revert d IH. induction t as [|e t IHt]; intros d IH; [done|].
    cbn [PyStr.last_char] in *. by apply IHt.
Qed.

Lemma last_char_some (c : ascii) (s : string) :
  PyStr.last_char (Some c) s = match PyStr.last_char None s with
                               | Some d => Some d
                               | None => Some c
                               end.
Proof.
  revert c. induction s as [|d r IH]; intros c; [done|].
  cbn [PyStr.last_char]. rewrite (IH d). by destruct (PyStr.last_char None r).
Qed.

Lemma drop_tail_fixed (p : ascii -> bool) (s : string) :
  match PyStr.last_char None s with Some c => p c = false | None => True end ->
  PyStr.drop_tail p s = s.
Proof.
  induction s as [|c r IH]; [done|]. intros Hlast.
  cbn [PyStr.last_char] in Hlast. rewrite last_char_some in Hlast.
  cbn [PyStr.drop_tail PyStr.all_chars].
  destruct (PyStr.last_char None r) as [d|] eqn:Hr.
  - specialize (IH Hlast). rewrite IH.
    destruct (PyStr.all_chars p r) eqn:Hall; [|by rewrite andb_false_r].
    apply drop_tail_empty in Hall. rewrite IH in Hall. by subst r.
  - destruct r; [|by (cbn [PyStr.last_char] in Hr; rewrite last_char_some in Hr;
                        destruct (PyStr.last_char None r))].
    by rewrite Hlast.
Qed.

Lemma drop_tail_head (p : ascii -> bool) (s : string) :
  PyStr.drop_tail p s = "" \/ PyStr.head (PyStr.drop_tail p s) = PyStr.head s.
Proof.
  destruct s as [|c r]; [by left|]. cbn [PyStr.drop_tail].
  destruct (PyStr.all_chars p (String c r)); [by left|by right].
Qed.

Lemma lstrip_head (s : string) :
  match PyStr.head (PyStr.lstrip s) with
  | Some c => PyStr.is_space c = false
  | None => True
  end.
Proof.
  induction s as [|c r IH]; [done|]. cbn [PyStr.lstrip].
  by destruct (PyStr.is_space c) eqn:Hc.
Qed.

Lemma lstrip_fixed (s : string) :
  match PyStr.head s with Some c => PyStr.is_space c = false | None => True end ->
  PyStr.lstrip s = s.
Proof. destruct s as [|c r]; [done|]. cbn. by intros ->. Qed.

Lemma collapse_single_spaced (in_run : bool) (s : string) :
  single_spaced in_run (PyStr.collapse_ws_from in_run s) = true.
Proof.
  revert in_run. induction s as [|c r IH]; intros in_run; [done|].
  cbn [PyStr.collapse_ws_from]. destruct (PyStr.is_space c) eqn:Hc.
  - destruct in_run; [apply IH|]. cbn [single_spaced].
    change (PyStr.is_space " ") with true. cbn. apply IH.
  - cbn [single_spaced]. rewrite Hc. apply IH.
Qed.

Lemma collapse_fixed (after_space : bool) (s : string) :
  single_spaced after_space s = true -> PyStr.collapse_ws_from after_space s = s.
Proof.
  revert after_space. induction s as [|c r IH]; intros after_space; [done|].
  cbn [single_spaced PyStr.collapse_ws_from]. destruct (PyStr.is_space c).
  - intros [[Hc Hb]%andb_true_iff Hr]%andb_true_iff.
    apply negb_true_iff in Hb. subst after_space.
    apply Ascii.eqb_eq in Hc. subst c. by rewrite (IH _ Hr).
  - intros Hr. by rewrite (IH _ Hr).
Qed.

Lemma drop_tail_single_spaced (p : ascii -> bool) (after_space : bool) (s : string) :
  single_spaced after_space s = true ->
  single_spaced after_space (PyStr.drop_tail p s) = true.
Proof.
  revert after_space. induction s as [|c r IH]; intros after_space; [done|].
  cbn [PyStr.drop_tail]. destruct (PyStr.all_chars p (String c r)); [done|].
  cbn [single_spaced]. destruct (PyStr.is_space c).
  - intros [Hc Hr]%andb_true_iff. rewrite Hc. by apply IH.
  - apply IH.
Qed.

Lemma collapse_head (s : string) :
  match PyStr.head s with Some c => PyStr.is_space c = false | None => True end ->
  PyStr.head (PyStr.collapse_ws s) = PyStr.head s.
Proof. destruct s as [|c r]; [done|]. cbn. by intros ->. Qed.

(** X8.  A cleaned company name is tidy: it neither starts nor ends with
    white space, its white space is single blanks only, and it does not end
    with a comma. *)
Theorem clean_text_tidy (company_name : string) :
  PyStr.strip (clean_text company_name) = clean_text company_name /\
  PyStr.collapse_ws (clean_text company_name) = clean_text company_name /\
  match PyStr.last_char None (clean_text company_name) with
  | Some c => c ≠ ","%char /\ PyStr.is_space c = false
  | None => True
  end.
Proof.
  unfold clean_text.
  set (removed := fold_left _ company_suffixes company_name).
  set (p := fun c : ascii => (c =? ",")%char || PyStr.is_space c).
  set (stripped := PyStr.strip removed).
  assert (Hhead : match PyStr.head stripped with
                  | Some c => PyStr.is_space c = false
                  | None => True
                  end).
  { unfold stripped, PyStr.strip, PyStr.rstrip.
    destruct (drop_tail_head PyStr.is_space (PyStr.lstrip removed)) as [-> | ->]; [done|].
    apply lstrip_head. }
  assert (Hlast : match PyStr.last_char None (PyStr.drop_tail p (PyStr.collapse_ws stripped)) with
                  | Some c => c ≠ ","%char /\ PyStr.is_space c = false
                  | None => True
                  end).
  { pose proof (drop_tail_last p (PyStr.collapse_ws stripped)) as H.
    destruct (PyStr.last_char None _) as [c|]; [|done].
    unfold p in H. apply orb_false_iff in H as [Hc Hs]. split; [|done].
    by apply Ascii.eqb_neq. }
  assert (Hspaced : single_spaced false (PyStr.drop_tail p (PyStr.collapse_ws stripped)) = true)
    by apply drop_tail_single_spaced, collapse_single_spaced.
  split; [|split; [by apply collapse_fixed | exact Hlast]].
  unfold PyStr.strip, PyStr.rstrip.
  assert (Hl : PyStr.lstrip (PyStr.drop_tail p (PyStr.collapse_ws stripped))
               = PyStr.drop_tail p (PyStr.collapse_ws stripped)).
  { apply lstrip_fixed.
    destruct (drop_tail_head p (PyStr.collapse_ws stripped)) as [-> | ->]; [done|].
    by rewrite collapse_head. }
  rewrite Hl. apply drop_tail_fixed.
  destruct (PyStr.last_char None _) as [c|]; [|done]. by destruct Hlast.
Qed.

Lemma all_chars_of_list (p : ascii -> bool) (l : list ascii) :
  PyStr.all_chars p (string_of_list_ascii l) = forallb p l.
Proof. induction l as [|c l IH]; [done|]. cbn. by rewrite IH. Qed.

Lemma split_ws_from_tokens (cur : list ascii) (s : string) :
  forallb not_space cur = true ->
  Forall (fun token => token ≠ "" /\ PyStr.all_chars not_space token = true)
         (PyStr.split_ws_from cur s).
Proof.
  assert (Hflush : forall cur, forallb not_space cur = true ->
            Forall (fun token => token ≠ "" /\ PyStr.all_chars not_space token = true)
              match cur with [] => [] | _ => [string_of_list_ascii (rev cur)] end).
  { intros [|c l] Hcur; [constructor|]. constructor; [|constructor]. split.
    - cbn [rev]. destruct (rev l); done.
    - rewrite all_chars_of_list, forallb_forall. intros x Hx%in_rev.
      rewrite forallb_forall in Hcur. by apply Hcur. }
  revert cur. induction s as [|c r IH]; intros cur Hcur; cbn [PyStr.split_ws_from].
  - by apply Hflush.
  - destruct (PyStr.is_space c) eqn:Hc.
    + apply Forall_app. split; [by apply Hflush|by apply IH].
    + apply IH. cbn [forallb]. unfold not_space at 1. by rewrite Hc.
Qed.

Lemma strip_token (token : string) :
  token ≠ "" -> PyStr.all_chars not_space token = true -> PyStr.strip token = token.
Proof.
  intros Hne Hall. unfold PyStr.strip, PyStr.rstrip.
  assert (Hl : PyStr.lstrip token = token).
  { destruct token as [|c r]; [done|]. cbn in *.
    apply andb_true_iff in Hall as [Hc _]. unfold not_space in Hc.
    apply negb_true_iff in Hc. by rewrite Hc. }
  rewrite Hl. clear Hl Hne. induction token as [|c r IH]; [done|].
  cbn [PyStr.all_chars] in Hall. apply andb_true_iff in Hall as [Hc Hr].
  unfold not_space in Hc. apply negb_true_iff in Hc.
  cbn [PyStr.drop_tail PyStr.all_chars]. rewrite Hc. cbn [andb]. by rewrite (IH Hr).
Qed.

Lemma name_tokens_kept (tokens : list string) :
  Forall (fun token => token ≠ "" /\ PyStr.all_chars not_space token = true) tokens ->
  List.map PyStr.strip
    (List.filter (fun part => negb (String.eqb (PyStr.strip part) "")) tokens) = tokens.
Proof.
  induction 1 as [|token rest [Hne Hall] _ IH]; [done|].
  cbn [List.filter]. rewrite (strip_token _ Hne Hall).
  apply String.eqb_neq in Hne. rewrite Hne. cbn [negb List.map].
  apply String.eqb_neq in Hne. by rewrite (strip_token _ Hne Hall), IH.
Qed.

(** X9.  For every text, [extract_name_parts] returns: the first name is
    the first white-space separated token (it holds no white space), the
    last name is all the other tokens joined by single blanks, and both are
    empty when the text has no token. *)
Theorem extract_name_parts_tokens (full_name : string) :
  exists parts : name_parts,
    extract_name_parts (PStr full_name) = Some parts /\
    first_name parts = hd "" (PyStr.split_ws full_name) /\
    last_name parts = PyStr.join " " (tl (PyStr.split_ws full_name)) /\
    PyStr.all_chars not_space (first_name parts) = true.
Proof.
  unfold extract_name_parts. cbn [truthy as_str mbind option_bind].
  destruct (String.eqb_spec full_name "") as [->|Hne]; cbn [negb].
  { by eexists. }
  pose proof (split_ws_from_tokens [] full_name eq_refl) as Htokens.
  fold (PyStr.split_ws full_name) in Htokens.
  rewrite (name_tokens_kept _ Htokens).
  destruct (PyStr.split_ws full_name) as [|first [|second rest]].
  - by eexists.
  - eexists. repeat split. cbn. apply Forall_cons in Htokens as [[_ ?] _]. done.
  - eexists. repeat split. cbn [first_name hd].
    apply Forall_cons in Htokens as [[_ ?] _]. done.
Qed.

End Texts.

(** ** More on the email stage *)

Section EmailStageMore.
Import EmailFinder.

Variable env : outside.

Lemma call_hit (first_name last_name : string) (company_website : pyval)
    (w : world) (d : dict) :
  (_call_prospeo_api env first_name last_name company_website w).1 = Some d ->
  exists data,
    prospeo env (http_calls w) = Response 200 (Some data) /\
    truthy (get data "email") = true /\
    get data "status" = PStr "VALID" /\
    d = email_data_of data.
Proof.
  unfold _call_prospeo_api.
  destruct (_extract_domain company_website) as [domain|]; [|done].
  unfold io_bind, post. cbn zeta. cbn [fst snd].
  destruct (prospeo env (http_calls w)) as [status_code [data|]| |]; try done.
  - destruct (Z.eqb_spec status_code 200) as [->|_].
    + destruct (truthy (get data "email")) eqn:Hemail; [|done].
      destruct (bool_decide_reflect (get data "status" = PStr "VALID")) as [Hstatus|_];
        [|done].
      cbn [andb io_ret fst]. intros [= <-]. by exists data.
    + by destruct (status_code =? 429)%Z.
  - destruct (status_code =? 200)%Z; [done|]. by destruct (status_code =? 429)%Z.
Qed.

Lemma email_data_fields (data : dict) :
  get (email_data_of data) "email" = get data "email" /\
  get_or (email_data_of data) "status" (PStr "unknown")
    = get_or data "status" (PStr "unknown") /\
  get_or (email_data_of data) "confidence" (PStr "unknown")
    = get_or data "confidence" (PStr "unknown").
Proof. repeat split; reflexivity. Qed.

Lemma find_email_hit (lead : dict) (w : world) (d : dict) :
  (find_email env lead w).1 = Some d ->
  truthy (get d "email") = true /\ get_or d "status" (PStr "unknown") = PStr "VALID".
Proof.
  unfold find_email.
  destruct (negb (truthy (get_or lead "job_poster_name" (PStr "")))); [done|].
  destruct (as_str (get_or lead "job_poster_name" (PStr ""))) as [full_name|]; [|done].
  destruct (PyStr.split_ws full_name) as [|first_name [|second rest]]; [done..|].
  destruct (negb (truthy (get_or lead "company_website" (PStr "")))); [done|].
  unfold io_bind. cbn zeta.
  destruct (_call_prospeo_api env first_name _ _ w) as [[d'|] w1] eqn:Hcall;
    cbn [fst snd]; [|done].
  destruct (truthy (get d' "email")) eqn:Hemail; [|done].
  cbn [io_ret fst]. intros [= <-]. split; [done|].
  pose proof (call_hit first_name (PyStr.join " " (second :: rest))
                (get_or lead "company_website" (PStr "")) w d') as Hhit.
  rewrite Hcall in Hhit.
  destruct (Hhit eq_refl) as (data & _ & _ & Hstatus & ->).
  destruct (email_data_fields data) as (_ & -> & _).
  unfold get, get_or in *. destruct (data !! "status"); [by subst|done].
Qed.

Lemma find_emails_step_enriched (lead : dict) (w : world) :
  email_enriched lead (find_emails_step env lead w).1.
Proof.
  unfold find_emails_step, io_bind, sleep, io_ret. cbn zeta. cbn [fst snd].
  destruct (find_email env lead w) as [[d|] w1] eqn:Hfind; cbn [fst snd].
  - pose proof (find_email_hit lead w d) as Hhit. rewrite Hfind in Hhit.
    destruct (Hhit eq_refl) as [Hemail Hstatus]. unfold with_email. split.
    + intros k Hk. unfold enrichment_key in Hk.
      apply orb_false_iff in Hk as [[H1 H2]%orb_false_iff H3].
      apply String.eqb_neq in H1, H2, H3. by rewrite !lookup_insert_ne.
    + left. split; [by rewrite lookup_insert_eq, Hstatus|].
      unfold get, get_or. rewrite !lookup_insert_ne by done.
      by rewrite lookup_insert_eq.
  - unfold without_email. split.
    + intros k Hk. unfold enrichment_key in Hk.
      apply orb_false_iff in Hk as [[H1 H2]%orb_false_iff H3].
      apply String.eqb_neq in H1, H2, H3. by rewrite !lookup_insert_ne.
    + right. split; [apply lookup_insert_eq|]. split.
      * rewrite !lookup_insert_ne by done. apply lookup_insert_eq.
      * rewrite lookup_insert_ne by done. apply lookup_insert_eq.
Qed.

(** X10.  A run of the email stage returns one lead for each lead it was
    given, in the same order.  Each of them differs from the lead it comes
    from in the three enrichment fields at most, and either has the status
    [VALID] and a non-empty email, or has the status [not_found], an empty
    email and an empty confidence. *)
Theorem email_batch_enriches (leads : list dict) (w : world) :
  Forall2 email_enriched leads (find_emails_batch env leads w).1.
Proof.
  revert w. induction leads as [|lead rest IH]; intros w; [constructor|].
  cbn [find_emails_batch]. unfold io_bind, io_ret. cbn zeta. cbn [fst snd].
  constructor; [apply find_emails_step_enriched|apply IH].
Qed.

Lemma call_counts (first_name last_name website : string) (w : world) :
  website ≠ "" ->
  exists evs,
    trace (_call_prospeo_api env first_name last_name (PStr website) w).2
      = trace w ++ EvPost first_name last_name (domain_of website) :: evs /\
    Forall (fun e => exists d, e = EvSleep d) evs /\
    http_calls (_call_prospeo_api env first_name last_name (PStr website) w).2
      = S (http_calls w).
Proof.
  intros Hne. unfold _call_prospeo_api, _extract_domain.
  cbn [truthy as_str mbind option_bind]. apply String.eqb_neq in Hne. rewrite Hne.
  cbn [negb]. unfold io_bind, post. cbn zeta. cbn [fst snd].
  destruct (prospeo env (http_calls w)) as [status_code data| |];
    try (by exists []).
  destruct (status_code =? 200)%Z.
  - destruct data as [data|]; [destruct (truthy (get data "email") && _)|]; by exists [].
  - destruct (status_code =? 429)%Z; [|by exists []].
    exists [EvSleep (Seconds 60)]. split; [cbn; by rewrite <- app_assoc|].
    split; [|done]. constructor; [by eexists|constructor].
Qed.

(** X11.  The email stage asks the collaborator about a lead exactly when
    the lead's poster name has at least two tokens and its company website
    is a non-empty text: one request then, none otherwise.  A lead it does
    not ask about gets the status [not_found]. *)
Theorem email_step_contacts_iff (lead : dict) (w : world) :
  http_calls (find_emails_step env lead w).2
    = (http_calls w + if lookup_possible lead then 1 else 0)%nat /\
  (lookup_possible lead = false ->
   (find_emails_step env lead w).1 = without_email lead /\
   trace (find_emails_step env lead w).2 = trace w ++ [EvSleep ConfiguredWait]).
Proof.
  unfold find_emails_step, find_email, lookup_possible, io_bind, sleep, io_ret, log.
  cbn zeta.
  destruct (get_or lead "job_poster_name" (PStr "")) as [|full_name|z];
    cbn [truthy negb as_str andb fst snd http_calls trace].
  - split; [lia|done].
  - destruct (String.eqb_spec full_name "") as [->|Hne]; cbn [negb fst snd http_calls trace].
    { split; [cbn; lia|done]. }
    destruct (PyStr.split_ws full_name) as [|first_name [|second rest]];
      cbn [List.length Nat.leb andb fst snd http_calls trace];
      [split; [lia|done]..|].
    destruct (get_or lead "company_website" (PStr "")) as [|website|z];
      cbn [truthy negb fst snd http_calls trace].
    + split; [lia|done].
    + destruct (String.eqb_spec website "") as [->|Hweb];
        cbn [negb fst snd http_calls trace]; [split; [lia|done]|].
      destruct (call_counts first_name (PyStr.join " " (second :: rest)) website w Hweb)
        as (evs & _ & _ & Hcalls).
      split; [|done].
      destruct (_call_prospeo_api env first_name _ _ w) as [[d|] w1];
        cbn [fst snd] in *; [destruct (truthy (get d "email"))|];
        cbn [fst snd http_calls]; lia.
    + destruct (z =? 0)%Z eqn:Hz; cbn [negb fst snd http_calls trace];
        [split; [lia|done]|].
      unfold _call_prospeo_api, _extract_domain.
      cbn [truthy as_str mbind option_bind]. rewrite Hz.
      cbn [negb io_ret fst snd http_calls trace]. split; [lia|done].
  - destruct (z =? 0)%Z; cbn [negb fst snd http_calls trace]; split; try lia; done.
Qed.

(** X12.  For a lead whose poster name splits into two tokens or more and
    whose company website is a non-empty text, the request sent to the
    email collaborator carries the very name parts the normaliser extracts
    and the domain of the website; and when the reply is a 200 with a
    non-empty email and the status VALID, the lead gets that email, the
    status VALID and the reply's confidence, [unknown] when it has none. *)
Theorem email_request_and_hit (lead : dict) (w : world)
    (full_name website first second : string) (rest : list string) :
  lead !! "job_poster_name" = Some (PStr full_name) ->
  PyStr.split_ws full_name = first :: second :: rest ->
  lead !! "company_website" = Some (PStr website) ->
  website ≠ "" ->
  DataProcessor.extract_name_parts (PStr full_name)
    = Some {| DataProcessor.first_name := first;
              DataProcessor.last_name := PyStr.join " " (second :: rest) |} /\
  (exists evs,
     trace (find_emails_step env lead w).2
     = trace w ++ EvPost first (PyStr.join " " (second :: rest)) (domain_of website) :: evs /\
     Forall (fun e => exists d, e = EvSleep d) evs) /\
  (forall data,
     prospeo env (http_calls w) = Response 200 (Some data) ->
     truthy (get data "email") = true ->
     get data "status" = PStr "VALID" ->
     (find_emails_step env lead w).1 !! "email" = Some (get data "email") /\
     (find_emails_step env lead w).1 !! "email_status" = Some (PStr "VALID") /\
     (find_emails_step env lead w).1 !! "email_confidence"
       = Some (get_or data "confidence" (PStr "unknown"))).
Proof.
  intros Hname Hsplit Hweb Hne.
  assert (Hfull : full_name ≠ "") by (intros ->; done).
  split; [|split].
  - unfold DataProcessor.extract_name_parts. cbn [truthy as_str mbind option_bind].
    apply String.eqb_neq in Hfull. rewrite Hfull. cbn [negb].
    pose proof (split_ws_from_tokens [] full_name eq_refl) as Htokens.
    fold (PyStr.split_ws full_name) in Htokens.
    by rewrite (name_tokens_kept _ Htokens), Hsplit.
  - destruct (call_counts first (PyStr.join " " (second :: rest)) website w Hne)
      as (evs & Htrace & Hsleeps & _).
    exists (evs ++ [EvSleep ConfiguredWait]). split.
    + unfold find_emails_step, find_email, io_bind, sleep, io_ret, log. cbn zeta.
      rewrite (get_or_Some _ _ _ _ Hname), (get_or_Some _ _ _ _ Hweb).
      cbn [truthy as_str]. apply String.eqb_neq in Hfull, Hne. rewrite Hfull, Hne, Hsplit.
      cbn [negb].
      destruct (_call_prospeo_api env first _ _ w) as [[d|] w1];
        cbn [fst snd] in *; [destruct (truthy (get d "email"))|];
        cbn [fst snd trace]; by rewrite Htrace, <- app_assoc.
    + apply Forall_app. split; [done|]. constructor; [by eexists|constructor].
  - intros data Hreply Hemail Hstatus.
    assert (Hfind : (find_email env lead w).1 = Some (email_data_of data)).
    { unfold find_email, io_bind. cbn zeta.
      rewrite (get_or_Some _ _ _ _ Hname), (get_or_Some _ _ _ _ Hweb).
      cbn [truthy as_str]. apply String.eqb_neq in Hfull, Hne. rewrite Hfull, Hne, Hsplit.
      cbn [negb]. unfold _call_prospeo_api, _extract_domain.
      cbn [truthy as_str mbind option_bind]. rewrite Hne. cbn [negb].
      unfold io_bind, post. cbn zeta. cbn [fst snd]. rewrite Hreply.
      cbn [Z.eqb Pos.eqb]. rewrite Hemail, Hstatus.
      rewrite bool_decide_eq_true_2 by done. cbn [andb io_ret fst snd].
      destruct (email_data_fields data) as (-> & _ & _). by rewrite Hemail. }
    unfold find_emails_step, io_bind, sleep, io_ret. cbn zeta. cbn [fst snd].
    rewrite Hfind. unfold with_email.
    destruct (email_data_fields data) as (He & Hs & Hc).
    split; [|split].
    + rewrite !lookup_insert_ne by done. by rewrite lookup_insert_eq, He.
    + rewrite lookup_insert_eq, Hs. clear -Hstatus. unfold get, get_or in *.
      destruct (data !! "status") as [v|]; cbn in Hstatus |- *; [by rewrite Hstatus|done].
    + rewrite lookup_insert_ne by done. by rewrite lookup_insert_eq, Hc.
Qed.

End EmailStageMore.

Lemma email_request_and_hit_witness :
  DataProcessor.extract_name_parts (PStr "John Smith")
    = Some {| DataProcessor.first_name := "John"; DataProcessor.last_name := "Smith" |} /\
  (exists evs,
     trace (EmailFinder.find_emails_step env_hit john_lead world0).2
     = EvPost "John" "Smith" "acme.com" :: evs /\
     Forall (fun e => exists d, e = EvSleep d) evs) /\
  (EmailFinder.find_emails_step env_hit john_lead world0).1 !! "email"
    = Some (PStr "john.smith@acme.com") /\
  (EmailFinder.find_emails_step env_hit john_lead world0).1 !! "email_status"
    = Some (PStr "VALID") /\
  (EmailFinder.find_emails_step env_hit john_lead world0).1 !! "email_confidence"
    = Some (PInt 97).
Proof.
  destruct (email_request_and_hit env_hit john_lead world0
              "John Smith" "https://www.acme.com/careers" "John" "Smith" [])
    as (Hparts & Htrace & Hhit);
    [vm_compute; reflexivity | vm_compute; reflexivity | vm_compute; reflexivity
    | discriminate |].
  split; [exact Hparts|]. split; [exact Htrace|].
  apply (Hhit hit_data); vm_compute; reflexivity.
Defined.

(** ** More on the compliment stage *)

Section ComplimentStageMore.
Import AIComplimentGenerator.

Variable env : outside.

Lemma replace_nonempty (old new s : string) :
  s ≠ "" -> new ≠ "" -> PyStr.replace old new s ≠ "".
Proof.
  intros Hs Hnew. destruct s as [|c r]; [done|]. unfold PyStr.replace.
  cbn [PyStr.replace_from]. destruct (PyStr.startswith old (String c r)); [|done].
  destruct new; [done|]. done.
Qed.

Lemma templates_nonempty (template : string) :
  In template fallback_compliments -> template ≠ "".
Proof.
  unfold fallback_compliments. cbn [In].
  intros H. repeat (destruct H as [<-|H]; [done|]). done.
Qed.

Lemma fallback_for_nonempty (company_name template : string) :
  template ≠ "" -> fallback_for company_name template ≠ "".
Proof.
  intros Ht. unfold fallback_for, personalize.
  destruct (decide _) as [[Hname _]|_]; [|done].
  by apply replace_nonempty; [apply replace_nonempty|].
Qed.

Lemma get_fallback_nameable (company_name : pyval) (w : world) :
  nameable company_name = true ->
  exists text, (_get_fallback_compliment env company_name w).1 = Some text /\ text ≠ "".
Proof.
  intros Hname.
  assert (Htemplate : nth (random_index env (draws w) mod 10) fallback_compliments "" ≠ "").
  { apply templates_nonempty, nth_In.
    change (List.length fallback_compliments) with 10. by apply Nat.mod_upper_bound. }
  destruct company_name as [|name|z].
  - eexists. split; [reflexivity|]. exact Htemplate.
  - rewrite get_fallback_text. eexists. split; [reflexivity|].
    by apply fallback_for_nonempty.
  - cbn [nameable] in Hname. unfold _get_fallback_compliment, io_bind, random_choice.
    cbn zeta. cbn [fst snd truthy]. rewrite Hname. cbn [negb].
    eexists. split; [reflexivity|]. exact Htemplate.
Qed.

Lemma generate_compliment_nameable (company_name website_content : pyval) (w : world) :
  nameable company_name = true ->
  exists text,
    (generate_compliment env company_name website_content w).1 = Some text /\
    text ≠ "".
Proof.
  intros Hname. unfold generate_compliment, io_bind. cbn zeta.
  destruct (_generate_ai_compliment env company_name website_content w)
    as [[text|] w1]; cbn [fst snd].
  - destruct (String.eqb_spec text "") as [->|Hne]; cbn [negb].
    + destruct (get_fallback_nameable company_name w1 Hname) as (fb & Hfb & Hne).
      rewrite Hfb. by exists fb.
    + by exists text.
  - destruct (get_fallback_nameable company_name w1 Hname) as (fb & Hfb & Hne).
    rewrite Hfb. by exists fb.
Qed.

(** X14.  Whatever the text generator does, [generate_compliment] returns,
    without raising, a compliment that is not empty, for every company name
    that is a text or is missing. *)
Theorem generate_compliment_total (company_name website_content : pyval) (w : world) :
  nameable company_name = true ->
  exists text,
    (generate_compliment env company_name website_content w).1 = Some text /\
    text ≠ "".
Proof. apply generate_compliment_nameable. Qed.

(** X15.  When the text generator answers with a text that passes
    validation once stripped, [generate_compliment] returns that stripped
    text, of 20 to 300 characters, and draws no fallback. *)
Theorem generate_compliment_accepts (company_name website_content : pyval)
    (content reply : string) (w : world) :
  as_str website_content = Some content ->
  openai env (chat_calls w) = ChatContent reply ->
  ~ fails_validation (PyStr.strip reply) ->
  (generate_compliment env company_name website_content w).1
    = Some (PyStr.strip reply) /\
  draws (generate_compliment env company_name website_content w).2 = draws w /\
  (20 <= String.length (PyStr.strip reply) <= 300)%nat.
Proof.
  intros Hcontent Hreply Hvalid.
  assert (Hok : _validate_compliment (PyStr.strip reply) = true).
  { destruct (_validate_compliment (PyStr.strip reply)) eqn:Hv; [done|].
    by apply validate_false_iff in Hv. }
  assert (Hne : PyStr.strip reply ≠ "").
  { intros Hempty. apply Hvalid. left. rewrite Hempty. cbn. lia. }
  unfold generate_compliment, _generate_ai_compliment, io_bind, chat. cbn zeta.
  rewrite Hcontent. cbn [fst snd]. rewrite Hreply, Hok. cbn [io_ret fst snd].
  apply String.eqb_neq in Hne. rewrite Hne. cbn [negb io_ret fst snd draws].
  split; [done|]. split; [done|].
  unfold fails_validation in Hvalid. lia.
Qed.

(** X16.  A compliment batch over leads whose company names are texts or
    missing returns, without raising, one lead for each lead given, in the
    same order: the same lead with a non-empty compliment set and nothing
    else changed. *)
Theorem compliment_batch_total (leads : list dict) (w : world) :
  forallb (fun lead => nameable (get_or lead "company_name" (PStr ""))) leads = true ->
  exists results,
    (generate_compliments_batch env leads w).1 = Some results /\
    Forall2 complimented leads results.
Proof.
  revert w. induction leads as [|lead rest IH]; intros w Hleads.
  - exists []. split; [done|constructor].
  - cbn [forallb] in Hleads. apply andb_true_iff in Hleads as [Hlead Hrest].
    cbn [generate_compliments_batch]. unfold io_bind. cbn zeta.
    destruct (generate_compliment_nameable (get_or lead "company_name" (PStr ""))
                (get_or lead "website_content" (PStr "")) w Hlead) as (text & Htext & Hne).
    rewrite Htext.
    destruct (IH (generate_compliment env (get_or lead "company_name" (PStr ""))
                    (get_or lead "website_content" (PStr "")) w).2 Hrest)
      as (results & Hresults & Hall).
    cbn [io_ret fst snd]. rewrite Hresults.
    exists (<["compliment" := PStr text]> lead :: results). split; [done|].
    constructor; [by exists text|done].
Qed.

(** X17.  A lead whose company name is a number other than zero, met when
    the generation fails, makes the whole compliment batch raise: the
    fallback takes the length of the name, and the handler of
    [generate_compliment] calls the fallback again. *)
Theorem compliment_batch_raises (lead : dict) (rest : list dict) (z : Z) (w : world) :
  lead !! "company_name" = Some (PInt z) ->
  z ≠ 0%Z ->
  as_str (get_or lead "website_content" (PStr "")) = None \/
    generation_fails (openai env (chat_calls w)) ->
  (generate_compliments_batch env (lead :: rest) w).1 = None.
Proof.
  intros Hname Hz Hfail.
  destruct (generate_ai_fails env (PInt z) (get_or lead "website_content" (PStr "")) w Hfail)
    as [Hnone _].
  cbn [generate_compliments_batch]. unfold io_bind. cbn zeta.
  rewrite (get_or_Some _ _ _ _ Hname).
  assert (Hfb : forall w', (_get_fallback_compliment env (PInt z) w').1 = None).
  { intros w'. unfold _get_fallback_compliment, io_bind, random_choice.
    cbn zeta. cbn [fst snd truthy]. apply Z.eqb_neq in Hz. by rewrite Hz. }
  assert (Hgen : (generate_compliment env (PInt z)
                    (get_or lead "website_content" (PStr "")) w).1 = None).
  { unfold generate_compliment, io_bind. cbn zeta. rewrite Hnone.
    by rewrite !Hfb. }
  by rewrite Hgen.
Qed.

End ComplimentStageMore.

Lemma generate_compliment_total_witness :
  exists text,
    (AIComplimentGenerator.generate_compliment (env_short 2) (PStr "Acme") PNone world0).1
      = Some text /\
    text ≠ "".
Proof.
  apply (generate_compliment_total (env_short 2) (PStr "Acme") PNone world0).
  reflexivity.
Defined.

Lemma compliment_batch_total_witness :
  exists results,
    (AIComplimentGenerator.generate_compliments_batch (env_short 2)
       [john_lead; jane_lead] world0).1 = Some results /\
    Forall2 complimented [john_lead; jane_lead] results.
Proof.
  apply (compliment_batch_total (env_short 2) [john_lead; jane_lead] world0).
  vm_compute. reflexivity.
Defined.

Lemma compliment_batch_raises_witness :
  (AIComplimentGenerator.generate_compliments_batch (env_short 2)
     (<["company_name" := PInt 7]> john_lead :: [jane_lead]) world0).1 = None.
Proof.
  apply (compliment_batch_raises (env_short 2) (<["company_name" := PInt 7]> john_lead)
           [jane_lead] 7 world0).
  - vm_compute. reflexivity.
  - discriminate.
  - right. left. vm_compute. lia.
Defined.

Lemma generate_compliment_accepts_witness :
  (AIComplimentGenerator.generate_compliment env_praise (PStr "Acme") (PStr "") world0).1
    = Some (PyStr.strip "  Your onboarding guide is clear and quick to follow.  ") /\
  draws (AIComplimentGenerator.generate_compliment env_praise (PStr "Acme") (PStr "") world0).2
    = draws world0 /\
  (20 <= String.length (PyStr.strip "  Your onboarding guide is clear and quick to follow.  ")
      <= 300)%nat.
Proof.
  apply (generate_compliment_accepts env_praise (PStr "Acme") (PStr "") ""
           "  Your onboarding guide is clear and quick to follow.  " world0).
  - reflexivity.
  - reflexivity.
  - intros Hfails. apply validate_false_iff in Hfails. vm_compute in Hfails.
    discriminate Hfails.
Defined.

(** ** More on deduplication against the persisted store *)

Section StoreDedupMore.
Import GoogleSheetsManager.

(** X18.  Persisted-store deduplication never invents, changes or reorders
    leads: what it returns is a selection of the leads it was given, in the
    order it was given them. *)
Theorem check_duplicate_leads_sublist (existing_leads new_leads : list dict) :
  sublist (check_duplicate_leads existing_leads new_leads) new_leads.
Proof.
  unfold check_duplicate_leads, check_duplicate_leads_try.
  destruct existing_leads as [|l0 rest]; [done|].
  destruct (existing_combinations_from ∅ (l0 :: rest)) as [keys|]; [|done].
  cbn [mbind option_bind].
  destruct (unique_leads_from (l0 :: rest) keys new_leads) as [out|] eqn:Hrun; [|done].
  by eapply unique_leads_from_sublist.
Qed.

Lemma existing_combinations_untyped (existing_leads : list dict) (acc : gset string) :
  forallb typed existing_leads = false ->
  existing_combinations_from acc existing_leads = None.
Proof.
  revert acc. induction existing_leads as [|lead rest IH]; intros acc; [done|].
  cbn [forallb existing_combinations_from]. unfold typed at 1.
  destruct (lower_field lead "email") as [email|]; [|done].
  destruct (lower_field lead "company_name") as [company|]; [|done].
  cbn [andb mbind option_bind]. intros Hrest.
  destruct (nonempty email && nonempty company); by apply IH.
Qed.

Lemma unique_leads_untyped (existing_leads new_leads : list dict)
    (combinations : gset string) :
  forallb typed new_leads = false ->
  unique_leads_from existing_leads combinations new_leads = None.
Proof.
  revert combinations. induction new_leads as [|lead rest IH]; intros combinations; [done|].
  cbn [forallb unique_leads_from]. unfold typed at 1.
  destruct (lower_field lead "email") as [email|]; [|done].
  destruct (lower_field lead "company_name") as [company|]; [|done].
  cbn [andb mbind option_bind]. intros Hrest.
  destruct (nonempty email && nonempty company).
  - destruct (decide _); by rewrite IH.
  - destruct (nonempty company); [|by rewrite IH].
    destruct (existing_company_names existing_leads) as [names|]; [|done].
    cbn [mbind option_bind]. destruct (decide _); by rewrite IH.
Qed.

(** X19.  Deduplication gives up as a whole, and returns the batch as it
    was given, as soon as one email or company name is not a text: in any
    stored lead, or, the store not being empty, in any lead of the
    batch. *)
Theorem check_duplicate_leads_degrades (existing_leads new_leads : list dict) :
  forallb typed existing_leads = false \/
    (existing_leads ≠ [] /\ forallb typed new_leads = false) ->
  check_duplicate_leads existing_leads new_leads = new_leads.
Proof.
  unfold check_duplicate_leads, check_duplicate_leads_try.
  intros [Hstore|[Hne Hbatch]].
  - destruct existing_leads as [|l0 rest]; [done|].
    by rewrite (existing_combinations_untyped _ _ Hstore).
  - destruct existing_leads as [|l0 rest]; [done|].
    destruct (existing_combinations_from ∅ (l0 :: rest)) as [keys|]; [|done].
    cbn [mbind option_bind]. by rewrite (unique_leads_untyped _ _ _ Hbatch).
Qed.

Lemma unique_leads_from_again (existing_leads new_leads unique_leads : list dict)
    (combinations : gset string) :
  unique_leads_from existing_leads combinations new_leads = Some unique_leads ->
  unique_leads_from existing_leads combinations unique_leads = Some unique_leads.
Proof.
  revert combinations unique_leads.
  induction new_leads as [|lead rest IH]; intros combinations out.
  { by intros [= <-]. }
  cbn [unique_leads_from].
  destruct (lower_field lead "email") as [email|] eqn:Hemail; [|done].
  destruct (lower_field lead "company_name") as [company|] eqn:Hcompany; [|done].
  cbn [mbind option_bind].
  destruct (nonempty email && nonempty company) eqn:Hboth.
  - destruct (decide (combination_of email company ∈ combinations)) as [Hin|Hout];
      [apply IH|].
    destruct (unique_leads_from existing_leads _ rest) as [out'|] eqn:Hrest; [|done].
    intros [= <-]. cbn [unique_leads_from]. rewrite Hemail, Hcompany.
    cbn [mbind option_bind]. rewrite Hboth, decide_False by done.
    by rewrite (IH _ _ Hrest).
  - destruct (nonempty company) eqn:Hc; [|apply IH].
    destruct (existing_company_names existing_leads) as [names|] eqn:Hnames; [|done].
    cbn [mbind option_bind].
    destruct (decide (company ∈ names)) as [Hin|Hout]; [apply IH|].
    destruct (unique_leads_from existing_leads _ rest) as [out'|] eqn:Hrest; [|done].
    intros [= <-]. cbn [unique_leads_from]. rewrite Hemail, Hcompany.
    cbn [mbind option_bind]. rewrite Hc, Hboth, Hnames. cbn [mbind option_bind].
    rewrite decide_False by done. by rewrite (IH _ _ Hrest).
Qed.

(** X20.  Against an unchanged store, deduplication is idempotent: a
    second pass over what a first pass returned returns the same leads. *)
Theorem check_duplicate_leads_idempotent (existing_leads new_leads : list dict) :
  check_duplicate_leads existing_leads (check_duplicate_leads existing_leads new_leads)
  = check_duplicate_leads existing_leads new_leads.
Proof.
  assert (Hagain : forall out,
             check_duplicate_leads_try existing_leads new_leads = Some out ->
             check_duplicate_leads_try existing_leads out = Some out).
  { unfold check_duplicate_leads_try. intros out.
    destruct existing_leads as [|l0 rest]; [done|].
    destruct (existing_combinations_from ∅ (l0 :: rest)) as [keys|]; [|done].
    cbn [mbind option_bind]. apply unique_leads_from_again. }
  unfold check_duplicate_leads.
  destruct (check_duplicate_leads_try existing_leads new_leads) as [out|] eqn:Htry.
  - by rewrite (Hagain out).
  - by rewrite Htry.
Qed.

End StoreDedupMore.

Lemma check_duplicate_leads_degrades_witness :
  GoogleSheetsManager.check_duplicate_leads
    [<["email" := PNone]> (lead_of "a@x.com" "Acme")]
    [lead_of "a@x.com" "Acme"]
  = [lead_of "a@x.com" "Acme"].
Proof.
  apply (check_duplicate_leads_degrades
           [<["email" := PNone]> (lead_of "a@x.com" "Acme")] [lead_of "a@x.com" "Acme"]).
  left. vm_compute. reflexivity.
Defined.

(** ** Writing leads to the sheet and reading them back *)

Section Sheet.
Import SheetStore GoogleSheetsManager.

Lemma row_to_lead_other (lead : dict) (i : nat) (hs row : list string) (k : string) :
  k ∉ header_key <$> hs ->
  row_to_lead lead i hs row !! k = lead !! k.
Proof.
  revert lead i. induction hs as [|h rest IH]; intros lead i Hk; [done|].
  cbn [row_to_lead]. rewrite fmap_cons, not_elem_of_cons in Hk. destruct Hk as [Hne Hk].
  rewrite (IH _ _ Hk). by rewrite lookup_insert_ne.
Qed.

Lemma row_to_lead_at (lead : dict) (i j : nat) (hs row : list string) (h : string) :
  NoDup (header_key <$> hs) ->
  hs !! j = Some h ->
  row_to_lead lead i hs row !! header_key h
  = Some (PStr (match row !! (i + j)%nat with Some c => c | None => "" end)).
Proof.
  revert lead i j. induction hs as [|h0 rest IH]; intros lead i j Hnodup Hj; [done|].
  rewrite fmap_cons in Hnodup. apply NoDup_cons in Hnodup as [Hfresh Hnodup].
  cbn [row_to_lead]. destruct j as [|j].
  - injection Hj as ->. rewrite (row_to_lead_other _ _ _ _ _ Hfresh).
    by rewrite lookup_insert_eq, Nat.add_0_r.
  - cbn in Hj. rewrite (IH _ (S i) j Hnodup Hj). by rewrite Nat.add_succ_r.
Qed.

Lemma row_to_lead_padding (lead : dict) (i n : nat) (hs row : list string) :
  row_to_lead lead i hs (row ++ repeat "" n) = row_to_lead lead i hs row.
Proof.
  revert lead i. induction hs as [|h rest IH]; intros lead i; [done|].
  cbn [row_to_lead]. rewrite IH. do 3 f_equal.
  destruct (decide (i < List.length row)%nat) as [Hlt|Hge].
  - by rewrite lookup_app_l.
  - rewrite lookup_app_r by lia. rewrite (lookup_ge_None_2 row) by lia.
    destruct (repeat "" n !! (i - List.length row)%nat) as [c|] eqn:Hc; [|done].
    apply list_elem_of_lookup_2, list_elem_of_In, repeat_spec in Hc. by subst.
Qed.

Lemma row_to_lead_texts (lead : dict) (i : nat) (hs row : list string) :
  (forall k v, lead !! k = Some v -> exists s, v = PStr s) ->
  forall k v, row_to_lead lead i hs row !! k = Some v -> exists s, v = PStr s.
Proof.
  revert lead i. induction hs as [|h rest IH]; intros lead i Hlead; [done|].
  cbn [row_to_lead]. apply IH. intros k v.
  destruct (decide (header_key h = k)) as [<-|Hne].
  - rewrite lookup_insert_eq. intros [= <-]. by eexists.
  - rewrite lookup_insert_ne by done. apply Hlead.
Qed.

Lemma texts_typed (lead : dict) :
  (forall k v, lead !! k = Some v -> exists s, v = PStr s) -> typed lead = true.
Proof.
  intros Htexts. unfold typed, lower_field, get_or.
  assert (H : forall k, exists s, as_str (default (PStr "") (lead !! k)) = Some s).
  { intros k. destruct (lead !! k) as [v|] eqn:Hk; [|by eexists].
    destruct (Htexts _ _ Hk) as [s ->]. by eexists. }
  destruct (H "email") as [e ->]. by destruct (H "company_name") as [c ->].
Qed.

(** Whatever the sheet answers, the leads that [get_existing_leads]
    returns hold texts only, so that deduplication never gives up because
    of the store; and nothing is returned when the service is missing, the
    read fails, the sheet has no values, or has its header row only. *)
Theorem existing_leads_are_texts (service : bool) (reply : sheet_reply) :
  Forall (fun lead => forall k v, lead !! k = Some v -> exists s, v = PStr s)
         (get_existing_leads service reply) /\
  forallb typed (get_existing_leads service reply) = true /\
  (service = false \/ reply = SheetError \/ reply = SheetResult None \/
   (exists hs, reply = SheetResult (Some [hs])) ->
   get_existing_leads service reply = []).
Proof.
  assert (Htexts : Forall (fun lead => forall k v, lead !! k = Some v -> exists s, v = PStr s)
                     (get_existing_leads service reply)).
  { unfold get_existing_leads. destruct service; [|constructor].
    destruct reply as [[[|hs rows]|]|]; cbn [negb]; try constructor.
    destruct (_ <? 2)%nat; [constructor|].
    apply Forall_forall. intros lead (row & <- & _)%list_elem_of_In%in_map_iff.
    apply row_to_lead_texts. intros k v. by rewrite lookup_empty. }
  split; [exact Htexts|]. split.
  - apply forallb_forall. intros lead Hin%list_elem_of_In.
    rewrite Forall_forall in Htexts. by apply texts_typed, Htexts.
  - intros [->|[->|[->|[hs ->]]]]; [done|by destruct service..].
Qed.

Lemma lookup_map {A B : Type} (f : A -> B) (l : list A) (j : nat) :
  List.map f l !! j = f <$> l !! j.
Proof. revert j. induction l as [|x l IH]; intros [|j]; try done. apply IH. Qed.

Lemma sheet_row_columns (lead : dict) :
  sheet_row lead = List.map (fun c => cell_text (get_or lead c.1 c.2)) lead_columns.
Proof. reflexivity. Qed.

Lemma header_keys : header_key <$> headers = fst <$> lead_columns.
Proof. vm_compute. reflexivity. Qed.

Lemma header_keys_NoDup : NoDup (header_key <$> headers).
Proof. rewrite header_keys. by_evaluation. Qed.

Lemma read_back (lead : dict) (row : list string) (j : nat)
    (k : string) (dflt : pyval) :
  stored_as (sheet_row lead) row ->
  lead_columns !! j = Some (k, dflt) ->
  row_to_lead ∅ 0 headers row !! k = Some (PStr (cell_text (get_or lead k dflt))).
Proof.
  intros [n Hrow] Hcol.
  rewrite <- (row_to_lead_padding ∅ 0 n headers row), <- Hrow.
  assert (Hkey : exists h, headers !! j = Some h /\ header_key h = k).
  { pose proof (f_equal (fun l => l !! j) header_keys) as H. cbn beta in H.
    rewrite !list_lookup_fmap, Hcol in H.
    destruct (headers !! j) as [h|]; [|done]. injection H as H. by exists h. }
  destruct Hkey as (h & Hh & <-).
  rewrite (row_to_lead_at ∅ 0 j headers _ h header_keys_NoDup Hh).
  rewrite sheet_row_columns. cbn [Nat.add]. by rewrite lookup_map, Hcol.
Qed.

(** X21.  Round trip through the sheet.  A row written for a lead and read
    back under the header row gives, for each of the twenty columns, the
    key of the lead's field and the stripped text of its value (the
    default when the lead has no such field), also when the sheet has
    dropped empty cells from the end of the row. *)
Theorem sheet_round_trip (lead : dict) (row : list string) (j : nat)
    (k : string) (dflt : pyval) :
  stored_as (sheet_row lead) row ->
  lead_columns !! j = Some (k, dflt) ->
  row_to_lead ∅ 0 headers row !! k = Some (PStr (cell_text (get_or lead k dflt))) /\
  List.length (sheet_row lead) = List.length headers.
Proof. intros Hrow Hcol. split; [by eapply read_back|reflexivity]. Qed.

Lemma lower_empty (s : string) : PyStr.lower s = "" <-> s = "".
Proof. by destruct s. Qed.

Lemma plain_fields (lead : dict) :
  plain lead = true ->
  exists email company,
    get_or lead "email" (PStr "") = PStr email /\
    get_or lead "company_name" (PStr "") = PStr company /\
    cell_text (PStr email) = email /\ cell_text (PStr company) = company.
Proof.
  unfold plain.
  destruct (get_or lead "email" (PStr "")) as [|email|]; try done.
  destruct (get_or lead "company_name" (PStr "")) as [|company|]; try done.
  intros [He Hc]%andb_true_iff. apply String.eqb_eq in He, Hc.
  exists email, company. by repeat split.
Qed.

Lemma unique_leads_covered (existing_leads new_leads : list dict)
    (combinations : gset string) (names : list string) :
  existing_company_names existing_leads = Some names ->
  Forall (fun lead =>
            exists email company,
              lower_field lead "email" = Some email /\
              lower_field lead "company_name" = Some company /\
              (nonempty email && nonempty company = true ->
               combination_of email company ∈ combinations) /\
              (nonempty email = false -> nonempty company = true -> company ∈ names))
         new_leads ->
  unique_leads_from existing_leads combinations new_leads = Some [].
Proof.
  intros Hnames. induction 1 as [|lead rest (email & company & He & Hc & Hkey & Hname) _ IH];
    [done|].
  cbn [unique_leads_from]. rewrite He, Hc. cbn [mbind option_bind].
  destruct (nonempty email && nonempty company) eqn:Hboth.
  - by rewrite decide_True by auto.
  - destruct (nonempty company) eqn:Hcompany; [|done].
    rewrite Hnames. cbn [mbind option_bind].
    rewrite andb_true_r in Hboth. by rewrite decide_True by auto.
Qed.

(** X22.  A second run finds nothing new, in a sheet that starts with the
    header row of [create_sheet_with_headers].  Take leads whose email and
    company name are texts, or missing, without white space around them;
    let their rows be stored under that header row, after whatever rows
    of leads the sheet holds.  Deduplication of the same leads against
    what is then read back suppresses every one of them.  ([save_leads]
    does not write the header row itself.) *)
Theorem saved_leads_are_suppressed (leads : list dict) (earlier rows : list (list string)) :
  forallb plain leads = true ->
  Forall2 stored_as (_prepare_sheet_data leads) rows ->
  check_duplicate_leads
    (get_existing_leads true (SheetResult (Some (headers :: earlier ++ rows)))) leads
  = [].
Proof.
  intros Hplain Hrows.
  destruct (decide (earlier ++ rows = [])) as [Hsheet|Hsheet].
  { rewrite Hsheet. apply app_eq_nil in Hsheet as [_ ->]. apply Forall2_nil_inv_r in Hrows.
    unfold _prepare_sheet_data in Hrows. apply map_eq_nil in Hrows. by subst leads. }
  set (existing := get_existing_leads true (SheetResult (Some (headers :: earlier ++ rows)))).
  assert (Hexisting : existing = List.map (row_to_lead ∅ 0 headers) (earlier ++ rows)).
  { unfold existing, get_existing_leads. cbn [negb List.length].
    by destruct (earlier ++ rows). }
  assert (Hne : existing ≠ []).
  { rewrite Hexisting. by destruct (earlier ++ rows). }
  assert (Htyped_existing : forallb typed existing = true).
  { rewrite Hexisting. apply forallb_forall. intros d (row & <- & _)%in_map_iff.
    apply texts_typed, row_to_lead_texts. intros k v. by rewrite lookup_empty. }
  assert (Hfields : forall lead, lead ∈ leads ->
            exists email company d,
              In d existing /\
              lower_field lead "email" = Some (PyStr.lower email) /\
              lower_field lead "company_name" = Some (PyStr.lower company) /\
              lower_field d "email" = Some (PyStr.lower email) /\
              lower_field d "company_name" = Some (PyStr.lower company)).
  { intros lead Hin. rewrite forallb_forall in Hplain.
    destruct (plain_fields lead (Hplain _ (proj1 (list_elem_of_In _ _) Hin)))
      as (email & company & He & Hc & Hse & Hsc).
    apply list_elem_of_lookup in Hin as [i Hi].
    assert (Hwritten : _prepare_sheet_data leads !! i = Some (sheet_row lead))
      by (unfold _prepare_sheet_data; by rewrite lookup_map, Hi).
    destruct (Forall2_lookup_l _ _ _ _ _ Hrows Hwritten) as (row & Hrow & Hstored).
    exists email, company, (row_to_lead ∅ 0 headers row). split.
    { rewrite Hexisting. apply in_map, in_or_app. right.
      by apply list_elem_of_In, list_elem_of_lookup_2 with i. }
    unfold lower_field. rewrite He, Hc. split; [done|]. split; [done|].
    unfold get_or.
    rewrite (read_back lead row 4 "email" (PStr "") Hstored eq_refl).
    rewrite (read_back lead row 5 "company_name" (PStr "") Hstored eq_refl).
    cbn [default]. by rewrite He, Hc, Hse, Hsc. }
  assert (Htyped_new : forallb typed leads = true).
  { apply forallb_forall. intros lead Hin%list_elem_of_In.
    destruct (Hfields lead Hin) as (email & company & _ & _ & He & Hc & _).
    unfold typed. by rewrite He, Hc. }
  destruct (check_duplicate_leads_nonempty existing leads Hne Htyped_existing Htyped_new)
    as (keys & Hkeys & Hrun).
  destruct (existing_company_names_spec existing Htyped_existing) as (names & Hnames & Hspec).
  assert (Hnone : unique_leads_from existing keys leads = Some []).
  { apply (unique_leads_covered _ _ _ names Hnames). apply Forall_forall.
    intros lead Hin. destruct (Hfields lead Hin) as (email & company & d & Hd & He & Hc & Hde & Hdc).
    exists (PyStr.lower email), (PyStr.lower company). split; [done|]. split; [done|]. split.
    - intros Hboth. apply Hkeys, existsb_exists. exists d. split; [done|].
      apply has_key_true. by rewrite (key_of_fields _ _ _ Hde Hdc), Hboth.
    - intros _ _. apply Hspec, existsb_exists. exists d. split; [done|].
      by apply has_company_true. }
  rewrite Hnone in Hrun. by injection Hrun as <-.
Qed.


End Sheet.

Lemma stored_as_itself (rows : list (list string)) : Forall2 stored_as rows rows.
Proof.
  induction rows as [|row rest IH]; constructor; [|done].
  exists 0. symmetry. apply app_nil_r.
Qed.

Lemma sheet_round_trip_witness :
  SheetStore.row_to_lead ∅ 0 SheetStore.headers (SheetStore.sheet_row john_lead)
    !! "company_name"
  = Some (PStr (SheetStore.cell_text (get_or john_lead "company_name" (PStr "")))) /\
  List.length (SheetStore.sheet_row john_lead) = List.length SheetStore.headers.
Proof.
  apply (sheet_round_trip john_lead (SheetStore.sheet_row john_lead) 5
           "company_name" (PStr "")).
  - exists 0. symmetry. apply app_nil_r.
  - reflexivity.
Defined.

Lemma saved_leads_are_suppressed_witness :
  GoogleSheetsManager.check_duplicate_leads
    (SheetStore.get_existing_leads true
       (SheetStore.SheetResult
          (Some (SheetStore.headers
                   :: [] ++ SheetStore._prepare_sheet_data
                              [lead_of "a@x.com" "Acme"; lead_of "" "Globex"]))))
    [lead_of "a@x.com" "Acme"; lead_of "" "Globex"]
  = [].
Proof.
  apply (saved_leads_are_suppressed [lead_of "a@x.com" "Acme"; lead_of "" "Globex"] []
           (SheetStore._prepare_sheet_data [lead_of "a@x.com" "Acme"; lead_of "" "Globex"])).
  - vm_compute. reflexivity.
  - apply stored_as_itself.
Defined.

(** ** The campaign sink *)

Section CampaignSink.
Import HeyReachManager.

Variable campaign : nat -> http_outcome.
Variable campaign_id : pyval.

Lemma add_lead_result (lead : dict) (w : hr_world) :
  (add_lead campaign campaign_id lead w).1 = accepted (campaign (hr_calls w)) /\
  hr_calls (add_lead campaign campaign_id lead w).2 = S (hr_calls w) /\
  exists evs,
    hr_trace (add_lead campaign campaign_id lead w).2 = hr_trace w ++ evs /\
    hr_pace true (evs ++ [HrSleep ConfiguredWait]) = Some true.
Proof.
  unfold add_lead, _add_lead_to_campaign, accepted. cbn zeta.
  set (data := _prepare_lead_data campaign_id lead).
  destruct (campaign (hr_calls w)) as [status_code body| |];
    try (split; [done|]; split; [done|]; by exists [HrPost data]).
  destruct (status_code =? 200)%Z; [split; [done|]; split; [done|]; by exists [HrPost data]|].
  destruct (status_code =? 201)%Z; [split; [done|]; split; [done|]; by exists [HrPost data]|].
  destruct (status_code =? 409)%Z; [split; [done|]; split; [done|]; by exists [HrPost data]|].
  destruct (status_code =? 429)%Z; [|split; [done|]; split; [done|]; by exists [HrPost data]].
  split; [done|]. split; [done|].
  exists [HrPost data; HrSleep (Seconds 60)]. split; [|done].
  cbn. by rewrite <- app_assoc.
Qed.



Lemma hr_pace_app (waited : bool) (evs1 evs2 : list hr_event) :
  hr_pace waited (evs1 ++ evs2) = hr_pace waited evs1 ≫= (fun b => hr_pace b evs2).
Proof.
  revert waited. induction evs1 as [|e rest IH]; intros waited; [done|].
  destruct e as [|[|n]]; cbn [app hr_pace]; try destruct waited; by rewrite ?IH.
Qed.

Lemma add_leads_from_paced (results : batch_results) (leads : list dict)
    (w : hr_world) :
  hr_calls (add_leads_from campaign campaign_id results leads w).2
    = (hr_calls w + List.length leads)%nat /\
  exists evs,
    hr_trace (add_leads_from campaign campaign_id results leads w).2 = hr_trace w ++ evs /\
    hr_pace true evs = Some true.
Proof.
  revert results w. induction leads as [|lead rest IH]; intros results w.
  { split; [cbn; lia|]. exists []. by rewrite app_nil_r. }
  cbn [add_leads_from List.length]. cbn zeta.
  destruct (add_lead_result lead w) as (_ & Hcalls & evs1 & Htrace1 & Hpace1).
  destruct (IH (if (add_lead campaign campaign_id lead w).1
                then {| success := success results + 1; failed := failed results;
                        duplicates := duplicates results |}
                else {| success := success results; failed := failed results + 1;
                        duplicates := duplicates results |})
               (hr_log (HrSleep ConfiguredWait) (add_lead campaign campaign_id lead w).2))
    as (IHcalls & evs2 & Htrace2 & Hpace2).
  split.
  - rewrite IHcalls. cbn [hr_log hr_calls]. rewrite Hcalls. lia.
  - exists ((evs1 ++ [HrSleep ConfiguredWait]) ++ evs2). split.
    + rewrite Htrace2. cbn [hr_log hr_trace]. rewrite Htrace1. by rewrite <- !app_assoc.
    + rewrite hr_pace_app, Hpace1. exact Hpace2.
Qed.

(** X24.  A campaign batch keeps the pace: it sends exactly one request
    for each lead, and no request follows another one unless the
    configured wait came in between; the run ends with that wait. *)
Theorem campaign_batch_is_paced (leads : list dict) (w : hr_world) :
  hr_calls (add_leads_batch campaign campaign_id leads w).2
    = (hr_calls w + List.length leads)%nat /\
  exists evs,
    hr_trace (add_leads_batch campaign campaign_id leads w).2 = hr_trace w ++ evs /\
    hr_pace true evs = Some true.
Proof. apply add_leads_from_paced. Qed.

Lemma keep_truthy_lookup (d : dict) (k : string) :
  keep_truthy d !! k = match d !! k with
                       | Some v => if truthy v then Some v else None
                       | None => None
                       end.
Proof.
  unfold keep_truthy. destruct (d !! k) as [v|] eqn:Hk.
  - destruct (truthy v) eqn:Hv.
    + by apply map_lookup_filter_Some.
    + apply map_lookup_filter_None. right. intros v' Hk'. cbn.
      rewrite Hk in Hk'. injection Hk' as <-. by rewrite Hv.
  - apply map_lookup_filter_None. by left.
Qed.

(** X25.  In the payload prepared for the campaign every entry taken from
    the lead, and every custom field, is the lead's field when that is not
    empty and is left out when it is, so none of them is empty.  The
    object of the custom fields itself is always part of the payload, and
    it is the empty object exactly when all nine custom values of the lead
    are empty. *)
Theorem prepared_payload_is_pruned (lead : dict) :
  (forall k v, fields (_prepare_lead_data campaign_id lead) !! k = Some v ->
               truthy v = true) /\
  (forall k v, custom_fields (_prepare_lead_data campaign_id lead) !! k = Some v ->
               truthy v = true) /\
  (forall target source,
     In (target, source) payload_columns ->
     fields (_prepare_lead_data campaign_id lead) !! target
     = if truthy (get_or lead source (PStr ""))
       then Some (get_or lead source (PStr "")) else None) /\
  (forall name,
     In name custom_columns ->
     custom_fields (_prepare_lead_data campaign_id lead) !! name
     = if truthy (get_or lead name (PStr ""))
       then Some (get_or lead name (PStr "")) else None) /\
  (custom_fields (_prepare_lead_data campaign_id lead) = ∅ <->
   Forall (fun name => truthy (get_or lead name (PStr "")) = false) custom_columns).
Proof.
  assert (Hcustom : forall name,
            In name custom_columns ->
            custom_fields (_prepare_lead_data campaign_id lead) !! name
            = if truthy (get_or lead name (PStr ""))
              then Some (get_or lead name (PStr "")) else None).
  { intros name Hin. cbn [_prepare_lead_data custom_fields].
    rewrite keep_truthy_lookup. unfold custom_columns in Hin. cbn [In] in Hin.
    repeat (destruct Hin as [<-|Hin]; [reflexivity|]). done. }
  split; [|split; [|split; [|split; [exact Hcustom|]]]].
  - intros k v. cbn [_prepare_lead_data fields]. rewrite keep_truthy_lookup.
    destruct (_ !! k) as [v'|]; [|done]. destruct (truthy v') eqn:Hv; [|done].
    by intros [= <-].
  - intros k v. cbn [_prepare_lead_data custom_fields]. rewrite keep_truthy_lookup.
    destruct (_ !! k) as [v'|]; [|done]. destruct (truthy v') eqn:Hv; [|done].
    by intros [= <-].
  - intros target source Hin. cbn [_prepare_lead_data fields].
    rewrite keep_truthy_lookup. unfold payload_columns in Hin. cbn [In] in Hin.
    repeat (destruct Hin as [[= <- <-]|Hin]; [reflexivity|]). done.
  - rewrite Forall_forall. split.
    + intros Hempty name Hin%list_elem_of_In. pose proof (Hcustom name Hin) as Hlook.
      rewrite Hempty, lookup_empty in Hlook.
      by destruct (truthy (get_or lead name (PStr ""))).
    + intros Hall. apply map_empty. intros k.
      cbn [_prepare_lead_data custom_fields]. rewrite keep_truthy_lookup.
      destruct (_ !! k) as [v|] eqn:Hk; [|done].
      apply elem_of_list_to_map_2, list_elem_of_In in Hk. cbn [In] in Hk.
      repeat (destruct Hk as [[= <- <-]|Hk];
              [rewrite Hall; [done|apply list_elem_of_In; cbv [custom_columns In]; tauto]|]).
      done.
Qed.
End CampaignSink.

(** A lead with an email and a company name only: the request that is
    sent carries an empty object of custom fields. *)
Example empty_custom_fields_are_sent :
  HeyReachManager.custom_fields
    (HeyReachManager._prepare_lead_data (PStr "c-1") (lead_of "a@x.com" "Acme")) = ∅ /\
  exists data,
    HeyReachManager.hr_trace
      (HeyReachManager.add_lead campaign_409 (PStr "c-1") (lead_of "a@x.com" "Acme")
         {| HeyReachManager.hr_calls := 0; HeyReachManager.hr_trace := [] |}).2
    = [HeyReachManager.HrPost data] /\
    HeyReachManager.custom_fields data = ∅.
Proof.
  split; [by_evaluation|]. eexists. split; [reflexivity|]. by_evaluation.
Qed.

Example campaign_batch_run :
  (HeyReachManager.add_leads_batch campaign_409 (PStr "c-1")
     [john_lead; jane_lead; john_lead]
     {| HeyReachManager.hr_calls := 0; HeyReachManager.hr_trace := [] |}).1
  = {| HeyReachManager.success := 2; HeyReachManager.failed := 1;
       HeyReachManager.duplicates := 0 |}.
Proof. vm_compute. reflexivity. Qed.

(** ** The email pattern and the scraper's items *)

Section Patterns.
Import EmailPattern.

Lemma many_spec (cls : ascii -> bool) (at_least : nat) (k : string -> bool)
    (taken : nat) (s : string) :
  many cls at_least k taken s = true <->
  exists run rest,
    s = (run ++ rest)%string /\
    PyStr.all_chars cls run = true /\
    (at_least <= taken + String.length run)%nat /\
    k rest = true.
Proof.
  revert taken. induction s as [|d r IH]; intros taken.
  - cbn [many]. rewrite orb_false_r, andb_true_iff, Nat.leb_le. split.
    + intros [Hn Hk]. exists "", "". cbn. repeat split; [lia|done].
    + intros (run & rest & Hs & _ & Hn & Hk).
      destruct run; [|done]. change ("" = rest) in Hs. subst rest. cbn in Hn.
      split; [lia|done].
  - cbn [many]. rewrite orb_true_iff, !andb_true_iff, Nat.leb_le, IH. split.
    + intros [[Hn Hk]|[Hd (run & rest & -> & Hrun & Hn & Hk)]].
      * exists "", (String d r). cbn. repeat split; [lia|done].
      * exists (String d run), rest. cbn. rewrite Hd, Hrun. repeat split; [lia|done].
    + intros (run & rest & Hs & Hrun & Hn & Hk). destruct run as [|c run].
      * change (String d r = rest) in Hs. subst rest. left. cbn in Hn. split; [lia|done].
      * change (String d r = String c (run ++ rest)%string) in Hs.
        injection Hs as <- ->. cbn in Hrun, Hn.
        apply andb_true_iff in Hrun as [Hc Hrun]. right. split; [done|].
        exists run, rest. repeat split; [done|lia|done].
Qed.

Lemma matches_many (cls : ascii -> bool) (at_least : nat) (rest : list item) (s : string) :
  matches (Many cls at_least :: rest) s = many cls at_least (matches rest) 0 s.
Proof. reflexivity. Qed.

Lemma matches_one (c : ascii) (rest : list item) (s : string) :
  matches (One c :: rest) s
  = match s with
    | String d r => Ascii.eqb c d && matches rest r
    | EmptyString => false
    end.
Proof. reflexivity. Qed.

Lemma at_end_spec (s : string) : at_end s = true <-> s = "" \/ s = String "010"%char "".
Proof.
  unfold at_end. rewrite orb_true_iff, !String.eqb_eq. done.
Qed.

(** X26.  [validate_email] accepts a text exactly when it is a non-empty
    run of local characters, an at sign, a non-empty run of domain
    characters, a dot, and two letters or more, with nothing after them
    but, possibly, one line feed.  So a text with a trailing line feed is
    accepted, and an empty text is not. *)
Theorem validate_email_shape (email : string) :
  validate_email (PStr email) = Some true <->
  exists local domain tld tail,
    email = (local ++ "@" ++ domain ++ "." ++ tld ++ tail)%string /\
    local ≠ "" /\ PyStr.all_chars local_char local = true /\
    domain ≠ "" /\ PyStr.all_chars domain_char domain = true /\
    (2 <= String.length tld)%nat /\ PyStr.all_chars is_letter tld = true /\
    (tail = "" \/ tail = String "010"%char "").
Proof.
  assert (Hlen : forall s, (1 <= String.length s)%nat <-> s ≠ "").
  { intros [|c r]; cbn; split; (lia || done). }
  assert (Hmatch : matches pattern email = true <->
            exists local domain tld tail,
              email = (local ++ "@" ++ domain ++ "." ++ tld ++ tail)%string /\
              local ≠ "" /\ PyStr.all_chars local_char local = true /\
              domain ≠ "" /\ PyStr.all_chars domain_char domain = true /\
              (2 <= String.length tld)%nat /\ PyStr.all_chars is_letter tld = true /\
              (tail = "" \/ tail = String "010"%char "")).
  { unfold pattern. rewrite matches_many. split.
    - intros (local & rest1 & -> & Hlocal & Hn1 & Hrest1)%many_spec.
      rewrite matches_one in Hrest1. destruct rest1 as [|c rest2]; [done|].
      apply andb_true_iff in Hrest1 as [Hat Hrest2]. apply Ascii.eqb_eq in Hat. subst c.
      rewrite matches_many in Hrest2.
      apply many_spec in Hrest2 as (domain & rest3 & -> & Hdomain & Hn2 & Hrest3).
      rewrite matches_one in Hrest3. destruct rest3 as [|c rest4]; [done|].
      apply andb_true_iff in Hrest3 as [Hdot Hrest4]. apply Ascii.eqb_eq in Hdot. subst c.
      rewrite matches_many in Hrest4.
      apply many_spec in Hrest4 as (tld & tail & -> & Htld & Hn3 & Htail).
      change (matches [] tail) with (at_end tail) in Htail.
      apply at_end_spec in Htail.
      exists local, domain, tld, tail. cbn [Nat.add] in *.
      repeat split; try done; by apply Hlen.
    - intros (local & domain & tld & tail & -> & Hl & Hlocal & Hd & Hdomain & Ht & Htld & Htail).
      apply many_spec.
      exists local, ("@" ++ domain ++ "." ++ tld ++ tail)%string.
      split; [done|]. split; [done|]. split; [by apply Hlen|].
      change ("@" ++ domain ++ "." ++ tld ++ tail)%string
        with (String "@" (domain ++ "." ++ tld ++ tail)).
      rewrite matches_one, Ascii.eqb_refl. cbn [andb]. rewrite matches_many.
      apply many_spec.
      exists domain, ("." ++ tld ++ tail)%string.
      split; [done|]. split; [done|]. split; [by apply Hlen|].
      change ("." ++ tld ++ tail)%string with (String "." (tld ++ tail)).
      rewrite matches_one, Ascii.eqb_refl. cbn [andb]. rewrite matches_many.
      apply many_spec.
      exists tld, tail. split; [done|]. split; [done|]. split; [done|].
      change (matches [] tail) with (at_end tail). by apply at_end_spec. }
  unfold validate_email. cbn [truthy as_str mbind option_bind].
  destruct (String.eqb_spec email "") as [->|Hne]; cbn [negb].
  - split; [done|]. intros (local & domain & tld & tail & He & Hl & _). by destruct local.
  - split.
    + intros [= H]. by apply Hmatch.
    + intros H. apply Hmatch in H. by rewrite H.
Qed.

Example validate_email_examples :
  validate_email (PStr "john.smith@acme.com") = Some true /\
  validate_email (PStr (String.append "john.smith@acme.com" (String "010"%char "")))
    = Some true /\
  validate_email (PStr "john.smith@acme") = Some false /\
  validate_email (PStr "john smith@acme.com") = Some false /\
  validate_email (PStr "john@smith@acme.com") = Some false /\
  validate_email (PStr "") = Some false /\
  validate_email PNone = Some false /\
  validate_email (PInt 7) = None.
Proof. repeat split; vm_compute; reflexivity. Qed.

End Patterns.

Section Scraper.
Import LinkedInScraper DataProcessor.

Lemma process_job_lookup (job : dict) (target source : string) :
  In (target, source) job_columns ->
  _process_job job !! target
  = match get job source with PNone => None | v => Some v end.
Proof.
  intros Hin. unfold _process_job.
  assert (Hfilter : forall (d : dict) k,
             filter (fun kv : string * pyval => kv.2 ≠ PNone) d !! k
             = match d !! k with Some PNone => None | o => o end).
  { intros d k. destruct (d !! k) as [v|] eqn:Hk.
    - destruct (decide (v = PNone)) as [->|Hv].
      + apply map_lookup_filter_None. right. intros v' Hk'. cbn.
        rewrite Hk in Hk'. injection Hk' as <-. by intros ?.
      + transitivity (Some v); [by apply map_lookup_filter_Some|by destruct v].
    - apply map_lookup_filter_None. by left. }
  rewrite Hfilter. unfold job_columns in Hin. cbn [In] in Hin.
  repeat (destruct Hin as [[= <- <-]|Hin];
          [match goal with |- context [get job ?s] =>
             change (list_to_map _ !! _) with (Some (get job s)) end;
           by destruct (get job _)|]).
  done.
Qed.

(** X27.  Processing a scraper's item renames its keys and drops the
    entries that are [None], which [get] cannot tell from missing ones: for
    each of the twenty-one keys, [get] on the processed posting gives what
    [get] gives on the item under the scraper's key.  So the threshold
    filter keeps the postings of exactly the items whose [employeeCount]
    passes the threshold. *)
Theorem process_job_data_get (cfg : config) (raw_data : list dict) :
  Forall2 (fun job processed =>
             forall target source,
               In (target, source) job_columns ->
               get processed target = get job source)
          raw_data (_process_job_data raw_data) /\
  _filter_by_employee_count cfg (_process_job_data raw_data)
  = _process_job_data (List.filter (raw_passes_threshold cfg) raw_data).
Proof.
  assert (Hget : forall job target source,
             In (target, source) job_columns ->
             get (_process_job job) target = get job source).
  { intros job target source Hin. unfold get at 1, get_or.
    rewrite (process_job_lookup _ _ _ Hin). by destruct (get job source). }
  split.
  - unfold _process_job_data. induction raw_data as [|job rest IH]; constructor; [|done].
    intros target source. apply Hget.
  - unfold _filter_by_employee_count, _process_job_data.
    induction raw_data as [|job rest IH]; [done|].
    cbn [List.map List.filter]. unfold passes_threshold at 1, raw_passes_threshold at 1.
    rewrite (Hget job "employee_count" "employeeCount")
      by (unfold job_columns; cbn [In]; tauto).
    destruct (threshold_count (get job "employeeCount")) as [n|]; [|done].
    destruct (min_employee_count cfg <=? n)%Z; cbn [List.map]; by rewrite IH.
Qed.

End Scraper.

(** ** Domains of ordinary URLs *)

Section Domains.

Lemma append_cons (c : ascii) (s t : string) :
  (String c s ++ t)%string = String c (s ++ t)%string.
Proof. reflexivity. Qed.

Lemma append_empty (t : string) : ("" ++ t)%string = t.
Proof. reflexivity. Qed.

Lemma append_assoc (s t u : string) : ((s ++ t) ++ u)%string = (s ++ t ++ u)%string.
Proof. induction s as [|c s IH]; [done|]. by rewrite !append_cons, IH. Qed.

Lemma host_char_app (s t : string) :
  PyStr.all_chars host_char (s ++ t)%string
  = PyStr.all_chars host_char s && PyStr.all_chars host_char t.
Proof.
  induction s as [|c s IH]; [done|]. rewrite append_cons. cbn [PyStr.all_chars].
  by rewrite IH, andb_assoc.
Qed.

(** A prefix that has a colon after some letters does not start a text made
    of a host and what follows it. *)
Lemma colon_prefix_absent (letters after host tail : string) :
  PyStr.all_chars (fun c => negb (Ascii.eqb c "/")) letters = true ->
  PyStr.all_chars host_char host = true ->
  path_like tail = true ->
  PyStr.strip_prefix (letters ++ String ":" after) (host ++ tail) = None.
Proof.
  intros Hletters Hhost Htail. revert host Hhost.
  induction letters as [|a letters IH]; intros host Hhost.
  - rewrite append_empty. destruct host as [|c host].
    + rewrite append_empty. destruct tail as [|c tail]; [done|].
      cbn in Htail. apply Ascii.eqb_eq in Htail. by subst c.
    + rewrite append_cons. cbn [PyStr.all_chars] in Hhost.
      apply andb_true_iff in Hhost as [[_ Hc]%andb_true_iff _].
      cbn [PyStr.strip_prefix]. apply negb_true_iff in Hc.
      rewrite Ascii.eqb_sym in Hc. by rewrite Hc.
  - cbn [PyStr.all_chars] in Hletters. apply andb_true_iff in Hletters as [Ha Hletters].
    rewrite append_cons. destruct host as [|c host].
    + rewrite append_empty. destruct tail as [|c tail]; [done|].
      cbn in Htail. apply Ascii.eqb_eq in Htail. subst c.
      cbn [PyStr.strip_prefix]. apply negb_true_iff in Ha. by rewrite Ha.
    + rewrite append_cons. cbn [PyStr.all_chars] in Hhost.
      apply andb_true_iff in Hhost as [_ Hhost].
      cbn [PyStr.strip_prefix]. destruct (Ascii.eqb a c); [by apply IH|done].
Qed.

Lemma scheme_absent (scheme host tail : string) :
  scheme = "https://" \/ scheme = "http://" ->
  PyStr.all_chars host_char host = true ->
  path_like tail = true ->
  PyStr.startswith scheme (host ++ tail) = false.
Proof.
  intros Hscheme Hhost Htail. unfold PyStr.startswith.
  destruct Hscheme as [-> | ->].
  - pose proof (colon_prefix_absent "https" "//" host tail eq_refl Hhost Htail) as H.
    change ("https" ++ String ":" "//")%string with "https://" in H. by rewrite H.
  - pose proof (colon_prefix_absent "http" "//" host tail eq_refl Hhost Htail) as H.
    change ("http" ++ String ":" "//")%string with "http://" in H. by rewrite H.
Qed.

Lemma replace_scheme_keeps_host (scheme host tail : string) :
  scheme = "https://" \/ scheme = "http://" ->
  PyStr.all_chars host_char host = true ->
  path_like tail = true ->
  PyStr.replace scheme "" (host ++ tail)
  = (host ++ PyStr.replace scheme "" tail)%string.
Proof.
  intros Hscheme Hhost Htail. unfold PyStr.replace.
  induction host as [|c host IH]; [done|].
  pose proof (scheme_absent scheme (String c host) tail Hscheme Hhost Htail) as Hno.
  cbn [PyStr.all_chars] in Hhost. apply andb_true_iff in Hhost as [_ Hhost].
  rewrite !append_cons in *. cbn [PyStr.replace_from]. rewrite Hno. by rewrite IH.
Qed.

Lemma replace_scheme_path (scheme tail : string) :
  scheme = "https://" \/ scheme = "http://" ->
  path_like tail = true ->
  path_like (PyStr.replace scheme "" tail) = true.
Proof.
  intros Hscheme Htail. destruct tail as [|c tail]; [done|].
  cbn in Htail. apply Ascii.eqb_eq in Htail. subst c.
  by destruct Hscheme as [-> | ->].
Qed.

Lemma before_first_host (host tail : string) :
  PyStr.all_chars host_char host = true ->
  path_like tail = true ->
  PyStr.before_first "/" (host ++ tail) = host.
Proof.
  intros Hhost Htail. induction host as [|c host IH].
  - rewrite append_empty. destruct tail as [|c tail]; [done|].
    cbn in Htail. cbn [PyStr.before_first]. by rewrite Htail.
  - cbn [PyStr.all_chars] in Hhost.
    apply andb_true_iff in Hhost as [[Hc _]%andb_true_iff Hhost].
    rewrite append_cons. cbn [PyStr.before_first].
    apply negb_true_iff in Hc. by rewrite Hc, IH.
Qed.

Lemma replace_absent (old new s : string) :
  PyStr.contains old s = false -> PyStr.replace old new s = s.
Proof.
  unfold PyStr.replace. induction s as [|c s IH]; [done|].
  cbn [PyStr.contains]. intros [Hhere Hlater]%orb_false_iff.
  cbn [PyStr.replace_from]. by rewrite Hhere, IH.
Qed.

Lemma email_domain_of_host (host tail : string) :
  PyStr.all_chars host_char host = true ->
  path_like tail = true ->
  EmailFinder.domain_of (host ++ tail) = PyStr.replace "www." "" host.
Proof.
  intros Hhost Htail. unfold EmailFinder.domain_of.
  rewrite (replace_scheme_keeps_host "https://") by auto.
  rewrite (replace_scheme_keeps_host "http://")
    by auto using replace_scheme_path.
  by rewrite before_first_host by auto using replace_scheme_path.
Qed.

(** X28.  On an ordinary URL the two domain extractors agree and give the
    host.  The URL is [http://] or [https://], then, possibly, [www.],
    then a host that holds no slash, no colon and no [www.], then nothing
    or a path that starts with a slash. *)
Theorem extractors_agree_on_plain_hosts (scheme www host tail : string) :
  scheme = "https://" \/ scheme = "http://" ->
  www = "www." \/ www = "" ->
  PyStr.all_chars host_char host = true ->
  PyStr.contains "www." host = false ->
  path_like tail = true ->
  DataProcessor.extract_domain_from_url (PStr (scheme ++ www ++ host ++ tail)%string)
    = Some host /\
  EmailFinder._extract_domain (PStr (scheme ++ www ++ host ++ tail)%string) = Some host.
Proof.
  intros Hscheme Hwww Hhost Habsent Htail.
  assert (Hfull : PyStr.all_chars host_char (www ++ host)%string = true).
  { rewrite host_char_app, Hhost. by destruct Hwww as [-> | ->]. }
  assert (Hstart : PyStr.strip_prefix "www." host = None).
  { destruct host as [|c host]; [done|]. cbn [PyStr.contains] in Habsent.
    apply orb_false_iff in Habsent as [Hhere _]. unfold PyStr.startswith in Hhere.
    by destruct (PyStr.strip_prefix "www." (String c host)). }
  assert (Hdata : DataProcessor.domain_of (scheme ++ www ++ host ++ tail)%string = host).
  { unfold DataProcessor.domain_of.
    assert (Hstrip : DataProcessor.strip_scheme (scheme ++ www ++ host ++ tail)%string
                     = ((www ++ host) ++ tail)%string).
    { rewrite append_assoc. by destruct Hscheme as [-> | ->]. }
    rewrite Hstrip, before_first_host by done.
    destruct Hwww as [-> | ->]; [done|].
    rewrite append_empty. unfold DataProcessor.strip_www. by rewrite Hstart. }
  assert (Hemail : EmailFinder.domain_of (scheme ++ www ++ host ++ tail)%string = host).
  { assert (Hrest : EmailFinder.domain_of ((www ++ host) ++ tail)%string = host).
    { rewrite email_domain_of_host by done.
      destruct Hwww as [-> | ->].
      - change (PyStr.replace "www." "" ("www." ++ host)%string)
          with (PyStr.replace "www." "" host).
        by apply replace_absent.
      - rewrite append_empty. by apply replace_absent. }
    transitivity (EmailFinder.domain_of ((www ++ host) ++ tail)%string); [|exact Hrest].
    rewrite (append_assoc www host tail). unfold EmailFinder.domain_of.
    destruct Hscheme as [-> | ->].
    - reflexivity.
    - assert (Hkeep : PyStr.replace "https://" "" ("http://" ++ www ++ host ++ tail)%string
                      = ("http://" ++ PyStr.replace "https://" "" (www ++ host ++ tail))%string)
        by reflexivity.
      rewrite Hkeep. reflexivity. }
  assert (Hne : (scheme ++ www ++ host ++ tail)%string ≠ "")
    by (by destruct Hscheme as [-> | ->]).
  apply String.eqb_neq in Hne.
  unfold DataProcessor.extract_domain_from_url, EmailFinder._extract_domain.
  cbn [truthy as_str mbind option_bind]. rewrite Hne. cbn [negb].
  by rewrite Hdata, Hemail.
Qed.

End Domains.

Lemma extractors_agree_on_plain_hosts_witness :
  DataProcessor.extract_domain_from_url
    (PStr ("https://" ++ "www." ++ "acme.com" ++ "/careers")%string) = Some "acme.com" /\
  EmailFinder._extract_domain
    (PStr ("https://" ++ "www." ++ "acme.com" ++ "/careers")%string) = Some "acme.com".
Proof.
  apply (extractors_agree_on_plain_hosts "https://" "www." "acme.com" "/careers");
    first [by left | reflexivity].
Defined.

(** The condition on white space in X22 is needed: an email written with a
    blank before it is stored without the blank, and the lead is not
    recognised in the next run. *)
Example padded_email_is_not_suppressed :
  GoogleSheetsManager.check_duplicate_leads
    (SheetStore.get_existing_leads true
       (SheetStore.SheetResult
          (Some (SheetStore.headers
                   :: SheetStore._prepare_sheet_data [lead_of " a@x.com" "Acme"]))))
    [lead_of " a@x.com" "Acme"]
  = [lead_of " a@x.com" "Acme"].
Proof. by_evaluation. Qed.

(** The header row is needed as well: in a sheet that holds the rows of
    the leads and no header row, the first row is read as the headers, and
    every lead comes back as new. *)
Example headerless_sheet_suppresses_nothing :
  GoogleSheetsManager.check_duplicate_leads
    (SheetStore.get_existing_leads true
       (SheetStore.SheetResult
          (Some (SheetStore._prepare_sheet_data
                   [lead_of "a@x.com" "Acme"; lead_of "b@y.com" "Globex"]))))
    [lead_of "a@x.com" "Acme"; lead_of "b@y.com" "Globex"]
  = [lead_of "a@x.com" "Acme"; lead_of "b@y.com" "Globex"].
Proof. by_evaluation. Qed.
